(** * Shear-force and bending-moment diagrams of a bridge girder model

    A shallow embedding of the two scripts of the repository:

    - [TASK_1.py]: the 2D profile of the central longitudinal girder
      (continuity check, then extraction of positions, bending moments and
      shear forces);
    - [3D_task_2.py]: [create_enhanced_3d_diagram], the 3D ribbon builder
      (scale factor, centerlines, per-element meshes with boundary edges,
      visibility buttons).

    Modelling conventions.

    - Python floats are IEEE 754 binary64 numbers: Rocq's primitive floats
      ([PrimFloat.float]), whose operations round to nearest, ties to even,
      as CPython's do, with the same infinities, signed zeros and NaN.
      Equality of floats in a statement is Leibniz equality: the same
      number bit for bit (all NaNs being one value); Python's [==] is
      [PrimFloat.eqb].
    - A Python [dict] is an association list in insertion order with
      first-match lookup; assignment to an existing key keeps its position.
    - Exceptions are values of [exn]; code that can raise lives in a small
      state-and-exception monad [M], so that mutations made before a raise
      stay visible to an enclosing [except].
    - The console is a list of messages.  Only diagnostics (warnings and
      error reports) are recorded; progress banners are left out.
    - Of a plotly trace only the data-carrying fields are kept (coordinate
      arrays, triangle indices, intensities, colour range, name, legend and
      colour-bar flags, line colour and width). *)

From Stdlib Require Import ZArith Floats List String Bool Lia Permutation.
Import ListNotations.

Local Open Scope string_scope.
Local Open Scope list_scope.
Local Open Scope Z_scope.

(* ================================================================= *)
(** * Numbers *)

Definition float : Type := PrimFloat.float.

(** [float(z)] for a Python int [z]: the binary64 number nearest to [z],
    ties to even.  (Beyond the range of binary64 Python raises
    [OverflowError], where this gives an infinity; no int of the scripts
    comes near.) *)
Definition float_of_Z (z : Z) : float :=
  SF2Prim (binary_normalize prec emax z 0 false).

(** Decimal literals of the source, read as Python reads them: the nearest
    binary64 number. *)
Set Warnings "-inexact-float".
Definition f1_8 : float := 1.8%float.
Definition f3_0 : float := 3.0%float.
Definition f1_0 : float := 1.0%float.
Definition f1_5 : float := 1.5%float.
Definition f0 : float := 0%float.

(** [a < b] on floats: false whenever one side is NaN. *)
Definition fltb (a b : float) : bool := PrimFloat.ltb a b.

(* ================================================================= *)
(** * Exceptions, results, and the state-and-exception monad *)

Inductive key : Type :=
| KInt (z : Z)
| KStr (s : string).

Inductive exn : Type :=
| KeyError (k : key)
| IndexError
| ZeroDivisionError
| ValueError.

Definition is_KeyError (e : exn) : bool :=
  match e with KeyError _ => true | _ => false end.

Inductive result (A : Type) : Type :=
| Ok (a : A)
| Raise (e : exn).
Arguments Ok {A} a.
Arguments Raise {A} e.

Definition is_ok {A} (r : result A) : bool :=
  match r with Ok _ => true | Raise _ => false end.

Definition M (S A : Type) : Type := S -> result A * S.

Definition ret {S A} (a : A) : M S A := fun s => (Ok a, s).

Definition bind {S A B} (m : M S A) (k : A -> M S B) : M S B :=
  fun s => match m s with
           | (Ok a, s') => k a s'
           | (Raise e, s') => (Raise e, s')
           end.

Definition raise {S A} (e : exn) : M S A := fun s => (Raise e, s).

Definition lift {S A} (r : result A) : M S A := fun s => (r, s).

Definition get {S} : M S S := fun s => (Ok s, s).

Definition modify {S} (f : S -> S) : M S unit := fun s => (Ok tt, f s).

(** [try: body  except <any> as e: handler e] *)
Definition try_except {S A} (body : M S A) (handler : exn -> M S A) : M S A :=
  fun s => match body s with
           | (Ok a, s') => (Ok a, s')
           | (Raise e, s') => handler e s'
           end.

Declare Scope monad_scope.
Delimit Scope monad_scope with monad.
Notation "x <- m ;; k" := (bind m (fun x => k))
  (at level 61, m at next level, right associativity) : monad_scope.
Notation "' p <- m ;; k" := (bind m (fun x => match x with p => k end))
  (at level 61, p pattern, m at next level, right associativity) : monad_scope.
Notation "m ;;; k" := (bind m (fun _ => k))
  (at level 61, right associativity) : monad_scope.
Local Open Scope monad_scope.

(** [for a in l: body a] *)
Fixpoint for_each {S A} (body : A -> M S unit) (l : list A) : M S unit :=
  match l with
  | [] => ret tt
  | a :: l' => body a ;;; for_each body l'
  end.

(* ================================================================= *)
(** * Python containers *)

Section Dict.
Context {K V : Type} (eqb : K -> K -> bool).

Fixpoint dict_get (d : list (K * V)) (k : K) : option V :=
  match d with
  | [] => None
  | (k', v) :: d' => if eqb k' k then Some v else dict_get d' k
  end.

(** [d[k] = v] *)
Fixpoint dict_set (d : list (K * V)) (k : K) (v : V) : list (K * V) :=
  match d with
  | [] => [(k, v)]
  | (k', v') :: d' =>
      if eqb k' k then (k', v) :: d' else (k', v') :: dict_set d' k v
  end.
End Dict.

Definition zdict (V : Type) : Type := list (Z * V).
Definition sdict (V : Type) : Type := list (string * V).

Definition zget {V} (d : zdict V) (k : Z) : option V := dict_get Z.eqb d k.
Definition sget {V} (d : sdict V) (k : string) : option V := dict_get String.eqb d k.
Definition sset {V} (d : sdict V) (k : string) (v : V) : sdict V :=
  dict_set String.eqb d k v.
Definition zset {V} (d : zdict V) (k : Z) (v : V) : zdict V :=
  dict_set Z.eqb d k v.

(** [d[k]], raising [KeyError] *)
Definition zitem {V} (d : zdict V) (k : Z) : result V :=
  match zget d k with Some v => Ok v | None => Raise (KeyError (KInt k)) end.

Definition sitem {V} (d : sdict V) (k : string) : result V :=
  match sget d k with Some v => Ok v | None => Raise (KeyError (KStr k)) end.

(** [l[i]] for a non-negative index *)
Definition list_item {A} (l : list A) (i : nat) : result A :=
  match nth_error l i with Some a => Ok a | None => Raise IndexError end.

(** [l[i] = a] for a non-negative index *)
Fixpoint list_assign {A} (l : list A) (i : nat) (a : A) : result (list A) :=
  match l, i with
  | [], _ => Raise IndexError
  | _ :: l', O => Ok (a :: l')
  | b :: l', S i' =>
      match list_assign l' i' a with
      | Ok r => Ok (b :: r)
      | Raise e => Raise e
      end
  end.

Definition enumerate {A} (l : list A) : list (nat * A) :=
  combine (seq 0 (List.length l)) l.

(** [range(n)] *)
Definition range (n : Z) : list Z := map Z.of_nat (seq 0 (Z.to_nat n)).

(* ================================================================= *)
(** * Geometry and the results dataset *)

Definition coord : Type := (float * float * float)%type.
Definition nodes_t : Type := zdict coord.
Definition members_t : Type := zdict (Z * Z).

(** The [forces] array of the dataset: a dense array over the coordinates
    [Element] and [Component]. *)
Record dataset : Type := {
  Element : list Z;
  Component : list string;
  values : Z -> string -> float
}.

(** [float(ds['forces'].sel(Element=e, Component=c).values)]: a label that is
    not on its coordinate raises [KeyError]. *)
Definition sel (ds : dataset) (e : Z) (c : string) : result float :=
  if negb (existsb (Z.eqb e) (Element ds)) then Raise (KeyError (KInt e))
  else if negb (existsb (String.eqb c) (Component ds)) then Raise (KeyError (KStr c))
  else Ok (values ds e c).

(* ================================================================= *)
(** * Console *)

Inductive parg : Type :=
| PStr (s : string)
| PInt (z : Z)
| PNames (l : list string)
| PExn (e : exn).

Definition message : Type := list parg.

(* ================================================================= *)
(** * TASK_1.py: 2D profile of the central girder *)

Module Task1.

Record state : Type := {
  positions : list float;
  bending_moments : list float;
  shear_forces : list float;
  console : list message
}.

Definition initial : state :=
  {| positions := []; bending_moments := []; shear_forces := []; console := [] |}.

Definition print (m : message) : M state unit :=
  modify (fun s =>
    {| positions := positions s; bending_moments := bending_moments s;
       shear_forces := shear_forces s; console := console s ++ [m] |}).

(** [positions.extend(ps); bending_moments.extend(ms); shear_forces.extend(vs)] *)
Definition extend3 (ps ms vs : list float) : M state unit :=
  modify (fun s =>
    {| positions := positions s ++ ps;
       bending_moments := bending_moments s ++ ms;
       shear_forces := shear_forces s ++ vs;
       console := console s |}).

Definition central_elements : list Z := [15; 24; 33; 42; 51; 60; 69; 78; 83].

Definition connectivity_warning (ele : Z) : message :=
  [PStr "Warning: element connectivity issue at element"; PInt ele].

(** Lines 36-41: the continuity check. *)
Definition check_body (members : members_t) (chain : list Z)
    (ie : nat * Z) : M state unit :=
  let '(i, ele) := ie in
  '(ni, nj) <- lift (zitem members ele) ;;
  if (0 <? i)%nat then
    prev <- lift (list_item chain (i - 1)) ;;
    '(_, prev_nj) <- lift (zitem members prev) ;;
    if negb (ni =? prev_nj) then print (connectivity_warning ele)
    else ret tt
  else ret tt.

Definition continuity_check (members : members_t) (chain : list Z) : M state unit :=
  for_each (check_body members chain) (enumerate chain).

Definition error_reading (ele : Z) : message :=
  [PStr "Error reading element"; PInt ele].

Definition available_components (ds : dataset) : message :=
  [PStr "Available components:"; PNames (Component ds)].

(** Lines 72-75: [except KeyError as e: print(...); print(...); raise];
    any other exception passes through. *)
Definition on_exception (ds : dataset) (ele : Z) (e : exn)
    : M state (float * float * float * float) :=
  if is_KeyError e then
    print (error_reading ele) ;;;
    print (available_components ds) ;;;
    raise e
  else raise e.

(** Lines 67-75: the four reads under [try]. *)
Definition read_forces (ds : dataset) (ele : Z)
    : M state (float * float * float * float) :=
  try_except
    (mz_i <- lift (sel ds ele "Mz_i") ;;
     mz_j <- lift (sel ds ele "Mz_j") ;;
     vy_i <- lift (sel ds ele "Vy_i") ;;
     vy_j <- lift (sel ds ele "Vy_j") ;;
     ret (mz_i, mz_j, vy_i, vy_j))
    (on_exception ds ele).

(** Lines 55-84: one iteration of the extraction loop. *)
Definition extract_body (nodes : nodes_t) (members : members_t) (ds : dataset)
    (ie : nat * Z) : M state unit :=
  let '(idx, ele) := ie in
  node_i <- lift (match zitem members ele with
                  | Ok p => Ok (fst p) | Raise e => Raise e end) ;;
  node_j <- lift (match zitem members ele with
                  | Ok p => Ok (snd p) | Raise e => Raise e end) ;;
  coord_i <- lift (zitem nodes node_i) ;;
  coord_j <- lift (zitem nodes node_j) ;;
  let pos_i := fst (fst coord_i) in
  let pos_j := fst (fst coord_j) in
  '(mz_i, mz_j, vy_i, vy_j) <- read_forces ds ele ;;
  if (idx =? 0)%nat then extend3 [pos_i; pos_j] [mz_i; mz_j] [vy_i; vy_j]
  else extend3 [pos_j] [mz_j] [vy_j].

Definition extraction (nodes : nodes_t) (members : members_t) (ds : dataset)
    (chain : list Z) : M state unit :=
  for_each (extract_body nodes members ds) (enumerate chain).

(** The script up to line 88, for a given girder chain. *)
Definition run (nodes : nodes_t) (members : members_t) (ds : dataset)
    (chain : list Z) : result unit * state :=
  (continuity_check members chain ;;; extraction nodes members ds chain) initial.

Definition main (nodes : nodes_t) (members : members_t) (ds : dataset)
    : result unit * state :=
  run nodes members ds central_elements.

End Task1.

(* ================================================================= *)
(** * 3D_task_2.py: the 3D ribbon builder *)

Module Task2.

(** ** The girder table (lines 61-93) *)

Record girder_info : Type := {
  elements : list Z;
  girder_nodes : list Z;
  color : string
}.

Definition girders : sdict girder_info :=
  [ ("Girder 1",
     {| elements := [13; 22; 31; 40; 49; 58; 67; 76; 81];
        girder_nodes := [1; 11; 16; 21; 26; 31; 36; 41; 46; 6];
        color := "rgb(100, 149, 237)" |});
    ("Girder 2",
     {| elements := [14; 23; 32; 41; 50; 59; 68; 77; 82];
        girder_nodes := [2; 12; 17; 22; 27; 32; 37; 42; 47; 7];
        color := "rgb(127, 255, 212)" |});
    ("Girder 3",
     {| elements := [15; 24; 33; 42; 51; 60; 69; 78; 83];
        girder_nodes := [3; 13; 18; 23; 28; 33; 38; 43; 48; 8];
        color := "rgb(144, 238, 144)" |});
    ("Girder 4",
     {| elements := [16; 25; 34; 43; 52; 61; 70; 79; 84];
        girder_nodes := [4; 14; 19; 24; 29; 34; 39; 44; 49; 9];
        color := "rgb(255, 218, 120)" |});
    ("Girder 5",
     {| elements := [17; 26; 35; 44; 53; 62; 71; 80; 85];
        girder_nodes := [5; 15; 20; 25; 30; 35; 40; 45; 50; 10];
        color := "rgb(240, 128, 128)" |}) ].

(** The reverse mapping [element_id -> girder_name]. *)
Definition element_to_girder : zdict string :=
  fold_left
    (fun d (g : string * girder_info) =>
       let '(girder_name, girder_info) := g in
       fold_left (fun d eid => zset d eid girder_name) (elements girder_info) d)
    girders [].

Definition other_elements : string := "Other Elements".

(** [element_to_girder.get(eid, 'Other Elements')] *)
Definition girder_of (eid : Z) : string :=
  match zget element_to_girder eid with
  | Some girder_name => girder_name
  | None => other_elements
  end.

(** ** Components and scale factor (lines 101-128) *)

Definition components (result_type : string) : string * string :=
  if String.eqb result_type "BMD" then ("Mz_i", "Mz_j")
  else ("Vy_i", "Vy_j").

(** One iteration of the loop of lines 115-121: both reads must succeed for
    the pair to be added; any exception skips the element. *)
Definition collect_step (ds : dataset) (comp_i comp_j : string)
    (all_values : list float) (m : Z * (Z * Z)) : list float :=
  let eid := fst m in
  match sel ds eid comp_i with
  | Raise _ => all_values
  | Ok v_i =>
      match sel ds eid comp_j with
      | Raise _ => all_values
      | Ok v_j => all_values ++ [abs v_i; abs v_j]
      end
  end.

Definition collect_values (ds : dataset) (comp_i comp_j : string)
    (members : members_t) : list float :=
  fold_left (collect_step ds comp_i comp_j) members [].

(** Python's [max] and [min] keep the first of equal candidates. *)
Definition fmax (m x : float) : float := if fltb m x then x else m.
Definition fmin (m x : float) : float := if fltb x m then x else m.

Definition py_max (l : list float) : result float :=
  match l with
  | [] => Raise ValueError
  | a :: l' => Ok (fold_left fmax l' a)
  end.

Definition py_min (l : list float) : result float :=
  match l with
  | [] => Raise ValueError
  | a :: l' => Ok (fold_left fmin l' a)
  end.

(** [max(all_values) if all_values else 1.0] *)
Definition max_val_of (all_values : list float) : float :=
  match all_values with
  | [] => f1_0
  | a :: l' => fold_left fmax l' a
  end.

(** [1.8 / max_val if max_val > 0 else 1.0], then [scale *= 3.0] for SFD. *)
Definition scale_of (result_type : string) (max_val : float) : float :=
  let scale := if fltb f0 max_val then (f1_8 / max_val)%float else f1_0 in
  if String.eqb result_type "SFD" then (scale * f3_0)%float else scale.

(** ** Traces *)

Record scatter3d : Type := {
  sx : list float;
  sy : list float;
  sz : list float;
  line_color : string;
  line_width : float;
  s_name : string;
  s_showlegend : bool
}.

Record mesh3d : Type := {
  mx : list float;
  my : list float;
  mz : list float;
  mi : list Z;
  mj : list Z;
  mk : list Z;
  intensity : list float;
  cmin : float;
  cmax : float;
  m_name : string;
  m_showlegend : bool;
  showscale : bool;
  hover_element : Z;
  hover_nodes : Z * Z;
  hover_values : float * float
}.

Inductive trace : Type :=
| Scatter3d (s : scatter3d)
| Mesh3d (m : mesh3d).

(** [name] and [legendgroup] of a trace (always set to the same string). *)
Definition trace_name (t : trace) : string :=
  match t with
  | Scatter3d s => s_name s
  | Mesh3d m => m_name m
  end.

Record button : Type := {
  label : string;
  visible : list bool
}.

(** ** Builder state *)

Record state : Type := {
  fig_data : list trace;
  updatemenus : list button;
  girder_traces : sdict (list nat);
  element_count : nat;
  shown_in_legend : list string;
  console : list message
}.

Definition set_fig_data (f : list trace -> list trace) (s : state) : state :=
  {| fig_data := f (fig_data s); updatemenus := updatemenus s;
     girder_traces := girder_traces s; element_count := element_count s;
     shown_in_legend := shown_in_legend s; console := console s |}.

Definition set_updatemenus (b : list button) (s : state) : state :=
  {| fig_data := fig_data s; updatemenus := b;
     girder_traces := girder_traces s; element_count := element_count s;
     shown_in_legend := shown_in_legend s; console := console s |}.

Definition set_girder_traces (g : sdict (list nat)) (s : state) : state :=
  {| fig_data := fig_data s; updatemenus := updatemenus s;
     girder_traces := g; element_count := element_count s;
     shown_in_legend := shown_in_legend s; console := console s |}.

Definition set_element_count (n : nat) (s : state) : state :=
  {| fig_data := fig_data s; updatemenus := updatemenus s;
     girder_traces := girder_traces s; element_count := n;
     shown_in_legend := shown_in_legend s; console := console s |}.

Definition set_shown_in_legend (l : list string) (s : state) : state :=
  {| fig_data := fig_data s; updatemenus := updatemenus s;
     girder_traces := girder_traces s; element_count := element_count s;
     shown_in_legend := l; console := console s |}.

Definition set_console (c : list message) (s : state) : state :=
  {| fig_data := fig_data s; updatemenus := updatemenus s;
     girder_traces := girder_traces s; element_count := element_count s;
     shown_in_legend := shown_in_legend s; console := c |}.

(** [girder_traces = {gname: [] for gname in girders.keys()}] followed by
    [girder_traces['Other Elements'] = []] (lines 146-149). *)
Definition initial_girder_traces : sdict (list nat) :=
  sset (map (fun g : string * girder_info => (fst g, @nil nat)) girders)
       other_elements [].

Definition initial : state :=
  {| fig_data := []; updatemenus := [];
     girder_traces := initial_girder_traces;
     element_count := 0%nat; shown_in_legend := []; console := [] |}.

Definition print (m : message) : M state unit :=
  modify (fun s => set_console (console s ++ [m]) s).

(** [fig.add_trace(t)] *)
Definition add_trace (t : trace) : M state unit :=
  modify (set_fig_data (fun d => d ++ [t])).

(** [girder_traces[girder_name].append(len(fig.data) - 1)] *)
Definition record_trace (girder_name : string) : M state unit :=
  s <- get ;;
  l <- lift (sitem (girder_traces s) girder_name) ;;
  modify (set_girder_traces
            (sset (girder_traces s) girder_name
                  (l ++ [(List.length (fig_data s) - 1)%nat]))).

(** ** Centerlines (lines 155-178); no [try] around this loop *)

Definition centerline_body (nodes : nodes_t) (m : Z * (Z * Z)) : M state unit :=
  let '(eid, (ni, nj)) := m in
  '(x1, y1, z1) <- lift (zitem nodes ni) ;;
  '(x2, y2, z2) <- lift (zitem nodes nj) ;;
  let girder_name := girder_of eid in
  add_trace (Scatter3d
    {| sx := [x1; x2]; sy := [y1; y2]; sz := [z1; z2];
       line_color := "rgba(20, 20, 20, 1.0)"; line_width := float_of_Z 6;
       s_name := girder_name; s_showlegend := false |}) ;;;
  record_trace girder_name.

(** ** The ribbon of one element (lines 203-225) *)

Definition lerp (a b t : float) : float := (a + t * (b - a))%float.

(** [i / segments] on Python ints: the quotient rounded once, which for
    ints below [2^53] (as every segment count that can be iterated is) is
    the quotient of the two ints as floats. *)
Definition true_div (i n : Z) : result float :=
  if n =? 0 then Raise ZeroDivisionError
  else Ok (float_of_Z i / float_of_Z n)%float.

Record arrays : Type := {
  X : list float;
  Y : list float;
  Z_ : list float;
  C : list float
}.

Definition no_arrays : arrays := {| X := []; Y := []; Z_ := []; C := [] |}.

(** One iteration of [for i in range(segments + 1)]. *)
Definition vertex_step (c1 c2 : coord) (v_i v_j scale : float) (segments : Z)
    (acc : arrays) (i : Z) : result arrays :=
  let '(x1, y1, z1) := c1 in
  let '(x2, y2, z2) := c2 in
  match true_div i segments with
  | Raise e => Raise e
  | Ok t =>
      let x := lerp x1 x2 t in
      let y0 := lerp y1 y2 t in
      let z := lerp z1 z2 t in
      let v := lerp v_i v_j t in
      Ok {| X := X acc ++ [x; x];
            Y := Y acc ++ [y0; (y0 + v * scale)%float];
            Z_ := Z_ acc ++ [z; z];
            C := C acc ++ [abs v; abs v] |}
  end.

Fixpoint fold_result {A B} (f : B -> A -> result B) (l : list A) (b : B) : result B :=
  match l with
  | [] => Ok b
  | a :: l' =>
      match f b a with
      | Ok b' => fold_result f l' b'
      | Raise e => Raise e
      end
  end.

Definition mesh_arrays (c1 c2 : coord) (v_i v_j scale : float) (segments : Z)
    : result arrays :=
  fold_result (vertex_step c1 c2 v_i v_j scale segments)
              (range (segments + 1)) no_arrays.

(** One iteration of [for i in range(segments)]. *)
Definition triangle_step (acc : list Z * list Z * list Z) (i : Z)
    : list Z * list Z * list Z :=
  let '(I_, J_, K_) := acc in
  let b := i * 2 in
  (I_ ++ [b; b + 1], J_ ++ [b + 1; b + 3], K_ ++ [b + 2; b + 2]).

Definition triangles (segments : Z) : list Z * list Z * list Z :=
  fold_left triangle_step (range segments) ([], [], []).

Definition edge (xs ys zs : list float) (width : float) (girder_name : string)
    : trace :=
  Scatter3d {| sx := xs; sy := ys; sz := zs;
               line_color := "rgba(0, 0, 0, 0.9)"; line_width := width;
               s_name := girder_name; s_showlegend := false |}.

(** ** Surfaces with boundary edges (lines 191-333) *)

(** The body of the [try] block. *)
Definition surface_try (nodes : nodes_t) (ds : dataset) (comp_i comp_j : string)
    (scale : float) (all_values : list float) (segments : Z)
    (eid ni nj : Z) (girder_name : string) : M state unit :=
  c1 <- lift (zitem nodes ni) ;;
  c2 <- lift (zitem nodes nj) ;;
  let '(x1, y1, z1) := c1 in
  let '(x2, y2, z2) := c2 in
  v_i <- lift (sel ds eid comp_i) ;;
  v_j <- lift (sel ds eid comp_j) ;;
  a <- lift (mesh_arrays c1 c2 v_i v_j scale segments) ;;
  let '(I_, J_, K_) := triangles segments in
  s <- get ;;
  let show_in_legend :=
    negb (existsb (String.eqb girder_name) (shown_in_legend s)) in
  (if show_in_legend
   then modify (set_shown_in_legend (shown_in_legend s ++ [girder_name]))
   else ret tt) ;;;
  lo <- lift (py_min all_values) ;;
  hi <- lift (py_max all_values) ;;
  add_trace (Mesh3d
    {| mx := X a; my := Y a; mz := Z_ a;
       mi := I_; mj := J_; mk := K_;
       intensity := C a; cmin := lo; cmax := hi;
       m_name := girder_name; m_showlegend := show_in_legend;
       showscale := (element_count s =? 0)%nat;
       hover_element := eid; hover_nodes := (ni, nj);
       hover_values := (v_i, v_j) |}) ;;;
  record_trace girder_name ;;;
  add_trace (edge [x1; x1] [y1; (y1 + v_i * scale)%float] [z1; z1]
                  (float_of_Z 4) girder_name) ;;;
  record_trace girder_name ;;;
  add_trace (edge [x2; x2] [y2; (y2 + v_j * scale)%float] [z2; z2]
                  (float_of_Z 2) girder_name) ;;;
  record_trace girder_name ;;;
  add_trace (edge [x1; x2] [(y1 + v_i * scale)%float; (y2 + v_j * scale)%float] [z1; z2]
                  f1_5 girder_name) ;;;
  record_trace girder_name ;;;
  modify (fun s => set_element_count (element_count s + 1)%nat s).

Definition skip_warning (eid : Z) (e : exn) : message :=
  [PStr " Warning: Could not process element "; PInt eid; PStr ": "; PExn e].

(** One iteration of the loop: [try: ... except Exception as e: print; continue]. *)
Definition surface_body (nodes : nodes_t) (ds : dataset) (comp_i comp_j : string)
    (scale : float) (all_values : list float) (segments : Z)
    (m : Z * (Z * Z)) : M state unit :=
  let '(eid, (ni, nj)) := m in
  let girder_name := girder_of eid in
  try_except
    (surface_try nodes ds comp_i comp_j scale all_values segments
                 eid ni nj girder_name)
    (fun e => print (skip_warning eid e)).

(** ** Visibility buttons (lines 415-448) *)

(** [for idx in indices: visibility[idx] = True] *)
Definition mark_visible (indices : list nat) (visibility : list bool)
    : result (list bool) :=
  fold_result (fun vis idx => list_assign vis idx true) indices visibility.

Definition girder_button (traces : sdict (list nat)) (total_traces : nat)
    (buttons : list button) (girder_name : string) : result (list button) :=
  match sget traces girder_name with
  | Some indices =>
      match mark_visible indices (repeat false total_traces) with
      | Ok visibility =>
          Ok (buttons ++ [{| label := girder_name; visible := visibility |}])
      | Raise e => Raise e
      end
  | None => Ok buttons
  end.

Definition girder_names : list string :=
  ["Girder 1"; "Girder 2"; "Girder 3"; "Girder 4"; "Girder 5"].

Definition transverse_button (traces : sdict (list nat)) (total_traces : nat)
    (buttons : list button) : result (list button) :=
  match sget traces other_elements with
  | Some (idx :: rest) =>
      match mark_visible (idx :: rest) (repeat false total_traces) with
      | Ok visibility =>
          Ok (buttons ++ [{| label := "Transverse Only"; visible := visibility |}])
      | Raise e => Raise e
      end
  | _ => Ok buttons
  end.

Definition make_buttons (traces : sdict (list nat)) (total_traces : nat)
    : result (list button) :=
  let buttons :=
    [{| label := "All Girders"; visible := repeat true total_traces |}] in
  match fold_result (girder_button traces total_traces) girder_names buttons with
  | Ok buttons => transverse_button traces total_traces buttons
  | Raise e => Raise e
  end.

Definition add_buttons : M state unit :=
  s <- get ;;
  buttons <- lift (make_buttons (girder_traces s) (List.length (fig_data s))) ;;
  modify (set_updatemenus buttons).

(** ** The builder *)

Definition all_values_of (members : members_t) (ds : dataset)
    (result_type : string) : list float :=
  let '(comp_i, comp_j) := components result_type in
  collect_values ds comp_i comp_j members.

Definition scale_factor (members : members_t) (ds : dataset)
    (result_type : string) : float :=
  scale_of result_type (max_val_of (all_values_of members ds result_type)).

Definition surfaces (nodes : nodes_t) (members : members_t) (ds : dataset)
    (result_type : string) (segments : Z) : M state unit :=
  let '(comp_i, comp_j) := components result_type in
  for_each
    (surface_body nodes ds comp_i comp_j
       (scale_factor members ds result_type)
       (all_values_of members ds result_type) segments)
    members.

Definition build (nodes : nodes_t) (members : members_t) (ds : dataset)
    (result_type : string) (segments : Z) : M state unit :=
  for_each (centerline_body nodes) members ;;;
  surfaces nodes members ds result_type segments ;;;
  add_buttons.

(** The final state holds the returned figure ([fig_data], [updatemenus])
    when the result is [Ok]; a [Raise] is an exception leaving the function. *)
Definition create_enhanced_3d_diagram (nodes : nodes_t) (members : members_t)
    (ds : dataset) (result_type : string) (segments : Z) : result unit * state :=
  build nodes members ds result_type segments initial.

End Task2.


(* ================================================================= *)
(** * Specification-side vocabulary for TASK_1.py

    What the claims on the 2D script talk about: chains given with the data
    the script reads for each element, the warnings a chain deserves, and the
    profile it should produce. *)

Module Task1Spec.
Import Task1.

(** An element id with its node pair [(node_i, node_j)]. *)
Definition link : Type := (Z * (Z * Z))%type.

Definition in_members (members : members_t) (l : link) : Prop :=
  zget members (fst l) = Some (snd l).

(** For every pair of consecutive elements whose second and first nodes
    differ, the id of the later element. *)
Fixpoint mismatches (links : list link) : list Z :=
  match links with
  | [] => []
  | p :: rest =>
      match rest with
      | [] => []
      | r :: _ => if snd (snd p) =? fst (snd r) then [] else [fst r]
      end ++ mismatches rest
  end.

(** An element of the chain with everything the script reads for it. *)
Record row : Type := {
  eid : Z;
  node_i : Z;
  node_j : Z;
  coord_i : coord;
  coord_j : coord;
  mz_i : float;
  mz_j : float;
  vy_i : float;
  vy_j : float
}.

Definition link_of (r : row) : link := (eid r, (node_i r, node_j r)).

Definition geometry_resolves (nodes : nodes_t) (members : members_t) (r : row) : Prop :=
  zget members (eid r) = Some (node_i r, node_j r) /\
  zget nodes (node_i r) = Some (coord_i r) /\
  zget nodes (node_j r) = Some (coord_j r).

Definition forces_resolve (ds : dataset) (r : row) : Prop :=
  sel ds (eid r) "Mz_i" = Ok (mz_i r) /\
  sel ds (eid r) "Mz_j" = Ok (mz_j r) /\
  sel ds (eid r) "Vy_i" = Ok (vy_i r) /\
  sel ds (eid r) "Vy_j" = Ok (vy_j r).

Definition resolves (nodes : nodes_t) (members : members_t) (ds : dataset)
    (r : row) : Prop :=
  geometry_resolves nodes members r /\ forces_resolve ds r.

Definition pos_i (r : row) : float := fst (fst (coord_i r)).
Definition pos_j (r : row) : float := fst (fst (coord_j r)).

(** Both endpoints of the first element, then the second endpoint of every
    later element. *)
Definition profile (at_i at_j : row -> float) (rows : list row) : list float :=
  match rows with
  | [] => []
  | r :: rest => at_i r :: at_j r :: map at_j rest
  end.

(** One of the four reads of lines 68-71 raises. *)
Definition component_missing (ds : dataset) (ele : Z) : Prop :=
  exists c, In c ["Mz_i"; "Mz_j"; "Vy_i"; "Vy_j"] /\ is_ok (sel ds ele c) = false.

(** State transformers used to describe what a run leaves behind. *)
Definition log (ms : list message) (s : state) : state :=
  {| positions := positions s; bending_moments := bending_moments s;
     shear_forces := shear_forces s; console := console s ++ ms |}.

Definition emit (ps ms vs : list float) (s : state) : state :=
  {| positions := positions s ++ ps;
     bending_moments := bending_moments s ++ ms;
     shear_forces := shear_forces s ++ vs;
     console := console s |}.

(** Earlier console output [p] put in front. *)
Definition log_front (p : list message) (s : state) : state :=
  {| positions := positions s; bending_moments := bending_moments s;
     shear_forces := shear_forces s; console := p ++ console s |}.

(** A computation that only ever appends to the console. *)
Definition framed {A} (m : M state A) : Prop :=
  forall p s, m (log_front p s) = (fst (m s), log_front p (snd (m s))).

(** The four-element chain used as a running example. *)
Definition chain_nodes : nodes_t :=
  [ (3, (float_of_Z 0, float_of_Z 0, float_of_Z 0));
    (13, (float_of_Z 5, float_of_Z 0, float_of_Z 0));
    (18, (float_of_Z 10, float_of_Z 0, float_of_Z 0));
    (23, (float_of_Z 15, float_of_Z 0, float_of_Z 0));
    (28, (float_of_Z 20, float_of_Z 0, float_of_Z 0)) ].

Definition chain_members : members_t :=
  [ (15, (3, 13)); (24, (13, 18)); (33, (18, 23)); (42, (23, 28)) ].

Definition chain_ids : list Z := [15; 24; 33; 42].

Definition chain_ds : dataset :=
  {| Element := [15; 24; 33; 42];
     Component := ["Mz_i"; "Mz_j"; "Vy_i"; "Vy_j"];
     values := fun e c => float_of_Z e |}.

Definition chain_row (e ni nj xi xj : Z) : row :=
  {| eid := e; node_i := ni; node_j := nj;
     coord_i := (float_of_Z xi, float_of_Z 0, float_of_Z 0);
     coord_j := (float_of_Z xj, float_of_Z 0, float_of_Z 0);
     mz_i := float_of_Z e; mz_j := float_of_Z e;
     vy_i := float_of_Z e; vy_j := float_of_Z e |}.

Definition chain_rows : list row :=
  [ chain_row 15 3 13 0 5; chain_row 24 13 18 5 10;
    chain_row 33 18 23 10 15; chain_row 42 23 28 15 20 ].

(** The same dataset without the component [Vy_j]. *)
Definition chain_ds_no_vy_j : dataset :=
  {| Element := [15; 24; 33; 42];
     Component := ["Mz_i"; "Mz_j"; "Vy_i"];
     values := fun e c => float_of_Z e |}.

(** A chain broken between its two elements. *)
Definition broken_members : members_t := [ (15, (3, 13)); (24, (18, 23)) ].
Definition broken_links : list link := [ (15, (3, 13)); (24, (18, 23)) ].

End Task1Spec.


(* ================================================================= *)
(** * Specification-side vocabulary for 3D_task_2.py

    The definitions of this module are not translations of source lines:
    they describe the builder's loops as functions on states and traces
    ([centerlines], [element_ribbon], [ribbon_traces], [surface_pure]), give
    the vertex and triangle loops in closed form, and name what the claims
    talk about.  The modules [Task2Loops], [Task2Builder] and [Task2Mesh]
    prove that the builder of [Task2] computes exactly these. *)

Module Task2Spec.
Import Task2.

Definition member : Type := (Z * (Z * Z))%type.

(** The keys of [girder_traces]. *)
Definition group_names : list string := girder_names ++ [other_elements].

Definition traces_of (s : state) (g : string) : list nat :=
  match sget (girder_traces s) g with
  | Some l => l
  | None => []
  end.

(** The state after [fig.add_trace(t)] and the [append] that follows it. *)
Definition push (t : trace) (s : state) : state :=
  set_girder_traces
    (sset (girder_traces s) (trace_name t)
          (traces_of s (trace_name t) ++ [List.length (fig_data s)]))
    (set_fig_data (fun d => d ++ [t]) s).

Definition pushes (ts : list trace) (s : state) : state :=
  fold_left (fun s t => push t s) ts s.

(** Every trace index is recorded once, under the name of its trace. *)
Definition partitioned (s : state) : Prop :=
  map fst (girder_traces s) = group_names /\
  Permutation (List.concat (map snd (girder_traces s)))
              (seq 0 (List.length (fig_data s))) /\
  (forall g idx, In idx (traces_of s g) ->
     exists t, nth_error (fig_data s) idx = Some t /\ trace_name t = g).

(** *** Centerlines *)

Definition centerline (girder_name : string) (c1 c2 : coord) : trace :=
  let '(x1, y1, z1) := c1 in
  let '(x2, y2, z2) := c2 in
  Scatter3d
    {| sx := [x1; x2]; sy := [y1; y2]; sz := [z1; z2];
       line_color := "rgba(20, 20, 20, 1.0)"; line_width := float_of_Z 6;
       s_name := girder_name; s_showlegend := false |}.

(** The centerlines drawn before the first bad node reference, and that
    reference's exception. *)
Fixpoint centerlines (nodes : nodes_t) (l : list member) : list trace * option exn :=
  match l with
  | [] => ([], None)
  | (eid, (ni, nj)) :: l' =>
      match zitem nodes ni with
      | Raise e => ([], Some e)
      | Ok c1 =>
          match zitem nodes nj with
          | Raise e => ([], Some e)
          | Ok c2 =>
              let '(ts, r) := centerlines nodes l' in
              (centerline (girder_of eid) c1 c2 :: ts, r)
          end
      end
  end.

Definition outcome (r : option exn) : result unit :=
  match r with
  | None => Ok tt
  | Some e => Raise e
  end.

(** *** Ribbons *)

Record ribbon : Type := {
  r_c1 : coord;
  r_c2 : coord;
  r_vi : float;
  r_vj : float;
  r_arrays : arrays
}.

(** The reads and the vertex loop of one element, without the figure. *)
Definition element_ribbon (nodes : nodes_t) (ds : dataset) (comp_i comp_j : string)
    (scale : float) (segments : Z) (m : member) : result ribbon :=
  let '(eid, (ni, nj)) := m in
  match zitem nodes ni with
  | Raise e => Raise e
  | Ok c1 =>
  match zitem nodes nj with
  | Raise e => Raise e
  | Ok c2 =>
  match sel ds eid comp_i with
  | Raise e => Raise e
  | Ok v_i =>
  match sel ds eid comp_j with
  | Raise e => Raise e
  | Ok v_j =>
  match mesh_arrays c1 c2 v_i v_j scale segments with
  | Raise e => Raise e
  | Ok a => Ok {| r_c1 := c1; r_c2 := c2; r_vi := v_i; r_vj := v_j; r_arrays := a |}
  end end end end end.

Definition lowest (all_values : list float) : float :=
  match py_min all_values with Ok v => v | Raise _ => f0 end.

Definition highest (all_values : list float) : float :=
  match py_max all_values with Ok v => v | Raise _ => f0 end.

(** The mesh and the three boundary edges of one element. *)
Definition ribbon_traces (m : member) (r : ribbon) (scale : float)
    (all_values : list float) (segments : Z)
    (show_in_legend first : bool) : list trace :=
  let '(eid, (ni, nj)) := m in
  let girder_name := girder_of eid in
  let '(x1, y1, z1) := r_c1 r in
  let '(x2, y2, z2) := r_c2 r in
  let v_i := r_vi r in
  let v_j := r_vj r in
  let a := r_arrays r in
  [ Mesh3d
      {| mx := X a; my := Y a; mz := Z_ a;
         mi := fst (fst (triangles segments));
         mj := snd (fst (triangles segments));
         mk := snd (triangles segments);
         intensity := C a;
         cmin := lowest all_values; cmax := highest all_values;
         m_name := girder_name; m_showlegend := show_in_legend;
         showscale := first;
         hover_element := eid; hover_nodes := (ni, nj);
         hover_values := (v_i, v_j) |};
    edge [x1; x1] [y1; (y1 + v_i * scale)%float] [z1; z1] (float_of_Z 4) girder_name;
    edge [x2; x2] [y2; (y2 + v_j * scale)%float] [z2; z2] (float_of_Z 2) girder_name;
    edge [x1; x2] [(y1 + v_i * scale)%float; (y2 + v_j * scale)%float] [z1; z2]
         f1_5 girder_name ].

(** One iteration of the surface loop as a function on states. *)
Definition surface_pure (nodes : nodes_t) (ds : dataset) (comp_i comp_j : string)
    (scale : float) (all_values : list float) (segments : Z)
    (s : state) (m : member) : state :=
  match element_ribbon nodes ds comp_i comp_j scale segments m with
  | Raise e => set_console (console s ++ [skip_warning (fst m) e]) s
  | Ok r =>
      let girder_name := girder_of (fst m) in
      let show_in_legend :=
        negb (existsb (String.eqb girder_name) (shown_in_legend s)) in
      let s1 := if show_in_legend
                then set_shown_in_legend (shown_in_legend s ++ [girder_name]) s
                else s in
      let s2 := pushes (ribbon_traces m r scale all_values segments show_in_legend
                                      (element_count s =? 0)%nat) s1 in
      set_element_count (element_count s2 + 1)%nat s2
  end.

(** *** Buttons *)

(** The visibility list that is [True] exactly at [indices]. *)
Definition visible_at (total : nat) (indices : list nat) : list bool :=
  map (fun i => existsb (Nat.eqb i) indices) (seq 0 total).

Definition group_button (s : state) (g : string) : button :=
  {| label := g; visible := visible_at (List.length (fig_data s)) (traces_of s g) |}.

Definition transverse_buttons (s : state) : list button :=
  match traces_of s other_elements with
  | [] => []
  | indices =>
      [{| label := "Transverse Only";
          visible := visible_at (List.length (fig_data s)) indices |}]
  end.

Definition all_buttons (s : state) : list button :=
  {| label := "All Girders"; visible := repeat true (List.length (fig_data s)) |}
  :: map (group_button s) girder_names ++ transverse_buttons s.

(** *** The values collected for the scale *)

Definition end_values (ds : dataset) (comp_i comp_j : string) (m : member) : list float :=
  match sel ds (fst m) comp_i, sel ds (fst m) comp_j with
  | Ok v_i, Ok v_j => [abs v_i; abs v_j]
  | _, _ => []
  end.

(** *** The whole builder *)

Definition after_surfaces (nodes : nodes_t) (members : members_t) (ds : dataset)
    (result_type : string) (segments : Z) (s : state) : state :=
  fold_left
    (surface_pure nodes ds (fst (components result_type)) (snd (components result_type))
       (scale_factor members ds result_type)
       (all_values_of members ds result_type) segments)
    members s.

(** The girder of the table that lists an element, or ['Other Elements']. *)
Definition owns (eid : Z) (g : string * girder_info) : bool :=
  existsb (fun x => x =? eid) (elements (snd g)).

Definition owner (eid : Z) : string :=
  match filter (owns eid) girders with
  | [] => other_elements
  | g :: _ => fst g
  end.

(** *** The vertex and triangle loops in closed form *)

(** The parameter of step [i]. *)
Definition t_of (segments i : Z) : float :=
  (float_of_Z i / float_of_Z segments)%float.

Definition append_arrays (a b : arrays) : arrays :=
  {| X := X a ++ X b; Y := Y a ++ Y b; Z_ := Z_ a ++ Z_ b; C := C a ++ C b |}.

Definition step_arrays (c1 c2 : coord) (v_i v_j scale : float) (segments : Z)
    (steps : list Z) : arrays :=
  let '(x1, y1, z1) := c1 in
  let '(x2, y2, z2) := c2 in
  {| X := flat_map (fun i => let x := lerp x1 x2 (t_of segments i) in [x; x]) steps;
     Y := flat_map (fun i =>
                      let y0 := lerp y1 y2 (t_of segments i) in
                      let v := lerp v_i v_j (t_of segments i) in
                      [y0; (y0 + v * scale)%float]) steps;
     Z_ := flat_map (fun i => let z := lerp z1 z2 (t_of segments i) in [z; z]) steps;
     C := flat_map (fun i =>
                      let v := lerp v_i v_j (t_of segments i) in
                      [abs v; abs v]) steps |}.

(** The arrays built by [for i in range(segments + 1)]. *)
Definition ribbon_arrays (c1 c2 : coord) (v_i v_j scale : float) (segments : Z)
    : arrays :=
  step_arrays c1 c2 v_i v_j scale segments (range (segments + 1)).

(** Two triangles per segment: [(b, b+1, b+2)] and [(b+1, b+3, b+2)] with
    [b = 2 i]; they share the edge [(b+1, b+2)]. *)
Definition strip_triangles (segments : Z) : list Z * list Z * list Z :=
  (flat_map (fun i => [i * 2; i * 2 + 1]) (range segments),
   flat_map (fun i => [i * 2 + 1; i * 2 + 3]) (range segments),
   flat_map (fun i => [i * 2 + 2; i * 2 + 2]) (range segments)).

(** What the claim on mesh sizes says of one mesh. *)
Definition strip_mesh (segments : Z) (m : mesh3d) : Prop :=
  Z.of_nat (List.length (mx m)) = 2 * (segments + 1) /\
  Z.of_nat (List.length (my m)) = 2 * (segments + 1) /\
  Z.of_nat (List.length (mz m)) = 2 * (segments + 1) /\
  Z.of_nat (List.length (intensity m)) = 2 * (segments + 1) /\
  Z.of_nat (List.length (mi m)) = 2 * segments /\
  Z.of_nat (List.length (mj m)) = 2 * segments /\
  Z.of_nat (List.length (mk m)) = 2 * segments /\
  (mi m, mj m, mk m) = strip_triangles segments /\
  Forall (fun idx => 0 <= idx < 2 * (segments + 1)) (mi m ++ mj m ++ mk m).

(** *** Comparing two runs *)

(** [ds2] is [ds1] without the force record of element [e]. *)
Definition missing_in (e : Z) (ds1 ds2 : dataset) : Prop :=
  (forall c, is_ok (sel ds2 e c) = false) /\
  (forall e' c, e' <> e -> sel ds2 e' c = sel ds1 e' c).

(** A trace without its legend and colour-bar flags, which depend on the
    elements processed before it. *)
Definition unflag (t : trace) : trace :=
  match t with
  | Scatter3d s => Scatter3d s
  | Mesh3d m =>
      Mesh3d {| mx := mx m; my := my m; mz := mz m;
                mi := mi m; mj := mj m; mk := mk m;
                intensity := intensity m; cmin := cmin m; cmax := cmax m;
                m_name := m_name m; m_showlegend := false; showscale := false;
                hover_element := hover_element m; hover_nodes := hover_nodes m;
                hover_values := hover_values m |}
  end.

Definition trace_x (t : trace) : list float :=
  match t with Scatter3d s => sx s | Mesh3d m => mx m end.
Definition trace_y (t : trace) : list float :=
  match t with Scatter3d s => sy s | Mesh3d m => my m end.
Definition trace_z (t : trace) : list float :=
  match t with Scatter3d s => sz s | Mesh3d m => mz m end.
Definition trace_intensity (t : trace) : list float :=
  match t with Scatter3d s => [] | Mesh3d m => intensity m end.
Definition trace_triangles (t : trace) : list Z * list Z * list Z :=
  match t with Scatter3d s => ([], [], []) | Mesh3d m => (mi m, mj m, mk m) end.

Fixpoint evens {A} (l : list A) : list A :=
  match l with
  | a :: _ :: l' => a :: evens l'
  | _ => l
  end.

(** The transverse coordinates of a mesh's undisplaced vertices (the even
    positions of its y array). *)
Definition baseline (t : trace) : list float :=
  match t with Scatter3d s => [] | Mesh3d m => evens (my m) end.

(** What does not depend on the scale: x, z, the undisplaced y of a mesh,
    intensities, triangles. *)
Definition undisplaced (t : trace)
    : list float * list float * list float * list float
      * (list Z * list Z * list Z) :=
  (trace_x t, baseline t, trace_z t, trace_intensity t, trace_triangles t).

(** The transverse coordinates, baseline and displaced alike. *)
Definition displaced (t : trace) : list float := trace_y t.

(** The traces the surface loop adds for one member, flags aside. *)
Definition element_group (nodes : nodes_t) (members : members_t) (ds : dataset)
    (result_type : string) (segments : Z) (m : member) : list trace :=
  match element_ribbon nodes ds (fst (components result_type))
                       (snd (components result_type))
                       (scale_factor members ds result_type) segments m with
  | Ok r => ribbon_traces m r (scale_factor members ds result_type)
                          (all_values_of members ds result_type) segments
                          false false
  | Raise _ => []
  end.

Definition mesh_at (fig : list trace) (i : nat) : option mesh3d :=
  match nth_error fig i with
  | Some (Mesh3d m) => Some m
  | _ => None
  end.

(** *** Example inputs *)

(** Element 13 belongs to Girder 1; element 101 is a transverse member. *)
Definition ex_nodes : nodes_t :=
  [ (1, (float_of_Z 0, float_of_Z 0, float_of_Z 0));
    (11, (float_of_Z 5, float_of_Z 0, float_of_Z 0));
    (2, (float_of_Z 0, float_of_Z 2, float_of_Z 0)) ].

Definition ex_members : members_t := [ (13, (1, 11)); (101, (1, 2)) ].

Definition ex_components : list string := ["Mz_i"; "Mz_j"; "Vy_i"; "Vy_j"].

(** End values 10 on element 13 and 1 on element 101. *)
Definition ex_values (e : Z) (c : string) : float :=
  if e =? 13 then float_of_Z 10 else float_of_Z 1.

Definition ex_ds : dataset :=
  {| Element := [13; 101]; Component := ex_components; values := ex_values |}.

(** The same dataset without the record of element 13. *)
Definition ex_ds_without_13 : dataset :=
  {| Element := [101]; Component := ex_components; values := ex_values |}.

(** A dataset whose values are all zero. *)
Definition ex_ds_zero : dataset :=
  {| Element := [13; 101]; Component := ex_components;
     values := fun _ _ => f0 |}.



(** A model with girder elements only. *)
Definition ex_girder_only : members_t := [ (13, (1, 11)) ].

(** Element 101 refers to node 99, which does not exist. *)
Definition ex_bad_members : members_t := [ (13, (1, 11)); (101, (1, 99)) ].

End Task2Spec.


(* ================================================================= *)
(** * 3D_task_2.py: [main] *)

Module Task2Main.
Import Task2.

Definition figure : Type := (list trace * list button)%type.

(** What [main] leaves behind: console output and the documents written by
    [write_html], in order.  The three input files are given by whether
    they exist and by what the builder loads from them. *)
Record main_state : Type := {
  main_console : list message;
  written : list (string * figure)
}.

Definition main_initial : main_state := {| main_console := []; written := [] |}.

Definition nc_file : string := "./screening_task.nc".
Definition node_file : string := "./node.py".
Definition element_file : string := "./element.py".

Definition file_not_found (f : string) : message :=
  [PStr " Error: File not found: "; PStr f].

Definition main_print (ms : list message) : M main_state unit :=
  modify (fun s => {| main_console := main_console s ++ ms; written := written s |}).

(** [fig.write_html(name)] *)
Definition write_html (name : string) (fig : figure) : M main_state unit :=
  modify (fun s => {| main_console := main_console s;
                      written := written s ++ [(name, fig)] |}).

(** A call of the builder: its console output is the caller's, its
    exception propagates. *)
Definition call_builder (nodes : nodes_t) (members : members_t) (ds : dataset)
    (result_type : string) (segments : Z) : M main_state figure :=
  let out := create_enhanced_3d_diagram nodes members ds result_type segments in
  main_print (console (snd out)) ;;;
  match fst out with
  | Ok _ => ret (fig_data (snd out), updatemenus (snd out))
  | Raise e => raise e
  end.

(** Lines 475-519. *)
Definition main (file_exists : string -> bool) (nodes : nodes_t)
    (members : members_t) (ds : dataset) : M main_state unit :=
  match find (fun f => negb (file_exists f)) [nc_file; node_file; element_file] with
  | Some f => main_print [file_not_found f]
  | None =>
      bmd_fig <- call_builder nodes members ds "BMD" 50 ;;
      write_html "Enhanced_BMD_3D.html" bmd_fig ;;;
      sfd_fig <- call_builder nodes members ds "SFD" 50 ;;
      write_html "Enhanced_SFD_3D.html" sfd_fig
  end.

End Task2Main.

(* ================================================================= *)
(** * Further vocabulary *)

Module Task1More.
Import Task1 Task1Spec.

(** Every element starts at the node where the one before it ends. *)
Fixpoint connected (links : list link) : Prop :=
  match links with
  | [] => True
  | p :: rest =>
      match rest with
      | [] => True
      | r :: _ => snd (snd p) = fst (snd r)
      end /\ connected rest
  end.

(** The first of an element's two nodes that the node table lacks. *)
Definition node_missing (nodes : nodes_t) (l : link) : option Z :=
  match zget nodes (fst (snd l)) with
  | None => Some (fst (snd l))
  | Some _ =>
      match zget nodes (snd (snd l)) with
      | None => Some (snd (snd l))
      | Some _ => None
      end
  end.

(** The three output sequences. *)
Definition outputs (s : state) : list float * list float * list float :=
  (positions s, bending_moments s, shear_forces s).

(** The example chain with other first-end values on every element after
    the first. *)
Definition is_first_end (c : string) : bool :=
  String.eqb c "Mz_i" || String.eqb c "Vy_i".

Definition chain_ds_other_i : dataset :=
  {| Element := [15; 24; 33; 42];
     Component := ["Mz_i"; "Mz_j"; "Vy_i"; "Vy_j"];
     values := fun e c =>
       if is_first_end c && negb (e =? 15) then float_of_Z 0 else float_of_Z e |}.

Definition other_i (r : row) : row :=
  {| eid := eid r; node_i := node_i r; node_j := node_j r;
     coord_i := coord_i r; coord_j := coord_j r;
     mz_i := if eid r =? 15 then mz_i r else float_of_Z 0;
     mz_j := mz_j r;
     vy_i := if eid r =? 15 then vy_i r else float_of_Z 0;
     vy_j := vy_j r |}.

(** A member table whose second element ends at a node that does not
    exist. *)
Definition dangling_members : members_t := [ (15, (3, 13)); (24, (13, 99)) ].

End Task1More.

Module Task2More.
Import Task2 Task2Spec.

(** The meshes of a figure, in figure order. *)
Fixpoint meshes (fig : list trace) : list mesh3d :=
  match fig with
  | [] => []
  | Mesh3d m :: fig' => m :: meshes fig'
  | Scatter3d _ :: fig' => meshes fig'
  end.

Definition is_scatter (t : trace) : bool :=
  match t with Scatter3d _ => true | Mesh3d _ => false end.

(** Both nodes of a member are in the node table. *)
Definition nodes_resolve (nodes : nodes_t) (m : member) : bool :=
  match zget nodes (fst (snd m)), zget nodes (snd (snd m)) with
  | Some _, Some _ => true
  | _, _ => false
  end.

(** The first node id of a member that is not in the node table. *)
Definition missing_node (nodes : nodes_t) (m : member) : option Z :=
  match zget nodes (fst (snd m)) with
  | None => Some (fst (snd m))
  | Some _ =>
      match zget nodes (snd (snd m)) with
      | None => Some (snd (snd m))
      | Some _ => None
      end
  end.

(** Why the surface loop skips an element whose nodes resolve: a failed
    read, or the division by a zero segment count. *)
Definition skip_reason (ds : dataset) (comp_i comp_j : string) (segments : Z)
    (eid : Z) : option exn :=
  match sel ds eid comp_i with
  | Raise e => Some e
  | Ok _ =>
      match sel ds eid comp_j with
      | Raise e => Some e
      | Ok _ => if segments =? 0 then Some ZeroDivisionError else None
      end
  end.

Definition skipped (ds : dataset) (result_type : string) (segments : Z)
    (m : member) : option exn :=
  skip_reason ds (fst (components result_type)) (snd (components result_type))
              segments (fst m).

Definition drawn (ds : dataset) (result_type : string) (segments : Z)
    (m : member) : bool :=
  match skipped ds result_type segments m with
  | None => true
  | Some _ => false
  end.

(** A dataset whose moments are 10 and whose shears are 2, for both
    example elements. *)
Definition ex_ds_both : dataset :=
  {| Element := [13; 101]; Component := ex_components;
     values := fun _ c =>
       if String.eqb c "Mz_i" || String.eqb c "Mz_j"
       then float_of_Z 10 else float_of_Z 2 |}.

(** Both reads of the surface loop succeed for a member. *)
Definition reads_ok (ds : dataset) (result_type : string) (m : member) : bool :=
  is_ok (sel ds (fst m) (fst (components result_type)))
  && is_ok (sel ds (fst m) (snd (components result_type))).

Definition warning_of (ds : dataset) (result_type : string) (segments : Z)
    (m : member) : list message :=
  match skipped ds result_type segments m with
  | None => []
  | Some e => [skip_warning (fst m) e]
  end.

(** The three boundary edges of a mesh: two vertical lines at the nodes of
    its member, from the node to the node displaced by the end value times
    the scale, and the line between the two displaced points; widths 4, 2
    and 1.5, all under the mesh's name. *)
Definition edges_of (nodes : nodes_t) (scale : float) (mesh : mesh3d)
    (e1 e2 e3 : scatter3d) : Prop :=
  exists x1 y1 z1 x2 y2 z2 : float,
    zget nodes (fst (hover_nodes mesh)) = Some (x1, y1, z1) /\
    zget nodes (snd (hover_nodes mesh)) = Some (x2, y2, z2) /\
    let top1 := (y1 + fst (hover_values mesh) * scale)%float in
    let top2 := (y2 + snd (hover_values mesh) * scale)%float in
    (sx e1, sy e1, sz e1) = ([x1; x1], [y1; top1], [z1; z1]) /\
    (sx e2, sy e2, sz e2) = ([x2; x2], [y2; top2], [z2; z2]) /\
    (sx e3, sy e3, sz e3) = ([x1; x2], [top1; top2], [z1; z2]) /\
    map line_width [e1; e2; e3] = [4; 2; 1.5]%float /\
    map line_color [e1; e2; e3]
    = ["rgba(0, 0, 0, 0.9)"; "rgba(0, 0, 0, 0.9)"; "rgba(0, 0, 0, 0.9)"] /\
    map s_name [e1; e2; e3] = [m_name mesh; m_name mesh; m_name mesh].

Definition edges_follow (nodes : nodes_t) (scale : float) (fig : list trace) : Prop :=
  forall k mesh,
    nth_error fig k = Some (Mesh3d mesh) ->
    exists e1 e2 e3,
      nth_error fig (k + 1) = Some (Scatter3d e1) /\
      nth_error fig (k + 2) = Some (Scatter3d e2) /\
      nth_error fig (k + 3) = Some (Scatter3d e3) /\
      edges_of nodes scale mesh e1 e2 e3.

(** Is trace [i] visible under button [b]? *)
Definition shows (i : nat) (b : button) : bool := nth i (visible b) false.

(** The flags of the meshes drawn so far agree with the loop's two
    pieces of bookkeeping, [shown_in_legend] and [element_count]. *)
Definition flags_ok (s : state) : Prop :=
  let ms := meshes (fig_data s) in
  element_count s = List.length ms /\
  (forall g, existsb (String.eqb g) (shown_in_legend s)
             = existsb (String.eqb g) (map m_name ms)) /\
  (forall i mesh, nth_error ms i = Some mesh ->
     m_showlegend mesh
     = negb (existsb (String.eqb (m_name mesh)) (map m_name (firstn i ms))) /\
     showscale mesh = (i =? 0)%nat).

(** A dataset that holds every element, with all values 1. *)
Definition ex_ds_three : dataset :=
  {| Element := [13; 22; 101]; Component := ex_components;
     values := fun _ _ => f1_0 |}.

(** Does index [i] occur in [l]? *)
Definition has (i : nat) (l : list nat) : bool := existsb (Nat.eqb i) l.

End Task2More.


(* ================================================================= *)
(** * Facts about the monad and the containers *)

Section MonadFacts.
Context {S : Type}.

Lemma bind_ok {A B} (m : M S A) (k : A -> M S B) s a s' :
  m s = (Ok a, s') -> bind m k s = k a s'.
Proof. unfold bind. now intros ->. Qed.

Lemma bind_raise {A B} (m : M S A) (k : A -> M S B) s e s' :
  m s = (Raise e, s') -> bind m k s = (Raise e, s').
Proof. unfold bind. now intros ->. Qed.

Lemma for_each_app {A} (body : A -> M S unit) l1 l2 s s' :
  for_each body l1 s = (Ok tt, s') ->
  for_each body (l1 ++ l2) s = for_each body l2 s'.
Proof.
  revert s. induction l1 as [|a l1 IH]; intros s H; simpl in *.
  - unfold ret in H. now inversion H.
  - unfold bind in *. destruct (body a s) as [[[]|e] s1]; [now apply IH | discriminate].
Qed.
End MonadFacts.

Lemma enumerate_from {A} (l : list A) k :
  combine (seq k (List.length l)) l
  = match l with [] => [] | a :: l' => (k, a) :: combine (seq (Datatypes.S k) (List.length l')) l' end.
Proof. destruct l; reflexivity. Qed.


Lemma enumerate_app {A} (l1 l2 : list A) k :
  combine (seq k (List.length (l1 ++ l2))) (l1 ++ l2)
  = combine (seq k (List.length l1)) l1
    ++ combine (seq (k + List.length l1) (List.length l2)) l2.
Proof.
  revert k. induction l1 as [|a l1 IH]; intros k; simpl.
  - now rewrite Nat.add_0_r.
  - f_equal. rewrite IH. now rewrite Nat.add_succ_r.
Qed.


(* ================================================================= *)
(** * TASK_1.py: continuity check and extraction *)

Module Task1Facts.
Import Task1 Task1Spec.

Lemma log_nil s : log [] s = s.
Proof. destruct s; unfold log; simpl. now rewrite app_nil_r. Qed.

Lemma log_log a b s : log b (log a s) = log (a ++ b) s.
Proof. unfold log; simpl. now rewrite app_assoc. Qed.

Lemma zitem_in members l : in_members members l -> zitem members (fst l) = Ok (snd l).
Proof. unfold in_members, zitem. now intros ->. Qed.

Lemma check_body_first members chain l s :
  in_members members l ->
  check_body members chain (0%nat, fst l) s = (Ok tt, s).
Proof.
  intros H. unfold check_body, bind, lift. rewrite (zitem_in _ _ H).
  destruct (snd l). reflexivity.
Qed.

Lemma check_body_next members (pre : list link) p r rest s :
  in_members members p -> in_members members r ->
  check_body members (map fst (pre ++ p :: r :: rest))
             (Datatypes.S (List.length pre), fst r) s
  = (Ok tt, log (map connectivity_warning
                     (if snd (snd p) =? fst (snd r) then [] else [fst r])) s).
Proof.
  intros Hp Hr. unfold check_body, bind, lift.
  rewrite (zitem_in _ _ Hr). destruct (snd r) as [ni nj] eqn:Er. simpl fst.
  change (0 <? Datatypes.S (List.length pre))%nat with true. cbv iota.
  replace (Datatypes.S (List.length pre) - 1)%nat with (List.length pre) by lia.
  unfold list_item.
  rewrite map_app, nth_error_app2 by (rewrite length_map; lia).
  rewrite length_map, Nat.sub_diag. simpl nth_error.
  cbv iota. rewrite (zitem_in _ _ Hp). destruct (snd p) as [pi pj]. simpl snd.
  destruct (pj =? ni) eqn:E.
  - rewrite Z.eqb_sym in E. rewrite E. simpl. now rewrite log_nil.
  - rewrite Z.eqb_sym in E. rewrite E. simpl. reflexivity.
Qed.

Lemma check_rest members (pre : list link) p rest s :
  Forall (in_members members) (p :: rest) ->
  for_each (check_body members (map fst (pre ++ p :: rest)))
           (combine (seq (Datatypes.S (List.length pre)) (List.length (map fst rest)))
                    (map fst rest)) s
  = (Ok tt, log (map connectivity_warning (mismatches (p :: rest))) s).
Proof.
  revert pre p s. induction rest as [|r rest IH]; intros pre p s H.
  - simpl. now rewrite log_nil.
  - inversion H as [|? ? Hp H']; subst. inversion H' as [|? ? Hr H'']; subst.
    cbn [map List.length seq combine for_each].
    erewrite bind_ok by (apply check_body_next; assumption).
    specialize (IH (pre ++ [p]) r).
    rewrite <- app_assoc in IH. simpl app in IH.
    rewrite length_app in IH. simpl List.length in IH.
    replace (List.length pre + 1)%nat with (Datatypes.S (List.length pre)) in IH by lia.
    rewrite IH by assumption.
    rewrite log_log, <- map_app. reflexivity.
Qed.

Lemma continuity_check_spec members (links : list link) s :
  Forall (in_members members) links ->
  continuity_check members (map fst links) s
  = (Ok tt, log (map connectivity_warning (mismatches links)) s).
Proof.
  intros H. unfold continuity_check, enumerate.
  destruct links as [|p rest].
  - simpl. now rewrite log_nil.
  - cbn [map List.length seq combine for_each].
    inversion H; subst.
    erewrite bind_ok by (apply check_body_first; assumption).
    apply (check_rest members [] p rest s H).
Qed.
End Task1Facts.
Module Task1Extraction.
Import Task1 Task1Spec Task1Facts.

Lemma emit_emit a b c a' b' c' s :
  emit a' b' c' (emit a b c s) = emit (a ++ a') (b ++ b') (c ++ c') s.
Proof. unfold emit; simpl. now rewrite !app_assoc. Qed.

Lemma emit_log a b c ms s : emit a b c (log ms s) = log ms (emit a b c s).
Proof. reflexivity. Qed.

Lemma read_forces_ok ds r s :
  forces_resolve ds r ->
  read_forces ds (eid r) s = (Ok (mz_i r, mz_j r, vy_i r, vy_j r), s).
Proof.
  intros (H1 & H2 & H3 & H4).
  unfold read_forces, try_except, bind, lift. now rewrite H1, H2, H3, H4.
Qed.

Lemma sel_raises_KeyError ds e c x : sel ds e c = Raise x -> is_KeyError x = true.
Proof.
  unfold sel. destruct (negb _); [intros [= <-]; reflexivity|].
  destruct (negb _); [intros [= <-]; reflexivity | discriminate].
Qed.

Lemma read_forces_missing ds ele s :
  component_missing ds ele ->
  exists k, read_forces ds ele s
            = (Raise (KeyError k), log [error_reading ele; available_components ds] s).
Proof.
  intros (c & Hc & Hbad).
  assert (R : forall x, is_KeyError x = true ->
              exists k, on_exception ds ele x s
                        = (Raise (KeyError k), log [error_reading ele; available_components ds] s)).
  { intros [k| | |]; try discriminate. intros _. exists k.
    unfold on_exception, bind, print, modify, raise, log. simpl. now rewrite <- app_assoc. }
  unfold read_forces, try_except, bind, lift.
  destruct (sel ds ele "Mz_i") as [a|x] eqn:E1;
    [|apply R; eapply sel_raises_KeyError; eassumption].
  destruct (sel ds ele "Mz_j") as [b|x] eqn:E2;
    [|apply R; eapply sel_raises_KeyError; eassumption].
  destruct (sel ds ele "Vy_i") as [c'|x] eqn:E3;
    [|apply R; eapply sel_raises_KeyError; eassumption].
  destruct (sel ds ele "Vy_j") as [d|x] eqn:E4;
    [|apply R; eapply sel_raises_KeyError; eassumption].
  exfalso. simpl in Hc.
  destruct Hc as [<-|[<-|[<-|[<-|[]]]]];
    [rewrite E1 in Hbad|rewrite E2 in Hbad|rewrite E3 in Hbad|rewrite E4 in Hbad];
    discriminate.
Qed.

Lemma geometry_steps nodes members ds r idx s :
  geometry_resolves nodes members r ->
  extract_body nodes members ds (idx, eid r) s
  = ('(a, b, c, d) <- read_forces ds (eid r) ;;
     if (idx =? 0)%nat then extend3 [pos_i r; pos_j r] [a; b] [c; d]
     else extend3 [pos_j r] [b] [d])%monad s.
Proof.
  intros (Hm & Hi & Hj). unfold extract_body.
  unfold zitem. rewrite Hm. simpl fst. simpl snd.
  unfold bind at 1, lift at 1. unfold bind at 1, lift at 1.
  unfold bind at 1, lift at 1. rewrite Hi. unfold bind at 1, lift at 1. rewrite Hj.
  reflexivity.
Qed.

Lemma extract_body_ok nodes members ds r idx s :
  resolves nodes members ds r ->
  extract_body nodes members ds (idx, eid r) s
  = (Ok tt,
     if (idx =? 0)%nat
     then emit [pos_i r; pos_j r] [mz_i r; mz_j r] [vy_i r; vy_j r] s
     else emit [pos_j r] [mz_j r] [vy_j r] s).
Proof.
  intros [Hg Hf]. rewrite geometry_steps by assumption.
  erewrite bind_ok by (apply read_forces_ok; assumption).
  destruct (idx =? 0)%nat; reflexivity.
Qed.

Lemma extract_body_missing nodes members ds r idx s :
  geometry_resolves nodes members r ->
  component_missing ds (eid r) ->
  exists k, extract_body nodes members ds (idx, eid r) s
            = (Raise (KeyError k),
               log [error_reading (eid r); available_components ds] s).
Proof.
  intros Hg Hbad. rewrite geometry_steps by assumption.
  destruct (read_forces_missing ds (eid r) s Hbad) as [k Hk].
  exists k. now apply bind_raise.
Qed.

Lemma extraction_tail nodes members ds rows k s :
  Forall (resolves nodes members ds) rows ->
  for_each (extract_body nodes members ds)
           (combine (seq (Datatypes.S k) (List.length (map eid rows))) (map eid rows)) s
  = (Ok tt, emit (map pos_j rows) (map mz_j rows) (map vy_j rows) s).
Proof.
  revert k s. induction rows as [|r rows IH]; intros k s H.
  - simpl. unfold ret, emit. destruct s; simpl. now rewrite !app_nil_r.
  - inversion H; subst. cbn [map List.length seq combine for_each].
    erewrite bind_ok by (apply extract_body_ok; assumption).
    change (Datatypes.S k =? 0)%nat with false. cbv iota.
    rewrite IH by assumption. now rewrite emit_emit.
Qed.

Lemma extraction_ok nodes members ds rows s :
  Forall (resolves nodes members ds) rows ->
  extraction nodes members ds (map eid rows) s
  = (Ok tt, emit (profile pos_i pos_j rows) (profile mz_i mz_j rows)
                 (profile vy_i vy_j rows) s).
Proof.
  intros H. unfold extraction, enumerate. destruct rows as [|r rows].
  - simpl. unfold ret, emit. destruct s; simpl. now rewrite !app_nil_r.
  - inversion H; subst. cbn [map List.length seq combine for_each].
    erewrite bind_ok by (apply extract_body_ok; assumption).
    change (0 =? 0)%nat with true. cbv iota.
    rewrite extraction_tail by assumption. now rewrite emit_emit.
Qed.

Lemma profile_length f g rows :
  rows <> [] -> List.length (profile f g rows) = (List.length rows + 1)%nat.
Proof.
  destruct rows as [|r rows]; [congruence|]. intros _. simpl.
  rewrite length_map. lia.
Qed.

Lemma resolves_link nodes members ds r :
  resolves nodes members ds r -> in_members members (link_of r).
Proof. intros [(Hm & _) _]. exact Hm. Qed.

Lemma links_in_members nodes members ds rows :
  Forall (resolves nodes members ds) rows ->
  Forall (in_members members) (map link_of rows).
Proof.
  intros H. apply Forall_map. eapply Forall_impl; [|exact H].
  intros r. apply resolves_link.
Qed.

Lemma map_fst_link_of rows : map fst (map link_of rows) = map eid rows.
Proof. rewrite map_map. reflexivity. Qed.
End Task1Extraction.

Module Task1Frame.
Import Task1 Task1Spec Task1Facts Task1Extraction.

Lemma framed_ret {A} (a : A) : framed (ret a).
Proof. intros p s. reflexivity. Qed.

Lemma framed_lift {A} (r : result A) : framed (lift r).
Proof. intros p s. reflexivity. Qed.

Lemma framed_raise {A} (e : exn) : framed (@raise state A e).
Proof. intros p s. reflexivity. Qed.

Lemma framed_print m : framed (print m).
Proof. intros p s. unfold print, modify, log_front. simpl. now rewrite app_assoc. Qed.

Lemma framed_extend3 a b c : framed (extend3 a b c).
Proof. intros p s. reflexivity. Qed.

Lemma framed_bind {A B} (m : M state A) (k : A -> M state B) :
  framed m -> (forall a, framed (k a)) -> framed (bind m k).
Proof.
  intros Hm Hk p s. unfold bind. rewrite Hm.
  destruct (m s) as [[a|e] s']; simpl; [apply Hk | reflexivity].
Qed.

Lemma framed_try {A} (m : M state A) (h : exn -> M state A) :
  framed m -> (forall e, framed (h e)) -> framed (try_except m h).
Proof.
  intros Hm Hh p s. unfold try_except. rewrite Hm.
  destruct (m s) as [[a|e] s']; simpl; [reflexivity | apply Hh].
Qed.

Lemma framed_for_each {A} (body : A -> M state unit) l :
  (forall a, framed (body a)) -> framed (for_each body l).
Proof.
  intros H. induction l as [|a l IH]; simpl.
  - apply framed_ret.
  - apply framed_bind; [apply H | intros _; exact IH].
Qed.

Ltac framed :=
  repeat first
    [ apply framed_ret | apply framed_lift | apply framed_raise
    | apply framed_print | apply framed_extend3
    | apply framed_bind; [|intros ?] | apply framed_try; [|intros ?]
    | match goal with
      | |- framed (match ?x with _ => _ end) => destruct x
      | |- framed (if ?b then _ else _) => destruct b
      end ].

Lemma framed_extract_body nodes members ds ie :
  framed (extract_body nodes members ds ie).
Proof.
  destruct ie as [idx ele]. unfold extract_body, read_forces, on_exception. framed.
Qed.

Lemma framed_extraction nodes members ds chain :
  framed (extraction nodes members ds chain).
Proof. apply framed_for_each. intros a. apply framed_extract_body. Qed.

Lemma log_initial ms : log ms initial = log_front ms initial.
Proof. unfold log, log_front. simpl. now rewrite app_nil_r. Qed.

Lemma run_after_check nodes members ds (links : list link) :
  Forall (in_members members) links ->
  run nodes members ds (map fst links)
  = (fst (extraction nodes members ds (map fst links) initial),
     log_front (map connectivity_warning (mismatches links))
               (snd (extraction nodes members ds (map fst links) initial))).
Proof.
  intros H. unfold run.
  erewrite bind_ok by (apply continuity_check_spec; exact H).
  rewrite log_initial. apply framed_extraction.
Qed.
End Task1Frame.


(* ================================================================= *)
(** * TASK_1.py: the claims *)

Module Task1Claims.
Import Task1 Task1Spec Task1Facts Task1Extraction Task1Frame.

(** C3.  For a non-empty chain of N elements whose geometry and force
    records all resolve, the script ends normally and leaves exactly N + 1
    positions, N + 1 bending moments and N + 1 shear forces: both end
    values of the first element followed by the second end value of every
    later element, each position being the x-coordinate of the node
    reached in chain order. *)
Theorem profile_has_one_point_per_node nodes members ds (rows : list row) :
  rows <> [] ->
  Forall (resolves nodes members ds) rows ->
  let out := run nodes members ds (map eid rows) in
  fst out = Ok tt /\
  positions (snd out) = profile pos_i pos_j rows /\
  bending_moments (snd out) = profile mz_i mz_j rows /\
  shear_forces (snd out) = profile vy_i vy_j rows /\
  List.length (positions (snd out)) = (List.length rows + 1)%nat /\
  List.length (bending_moments (snd out)) = (List.length rows + 1)%nat /\
  List.length (shear_forces (snd out)) = (List.length rows + 1)%nat.
Proof.
  intros Hne H out.
  assert (E : out = (Ok tt,
                     log_front (map connectivity_warning (mismatches (map link_of rows)))
                       (emit (profile pos_i pos_j rows) (profile mz_i mz_j rows)
                             (profile vy_i vy_j rows) initial))).
  { subst out. rewrite <- map_fst_link_of.
    rewrite run_after_check by (eapply links_in_members; eassumption).
    rewrite map_fst_link_of, extraction_ok by assumption. reflexivity. }
  rewrite E. simpl fst. simpl snd. cbn [positions bending_moments shear_forces log_front emit initial app].
  repeat split; try reflexivity; now apply profile_length.
Qed.

(** The chain [15, 24, 33, 42] over nodes 3, 13, 18, 23, 28 at
    x = 0, 5, 10, 15, 20 gives the positions [0, 5, 10, 15, 20]. *)
Lemma profile_has_one_point_per_node_witness :
  positions (snd (run chain_nodes chain_members chain_ds chain_ids))
  = map float_of_Z [0; 5; 10; 15; 20] /\
  List.length (positions (snd (run chain_nodes chain_members chain_ds chain_ids))) = 5%nat.
Proof.
  assert (Hne : chain_rows <> []) by discriminate.
  assert (H : Forall (resolves chain_nodes chain_members chain_ds) chain_rows).
  { repeat constructor. }
  destruct (profile_has_one_point_per_node chain_nodes chain_members chain_ds chain_rows Hne H)
    as (_ & Hp & _ & _ & Hl & _).
  split; [exact Hp | exact Hl].
Defined.

(** The exception that leaves the four reads is the one raised by the
    first of them that fails, after the two report lines. *)
Lemma read_forces_first_failure ds ele s :
  component_missing ds ele ->
  exists (done : list string) (c : string) (rest : list string) (e : exn),
    ["Mz_i"; "Mz_j"; "Vy_i"; "Vy_j"] = done ++ c :: rest /\
    Forall (fun c' => is_ok (sel ds ele c') = true) done /\
    sel ds ele c = Raise e /\
    is_KeyError e = true /\
    read_forces ds ele s
    = (Raise e, log [error_reading ele; available_components ds] s).
Proof.
  intros (c & Hc & Hbad).
  assert (R : forall x, is_KeyError x = true ->
              on_exception ds ele x s
              = (Raise x, log [error_reading ele; available_components ds] s)).
  { intros x Hx. unfold on_exception. rewrite Hx.
    unfold bind, print, modify, raise, log. simpl. now rewrite <- app_assoc. }
  unfold read_forces, try_except, bind, lift.
  destruct (sel ds ele "Mz_i") as [v1|x] eqn:E1.
  2:{ pose proof (sel_raises_KeyError _ _ _ _ E1) as K.
      exists [], "Mz_i", ["Mz_j"; "Vy_i"; "Vy_j"], x.
      repeat split; [constructor | exact E1 | exact K | now apply R]. }
  destruct (sel ds ele "Mz_j") as [v2|x] eqn:E2.
  2:{ pose proof (sel_raises_KeyError _ _ _ _ E2) as K.
      exists ["Mz_i"], "Mz_j", ["Vy_i"; "Vy_j"], x.
      repeat split; [repeat constructor; now rewrite E1
                    | exact E2 | exact K | now apply R]. }
  destruct (sel ds ele "Vy_i") as [v3|x] eqn:E3.
  2:{ pose proof (sel_raises_KeyError _ _ _ _ E3) as K.
      exists ["Mz_i"; "Mz_j"], "Vy_i", ["Vy_j"], x.
      repeat split; [repeat constructor; [now rewrite E1 | now rewrite E2]
                    | exact E3 | exact K | now apply R]. }
  destruct (sel ds ele "Vy_j") as [v4|x] eqn:E4.
  2:{ pose proof (sel_raises_KeyError _ _ _ _ E4) as K.
      exists ["Mz_i"; "Mz_j"; "Vy_i"], "Vy_j", [], x.
      repeat split; [repeat constructor;
                       [now rewrite E1 | now rewrite E2 | now rewrite E3]
                    | exact E4 | exact K | now apply R]. }
  exfalso. simpl in Hc.
  destruct Hc as [<-|[<-|[<-|[<-|[]]]]];
    [rewrite E1 in Hbad|rewrite E2 in Hbad|rewrite E3 in Hbad|rewrite E4 in Hbad];
    discriminate.
Qed.

(** C7.  When every earlier element of the chain resolves and the geometry
    of element [r] resolves but one of its four components cannot be read,
    the script prints ["Error reading element"] with the element id and
    ["Available components:"] with the dataset's component names, and then
    stops with the very exception of the first read that failed, a
    [KeyError]: nothing is defaulted and no later element is processed.
    The profile holds only the points of the earlier elements. *)
Theorem missing_component_is_fatal nodes members ds
    (pre : list row) (r : row) (post : list link) :
  Forall (resolves nodes members ds) pre ->
  geometry_resolves nodes members r ->
  Forall (in_members members) post ->
  component_missing ds (eid r) ->
  let out := run nodes members ds (map eid pre ++ eid r :: map fst post) in
  exists (done : list string) (c : string) (rest : list string) (e : exn),
    ["Mz_i"; "Mz_j"; "Vy_i"; "Vy_j"] = done ++ c :: rest /\
    Forall (fun c' => is_ok (sel ds (eid r) c') = true) done /\
    sel ds (eid r) c = Raise e /\
    is_KeyError e = true /\
    fst out = Raise e /\
    console (snd out)
    = map (fun ele => [PStr "Warning: element connectivity issue at element";
                       PInt ele])
          (mismatches (map link_of pre ++ link_of r :: post))
      ++ [[PStr "Error reading element"; PInt (eid r)];
          [PStr "Available components:"; PNames (Component ds)]] /\
    positions (snd out) = profile pos_i pos_j pre /\
    bending_moments (snd out) = profile mz_i mz_j pre /\
    shear_forces (snd out) = profile vy_i vy_j pre.
Proof.
  intros Hpre Hg Hpost Hbad out.
  set (links := map link_of pre ++ link_of r :: post).
  assert (Hlinks : Forall (in_members members) links).
  { apply Forall_app. split; [eapply links_in_members; eassumption|].
    constructor; [apply Hg | assumption]. }
  assert (Hchain : map eid pre ++ eid r :: map fst post = map fst links).
  { subst links. rewrite map_app, map_fst_link_of. reflexivity. }
  set (s0 := emit (profile pos_i pos_j pre) (profile mz_i mz_j pre)
                  (profile vy_i vy_j pre) initial).
  destruct (read_forces_first_failure ds (eid r) s0 Hbad)
    as (done & c & rest & e & Hsplit & Hdone & Hc & Hk & Hread).
  assert (E : extraction nodes members ds (map eid pre ++ eid r :: map fst post) initial
              = (Raise e, log [error_reading (eid r); available_components ds] s0)).
  { unfold extraction, enumerate.
    rewrite enumerate_app.
    erewrite for_each_app by (apply extraction_ok; eassumption).
    cbn [List.length seq combine for_each Nat.add map].
    apply bind_raise. fold s0. rewrite geometry_steps by exact Hg.
    now apply bind_raise. }
  exists done, c, rest, e. subst out. rewrite Hchain, run_after_check by assumption.
  rewrite <- Hchain, E.
  split; [exact Hsplit|]. split; [exact Hdone|]. split; [exact Hc|].
  split; [exact Hk|]. simpl. repeat split; reflexivity.
Qed.

Lemma missing_component_is_fatal_witness :
  exists e,
    sel chain_ds_no_vy_j 15 "Vy_j" = Raise e /\
    fst (run chain_nodes chain_members chain_ds_no_vy_j chain_ids) = Raise e /\
    console (snd (run chain_nodes chain_members chain_ds_no_vy_j chain_ids))
    = [[PStr "Error reading element"; PInt 15];
       [PStr "Available components:"; PNames ["Mz_i"; "Mz_j"; "Vy_i"]]].
Proof.
  assert (Hpre : Forall (resolves chain_nodes chain_members chain_ds_no_vy_j) []) by constructor.
  assert (Hg : geometry_resolves chain_nodes chain_members (chain_row 15 3 13 0 5)).
  { repeat split. }
  assert (Hpost : Forall (in_members chain_members)
                    [(24, (13, 18)); (33, (18, 23)); (42, (23, 28))]).
  { repeat constructor. }
  assert (Hbad : component_missing chain_ds_no_vy_j (eid (chain_row 15 3 13 0 5))).
  { exists "Vy_j". split; [simpl; tauto | reflexivity]. }
  destruct (missing_component_is_fatal chain_nodes chain_members chain_ds_no_vy_j
              [] (chain_row 15 3 13 0 5) _ Hpre Hg Hpost Hbad)
    as (done & c & rest & e & Hsplit & Hdone & Hc & Hk & Hr & Hcon & _).
  cbn [map app eid chain_row fst] in Hr, Hcon, Hc, Hdone.
  exists e. split; [|split; [exact Hr | exact Hcon]].
  destruct done as [|c1 [|c2 [|c3 [|c4 done]]]]; cbn [app] in Hsplit.
  - injection Hsplit as <- _. discriminate Hc.
  - injection Hsplit as _ <- _. discriminate Hc.
  - injection Hsplit as _ _ <- _. discriminate Hc.
  - injection Hsplit as _ _ _ <- _. exact Hc.
  - exfalso. injection Hsplit as _ _ _ _ Hsplit. destruct done; discriminate Hsplit.
Defined.

(** C8.  When the chain's elements are all in the member table, the
    continuity check ends normally from any state, appends one line
    ["Warning: element connectivity issue at element"] with the id of the
    later element for every consecutive pair whose second and first nodes
    differ, and changes nothing else; the script's result and extracted
    profile are those of the extraction run on its own. *)
Theorem continuity_check_only_warns nodes members ds (links : list link) :
  let warning (ele : Z) : message :=
    [PStr "Warning: element connectivity issue at element"; PInt ele] in
  Forall (in_members members) links ->
  (forall s, continuity_check members (map fst links) s
             = (Ok tt,
                {| positions := positions s;
                   bending_moments := bending_moments s;
                   shear_forces := shear_forces s;
                   console := console s ++ map warning (mismatches links) |})) /\
  let alone := extraction nodes members ds (map fst links) initial in
  let out := run nodes members ds (map fst links) in
  fst out = fst alone /\
  positions (snd out) = positions (snd alone) /\
  bending_moments (snd out) = bending_moments (snd alone) /\
  shear_forces (snd out) = shear_forces (snd alone) /\
  console (snd out) = map warning (mismatches links) ++ console (snd alone).
Proof.
  intros warning H. split.
  - intros s. now apply continuity_check_spec.
  - intros alone out. subst out. rewrite run_after_check by assumption.
    repeat split; reflexivity.
Qed.

Lemma continuity_check_only_warns_witness :
  continuity_check broken_members [15; 24] initial
  = (Ok tt,
     {| positions := []; bending_moments := []; shear_forces := [];
        console := [[PStr "Warning: element connectivity issue at element";
                     PInt 24]] |}).
Proof.
  assert (H : Forall (in_members broken_members) broken_links).
  { repeat constructor. }
  exact (proj1 (continuity_check_only_warns chain_nodes broken_members chain_ds
                  broken_links H) initial).
Defined.

End Task1Claims.


(* ================================================================= *)
(** * 3D_task_2.py: the trace bookkeeping *)

Section DictFacts.
Context {V : Type}.

Lemma sget_sset_same (d : sdict V) k v : sget (sset d k v) k = Some v.
Proof.
  unfold sget, sset. induction d as [|[k' v'] d IH]; simpl.
  - now rewrite String.eqb_refl.
  - destruct (String.eqb k' k) eqn:E; simpl; now rewrite E.
Qed.

Lemma sget_sset_other (d : sdict V) k k' v :
  k' <> k -> sget (sset d k v) k' = sget d k'.
Proof.
  intros Hne. unfold sget, sset. induction d as [|[k0 v0] d IH]; simpl.
  - destruct (String.eqb_spec k k'); [congruence | reflexivity].
  - destruct (String.eqb_spec k0 k) as [->|Hk]; simpl.
    + destruct (String.eqb_spec k k'); [congruence | reflexivity].
    + destruct (String.eqb k0 k'); [reflexivity | exact IH].
Qed.

Lemma sset_keys (d : sdict V) k v l :
  sget d k = Some l -> map fst (sset d k v) = map fst d.
Proof.
  unfold sget, sset. induction d as [|[k0 v0] d IH]; simpl; [discriminate|].
  destruct (String.eqb k0 k); simpl; [reflexivity|].
  intros H. now rewrite IH.
Qed.

Lemma sget_keys (d : sdict V) k : In k (map fst d) -> exists l, sget d k = Some l.
Proof.
  unfold sget. induction d as [|[k0 v0] d IH]; simpl; [tauto|].
  intros [->|H].
  - rewrite String.eqb_refl. eauto.
  - destruct (String.eqb k0 k); eauto.
Qed.
End DictFacts.

Lemma sset_append_concat {A} (d : sdict (list A)) k l x :
  sget d k = Some l ->
  Permutation (List.concat (map snd (sset d k (l ++ [x]))))
              (List.concat (map snd d) ++ [x]).
Proof.
  unfold sget, sset. induction d as [|[k0 v0] d IH]; simpl; [discriminate|].
  destruct (String.eqb k0 k); simpl.
  - intros [= ->]. rewrite <- !app_assoc. apply Permutation_app_head.
    apply Permutation_app_comm.
  - intros H. rewrite <- app_assoc. apply Permutation_app_head. now apply IH.
Qed.

Module Task2Book.
Import Task2 Task2Spec.

Lemma element_to_girder_groups :
  forallb (fun p : Z * string => existsb (String.eqb (snd p)) group_names)
          element_to_girder = true.
Proof. vm_compute. reflexivity. Qed.

Lemma girder_of_group eid : In (girder_of eid) group_names.
Proof.
  unfold girder_of. destruct (zget element_to_girder eid) as [g|] eqn:E.
  - pose proof element_to_girder_groups as H.
    rewrite forallb_forall in H.
    assert (Hin : exists k, In (k, g) element_to_girder).
    { unfold zget in E. revert E. generalize element_to_girder.
      intros d. induction d as [|[k v] d IH]; simpl; [discriminate|].
      destruct (k =? eid).
      - intros [= ->]. exists k. now left.
      - intros E. destruct (IH E) as [k' Hk']. exists k'. now right. }
    destruct Hin as [k Hk]. specialize (H _ Hk). cbn [snd] in H.
    apply existsb_exists in H. destruct H as (x & Hx & Heq).
    apply String.eqb_eq in Heq. now subst.
  - unfold group_names, girder_names. apply in_or_app. right. now left.
Qed.

Lemma push_fig_data t s : fig_data (push t s) = fig_data s ++ [t].
Proof. reflexivity. Qed.

Lemma push_other_fields t s :
  element_count (push t s) = element_count s /\
  shown_in_legend (push t s) = shown_in_legend s /\
  console (push t s) = console s /\
  updatemenus (push t s) = updatemenus s.
Proof. repeat split. Qed.

Lemma partitioned_group s g :
  partitioned s -> In g group_names ->
  sget (girder_traces s) g = Some (traces_of s g).
Proof.
  intros (Hk & _) Hg. unfold traces_of.
  rewrite <- Hk in Hg. destruct (sget_keys _ _ Hg) as [l ->]. reflexivity.
Qed.

Lemma traces_of_push t s g :
  traces_of (push t s) g
  = if String.eqb (trace_name t) g
    then traces_of s g ++ [List.length (fig_data s)]
    else traces_of s g.
Proof.
  unfold traces_of at 1. unfold push. simpl girder_traces.
  destruct (String.eqb_spec (trace_name t) g) as [<-|Hne].
  - now rewrite sget_sset_same.
  - rewrite sget_sset_other by congruence. reflexivity.
Qed.

Lemma push_partitioned t s :
  partitioned s -> In (trace_name t) group_names -> partitioned (push t s).
Proof.
  intros Hs Hg. pose proof (partitioned_group s _ Hs Hg) as Hget.
  destruct Hs as (Hk & Hp & Hn). repeat split.
  - unfold push. simpl. erewrite sset_keys by eassumption. exact Hk.
  - unfold push. simpl girder_traces. simpl fig_data.
    rewrite length_app, seq_app. simpl.
    etransitivity; [apply sset_append_concat; exact Hget|].
    now apply Permutation_app_tail.
  - intros g idx. rewrite traces_of_push, push_fig_data.
    destruct (String.eqb_spec (trace_name t) g) as [<-|Hne].
    + intros [Hin| [<-|[]]]%in_app_or.
      * destruct (Hn _ _ Hin) as (t' & Ht' & Hname). exists t'. split; [|exact Hname].
        rewrite nth_error_app1; [exact Ht'|]. apply nth_error_Some. congruence.
      * exists t. split; [|reflexivity].
        rewrite nth_error_app2 by lia. now rewrite Nat.sub_diag.
    + intros Hin. destruct (Hn _ _ Hin) as (t' & Ht' & Hname). exists t'. split; [|exact Hname].
      rewrite nth_error_app1; [exact Ht'|]. apply nth_error_Some. congruence.
Qed.

Lemma pushes_partitioned ts s :
  partitioned s -> Forall (fun t => In (trace_name t) group_names) ts ->
  partitioned (pushes ts s).
Proof.
  revert s. induction ts as [|t ts IH]; intros s Hs H; simpl; [exact Hs|].
  inversion H; subst. apply IH; [now apply push_partitioned | assumption].
Qed.

Lemma pushes_fig_data ts s : fig_data (pushes ts s) = fig_data s ++ ts.
Proof.
  revert s. induction ts as [|t ts IH]; intros s; simpl.
  - now rewrite app_nil_r.
  - rewrite IH, push_fig_data, <- app_assoc. reflexivity.
Qed.

Lemma pushes_other_fields ts s :
  element_count (pushes ts s) = element_count s /\
  shown_in_legend (pushes ts s) = shown_in_legend s /\
  console (pushes ts s) = console s /\
  updatemenus (pushes ts s) = updatemenus s.
Proof.
  revert s. induction ts as [|t ts IH]; intros s; simpl; [repeat split|].
  destruct (IH (push t s)) as (-> & -> & -> & ->). apply push_other_fields.
Qed.

Lemma pushes_app a b s : pushes (a ++ b) s = pushes b (pushes a s).
Proof. unfold pushes. now rewrite fold_left_app. Qed.

Lemma initial_partitioned : partitioned initial.
Proof.
  split; [reflexivity | split; [vm_compute; constructor|]].
  intros g idx. unfold traces_of.
  change (girder_traces initial) with
    (map (fun g : string => (g, @nil nat)) group_names).
  generalize group_names. intros names.
  induction names as [|n names IH]; simpl; [intros []|].
  unfold sget in *. simpl. destruct (String.eqb n g); [intros [] | exact IH].
Qed.

(** [add_trace] followed by [record_trace] is [push]. *)
Lemma add_then_record {A} t g (k : unit -> M state A) s :
  trace_name t = g -> partitioned s -> In g group_names ->
  (add_trace t ;;; (x <- record_trace g ;; k x)) s = k tt (push t s).
Proof.
  intros <- Hs Hg. pose proof (partitioned_group s _ Hs Hg) as Hget.
  unfold bind, add_trace, record_trace, modify, get, lift, sitem, bind. simpl.
  rewrite Hget. unfold push. simpl.
  rewrite length_app. simpl.
  replace (List.length (fig_data s) + 1 - 1)%nat with (List.length (fig_data s)) by lia.
  reflexivity.
Qed.

Lemma add_then_record_last t g s :
  trace_name t = g -> partitioned s -> In g group_names ->
  (add_trace t ;;; record_trace g) s = (Ok tt, push t s).
Proof.
  intros <- Hs Hg. pose proof (partitioned_group s _ Hs Hg) as Hget.
  unfold bind, add_trace, record_trace, modify, get, lift, sitem, bind. simpl.
  rewrite Hget. unfold push. simpl.
  rewrite length_app. simpl.
  replace (List.length (fig_data s) + 1 - 1)%nat with (List.length (fig_data s)) by lia.
  reflexivity.
Qed.
End Task2Book.


(* ================================================================= *)
(** * 3D_task_2.py: the two loops over the members *)

Module Task2Loops.
Import Task2 Task2Spec Task2Book.

Lemma centerline_name g c1 c2 : trace_name (centerline g c1 c2) = g.
Proof. destruct c1 as [[? ?] ?], c2 as [[? ?] ?]. reflexivity. Qed.

Lemma centerlines_names nodes l :
  Forall (fun t => exists m, In m l /\ trace_name t = girder_of (fst m))
         (fst (centerlines nodes l)).
Proof.
  induction l as [|[eid [ni nj]] l IH]; simpl; [constructor|].
  destruct (zitem nodes ni) as [c1|]; [|constructor].
  destruct (zitem nodes nj) as [c2|]; [|constructor].
  destruct (centerlines nodes l) as [ts r]. simpl in *. constructor.
  - exists (eid, (ni, nj)). split; [now left | apply centerline_name].
  - eapply Forall_impl; [|exact IH]. intros t (m & Hm & Ht). exists m. split; [now right | exact Ht].
Qed.

Lemma centerline_body_ok nodes eid ni nj c1 c2 s :
  partitioned s ->
  zitem nodes ni = Ok c1 -> zitem nodes nj = Ok c2 ->
  centerline_body nodes (eid, (ni, nj)) s
  = (Ok tt, push (centerline (girder_of eid) c1 c2) s).
Proof.
  intros Hs H1 H2. unfold centerline_body.
  unfold bind at 1, lift at 1. rewrite H1. destruct c1 as [[x1 y1] z1].
  unfold bind at 1, lift at 1. rewrite H2. destruct c2 as [[x2 y2] z2].
  apply add_then_record_last; [reflexivity | exact Hs | apply girder_of_group].
Qed.

Lemma centerline_loop nodes l s :
  partitioned s ->
  for_each (centerline_body nodes) l s
  = (outcome (snd (centerlines nodes l)), pushes (fst (centerlines nodes l)) s).
Proof.
  revert s. induction l as [|[eid [ni nj]] l IH]; intros s Hs; [reflexivity|].
  cbn [for_each centerlines].
  destruct (zitem nodes ni) as [c1|e] eqn:E1.
  - destruct (zitem nodes nj) as [c2|e] eqn:E2.
    + erewrite bind_ok by (eapply centerline_body_ok; eassumption).
      rewrite IH.
      * destruct (centerlines nodes l) as [ts r]. reflexivity.
      * apply push_partitioned; [exact Hs|]. rewrite centerline_name. apply girder_of_group.
    + apply bind_raise. unfold centerline_body.
      unfold bind at 1, lift at 1. rewrite E1. destruct c1 as [[x1 y1] z1].
      unfold bind at 1, lift at 1. rewrite E2. reflexivity.
  - apply bind_raise. unfold centerline_body.
    unfold bind at 1, lift at 1. rewrite E1. reflexivity.
Qed.

Lemma centerlines_groups nodes l :
  Forall (fun t => In (trace_name t) group_names) (fst (centerlines nodes l)).
Proof.
  eapply Forall_impl; [|apply centerlines_names].
  intros t (m & _ & ->). apply girder_of_group.
Qed.

Lemma ribbon_traces_names m r scale all_values segments b1 b2 :
  Forall (fun t => trace_name t = girder_of (fst m))
         (ribbon_traces m r scale all_values segments b1 b2).
Proof.
  destruct m as [eid [ni nj]]. unfold ribbon_traces.
  destruct (r_c1 r) as [[x1 y1] z1], (r_c2 r) as [[x2 y2] z2].
  repeat constructor.
Qed.

Lemma py_min_lowest all_values : all_values <> [] -> py_min all_values = Ok (lowest all_values).
Proof. destruct all_values; [congruence | reflexivity]. Qed.

Lemma py_max_highest all_values : all_values <> [] -> py_max all_values = Ok (highest all_values).
Proof. destruct all_values; [congruence | reflexivity]. Qed.

Lemma set_shown_partitioned l s : partitioned s -> partitioned (set_shown_in_legend l s).
Proof. intros H. exact H. Qed.

Lemma set_count_partitioned n s : partitioned s -> partitioned (set_element_count n s).
Proof. intros H. exact H. Qed.

Lemma set_console_partitioned c s : partitioned s -> partitioned (set_console c s).
Proof. intros H. exact H. Qed.

Lemma surface_try_raises nodes ds comp_i comp_j scale all_values segments eid ni nj e s :
  element_ribbon nodes ds comp_i comp_j scale segments (eid, (ni, nj)) = Raise e ->
  surface_try nodes ds comp_i comp_j scale all_values segments eid ni nj (girder_of eid) s
  = (Raise e, s).
Proof.
  unfold element_ribbon, surface_try. intros H.
  unfold bind at 1, lift at 1. destruct (zitem nodes ni) as [c1|]; [|congruence].
  unfold bind at 1, lift at 1. destruct (zitem nodes nj) as [c2|]; [|congruence].
  destruct c1 as [[x1 y1] z1], c2 as [[x2 y2] z2].
  unfold bind at 1, lift at 1. destruct (sel ds eid comp_i) as [v_i|]; [|congruence].
  unfold bind at 1, lift at 1. destruct (sel ds eid comp_j) as [v_j|]; [|congruence].
  unfold bind at 1, lift at 1. destruct (mesh_arrays _ _ _ _ _ _); congruence.
Qed.

Lemma surface_try_ok nodes ds comp_i comp_j scale all_values segments eid ni nj r s :
  partitioned s -> all_values <> [] ->
  element_ribbon nodes ds comp_i comp_j scale segments (eid, (ni, nj)) = Ok r ->
  surface_try nodes ds comp_i comp_j scale all_values segments eid ni nj (girder_of eid) s
  = (Ok tt, surface_pure nodes ds comp_i comp_j scale all_values segments s (eid, (ni, nj))).
Proof.
  intros Hs Hne H. unfold surface_pure. rewrite H. revert H.
  unfold element_ribbon, surface_try.
  unfold bind at 1, lift at 1. destruct (zitem nodes ni) as [c1|]; [|congruence].
  unfold bind at 1, lift at 1. destruct (zitem nodes nj) as [c2|]; [|congruence].
  destruct c1 as [[x1 y1] z1], c2 as [[x2 y2] z2].
  unfold bind at 1, lift at 1. destruct (sel ds eid comp_i) as [v_i|]; [|congruence].
  unfold bind at 1, lift at 1. destruct (sel ds eid comp_j) as [v_j|]; [|congruence].
  unfold bind at 1, lift at 1. destruct (mesh_arrays _ _ _ _ _ _) as [a|]; [|congruence].
  intros [= <-].
  destruct (triangles segments) as [[I_ J_] K_] eqn:Et.
  unfold bind at 1, get at 1.
  cbn [fst].
  set (show := negb (existsb (String.eqb (girder_of eid)) (shown_in_legend s))).
  set (s1 := if show then set_shown_in_legend (shown_in_legend s ++ [girder_of eid]) s else s).
  assert (Hs1 : partitioned s1) by (subst s1; destruct show; exact Hs).
  assert (E1 : forall A (k : unit -> M state A),
             bind (if show
                   then modify (set_shown_in_legend (shown_in_legend s ++ [girder_of eid]))
                   else ret tt) k s = k tt s1).
  { intros A k. subst s1. destruct show; reflexivity. }
  rewrite E1.
  unfold bind at 1, lift at 1. rewrite (py_min_lowest _ Hne).
  unfold bind at 1, lift at 1. rewrite (py_max_highest _ Hne).
  pose proof (girder_of_group eid) as Hg.
  rewrite add_then_record; [|reflexivity|exact Hs1|exact Hg].
  rewrite add_then_record;
    [|reflexivity|apply push_partitioned; [exact Hs1|exact Hg]|exact Hg].
  rewrite add_then_record;
    [|reflexivity|repeat (apply push_partitioned; [|exact Hg]); exact Hs1|exact Hg].
  rewrite add_then_record;
    [|reflexivity|repeat (apply push_partitioned; [|exact Hg]); exact Hs1|exact Hg].
  unfold modify, ribbon_traces. cbn [r_c1 r_c2 r_vi r_vj r_arrays pushes fold_left fst snd].
  rewrite Et. cbn [fst snd].
  reflexivity.
Qed.

Lemma surface_body_pure nodes ds comp_i comp_j scale all_values segments m s :
  partitioned s ->
  (is_ok (element_ribbon nodes ds comp_i comp_j scale segments m) = true ->
   all_values <> []) ->
  surface_body nodes ds comp_i comp_j scale all_values segments m s
  = (Ok tt, surface_pure nodes ds comp_i comp_j scale all_values segments s m).
Proof.
  intros Hs Hne. destruct m as [eid [ni nj]]. unfold surface_body, try_except.
  destruct (element_ribbon nodes ds comp_i comp_j scale segments (eid, (ni, nj)))
    as [r|e] eqn:E.
  - erewrite surface_try_ok by (try eassumption; now apply Hne). reflexivity.
  - erewrite surface_try_raises by eassumption.
    unfold surface_pure. rewrite E. reflexivity.
Qed.

Lemma surface_pure_partitioned nodes ds comp_i comp_j scale all_values segments m s :
  partitioned s ->
  partitioned (surface_pure nodes ds comp_i comp_j scale all_values segments s m).
Proof.
  intros Hs. unfold surface_pure.
  destruct (element_ribbon _ _ _ _ _ _ m) as [r|e]; [|exact Hs].
  apply set_count_partitioned. apply pushes_partitioned.
  - destruct (negb _); exact Hs.
  - eapply Forall_impl; [|apply ribbon_traces_names].
    intros t ->. apply girder_of_group.
Qed.

Lemma surface_loop nodes ds comp_i comp_j scale all_values segments l s :
  partitioned s ->
  (forall m, In m l ->
     is_ok (element_ribbon nodes ds comp_i comp_j scale segments m) = true ->
     all_values <> []) ->
  for_each (surface_body nodes ds comp_i comp_j scale all_values segments) l s
  = (Ok tt,
     fold_left (surface_pure nodes ds comp_i comp_j scale all_values segments) l s).
Proof.
  revert s. induction l as [|m l IH]; intros s Hs Hne; [reflexivity|].
  cbn [for_each fold_left].
  erewrite bind_ok by (apply surface_body_pure; [exact Hs | apply Hne; now left]).
  apply IH; [now apply surface_pure_partitioned | intros m' Hm'; apply Hne; now right].
Qed.

Lemma surface_fold_partitioned nodes ds comp_i comp_j scale all_values segments l s :
  partitioned s ->
  partitioned (fold_left (surface_pure nodes ds comp_i comp_j scale all_values segments) l s).
Proof.
  revert s. induction l as [|m l IH]; intros s Hs; [exact Hs|].
  simpl. apply IH. now apply surface_pure_partitioned.
Qed.
End Task2Loops.


(* ================================================================= *)
(** * 3D_task_2.py: collected values and buttons *)

Module Task2Buttons.
Import Task2 Task2Spec Task2Book Task2Loops.

Lemma list_assign_tabulate {A} (f : nat -> A) k n i a :
  (i < n)%nat ->
  list_assign (map f (seq k n)) i a
  = Ok (map (fun j => if (j =? k + i)%nat then a else f j) (seq k n)).
Proof.
  revert k i. induction n as [|n IH]; intros k i Hi; [lia|].
  destruct i as [|i]; simpl.
  - rewrite Nat.add_0_r, Nat.eqb_refl. f_equal. f_equal.
    apply map_ext_in. intros j Hj. apply in_seq in Hj.
    destruct (Nat.eqb_spec j k); [lia | reflexivity].
  - rewrite IH by lia.
    destruct (Nat.eqb_spec k (k + Datatypes.S i)); [lia|].
    f_equal. f_equal. apply map_ext. intros j.
    now replace (Datatypes.S k + i)%nat with (k + Datatypes.S i)%nat by lia.
Qed.

Lemma mark_visible_tabulate (f : nat -> bool) n indices :
  Forall (fun i => (i < n)%nat) indices ->
  mark_visible indices (map f (seq 0 n))
  = Ok (map (fun j => existsb (Nat.eqb j) indices || f j) (seq 0 n)).
Proof.
  revert f. induction indices as [|i indices IH]; intros f H.
  - reflexivity.
  - inversion H; subst. unfold mark_visible in *. cbn [fold_result].
    rewrite list_assign_tabulate by assumption. rewrite IH by assumption.
    f_equal. apply map_ext. intros j. cbn [existsb Nat.add].
    destruct (j =? i)%nat; cbn [orb]; [apply orb_true_r | reflexivity].
Qed.

Lemma mark_visible_fresh n indices :
  Forall (fun i => (i < n)%nat) indices ->
  mark_visible indices (repeat false n) = Ok (visible_at n indices).
Proof.
  intros H.
  replace (repeat false n) with (map (fun _ : nat => false) (seq 0 n)).
  - rewrite mark_visible_tabulate by assumption. unfold visible_at.
    f_equal. apply map_ext. intros j. apply orb_false_r.
  - clear H. generalize 0%nat. induction n as [|n IH]; intros k; simpl; [reflexivity|].
    now rewrite IH.
Qed.

Lemma partitioned_bound s g :
  partitioned s ->
  Forall (fun i => (i < List.length (fig_data s))%nat) (traces_of s g).
Proof.
  intros (_ & _ & Hn). apply Forall_forall. intros idx Hin.
  destruct (Hn _ _ Hin) as (t & Ht & _). apply nth_error_Some. congruence.
Qed.

Lemma girder_button_ok s buttons g :
  partitioned s -> In g group_names ->
  girder_button (girder_traces s) (List.length (fig_data s)) buttons g
  = Ok (buttons ++ [group_button s g]).
Proof.
  intros Hs Hg. unfold girder_button.
  rewrite (partitioned_group s g Hs Hg).
  rewrite mark_visible_fresh by now apply partitioned_bound.
  reflexivity.
Qed.

Lemma girder_buttons_ok s names buttons :
  partitioned s -> incl names group_names ->
  fold_result (girder_button (girder_traces s) (List.length (fig_data s))) names buttons
  = Ok (buttons ++ map (group_button s) names).
Proof.
  intros Hs. revert buttons. induction names as [|g names IH]; intros buttons Hincl.
  - simpl. now rewrite app_nil_r.
  - cbn [fold_result]. rewrite girder_button_ok; [|exact Hs|apply Hincl; now left].
    rewrite IH by (intros x Hx; apply Hincl; now right).
    now rewrite <- app_assoc.
Qed.

Lemma make_buttons_ok s :
  partitioned s ->
  make_buttons (girder_traces s) (List.length (fig_data s)) = Ok (all_buttons s).
Proof.
  intros Hs. unfold make_buttons.
  rewrite girder_buttons_ok;
    [|exact Hs|intros x Hx; unfold group_names; apply in_or_app; now left].
  unfold transverse_button, all_buttons, transverse_buttons.
  assert (Ho : In other_elements group_names).
  { unfold group_names. apply in_or_app. right. now left. }
  rewrite (partitioned_group s _ Hs Ho).
  pose proof (partitioned_bound s other_elements Hs) as Hb.
  destruct (traces_of s other_elements) as [|idx rest].
  - now rewrite app_nil_r.
  - rewrite mark_visible_fresh by exact Hb. reflexivity.
Qed.

Lemma add_buttons_ok s :
  partitioned s -> add_buttons s = (Ok tt, set_updatemenus (all_buttons s) s).
Proof.
  intros Hs. unfold add_buttons, bind, get, lift, modify.
  now rewrite make_buttons_ok.
Qed.

(** *** The values collected for the scale *)

Lemma collect_values_flat ds comp_i comp_j members :
  collect_values ds comp_i comp_j members
  = flat_map (end_values ds comp_i comp_j) members.
Proof.
  unfold collect_values.
  assert (H : forall acc, fold_left (collect_step ds comp_i comp_j) members acc
                          = acc ++ flat_map (end_values ds comp_i comp_j) members).
  { induction members as [|m l IH]; intros acc; simpl.
    - now rewrite app_nil_r.
    - rewrite IH. unfold collect_step, end_values.
      destruct (sel ds (fst m) comp_i); [|reflexivity].
      destruct (sel ds (fst m) comp_j); [|reflexivity].
      now rewrite <- app_assoc. }
  apply H.
Qed.

Lemma element_ribbon_reads nodes ds comp_i comp_j scale segments m :
  is_ok (element_ribbon nodes ds comp_i comp_j scale segments m) = true ->
  end_values ds comp_i comp_j m <> [].
Proof.
  destruct m as [eid [ni nj]]. unfold element_ribbon, end_values. simpl fst.
  destruct (zitem nodes ni); [|discriminate].
  destruct (zitem nodes nj); [|discriminate].
  destruct (sel ds eid comp_i); [|discriminate].
  destruct (sel ds eid comp_j); [|discriminate].
  discriminate.
Qed.

Lemma collected_nonempty nodes ds comp_i comp_j scale segments members m :
  In m members ->
  is_ok (element_ribbon nodes ds comp_i comp_j scale segments m) = true ->
  collect_values ds comp_i comp_j members <> [].
Proof.
  intros Hin Hok. rewrite collect_values_flat.
  pose proof (element_ribbon_reads _ _ _ _ _ _ _ Hok) as Hne.
  intros E. apply Hne.
  destruct (end_values ds comp_i comp_j m) as [|v vs] eqn:Ev; [reflexivity|].
  assert (Hv : In v (flat_map (end_values ds comp_i comp_j) members)).
  { apply in_flat_map. exists m. split; [exact Hin | rewrite Ev; now left]. }
  rewrite E in Hv. destruct Hv.
Qed.
End Task2Buttons.


(* ================================================================= *)
(** * 3D_task_2.py: the builder as a whole *)

Module Task2Builder.
Import Task2 Task2Spec Task2Book Task2Loops Task2Buttons.

Lemma surfaces_spec nodes members ds result_type segments s :
  partitioned s ->
  surfaces nodes members ds result_type segments s
  = (Ok tt, after_surfaces nodes members ds result_type segments s).
Proof.
  intros Hs. unfold surfaces, after_surfaces, all_values_of.
  destruct (components result_type) as [comp_i comp_j]. cbn [fst snd].
  apply surface_loop; [exact Hs|].
  intros m Hm Hok. eapply collected_nonempty; eassumption.
Qed.

Lemma after_surfaces_partitioned nodes members ds result_type segments s :
  partitioned s ->
  partitioned (after_surfaces nodes members ds result_type segments s).
Proof. intros Hs. now apply surface_fold_partitioned. Qed.

Lemma centerlines_partitioned nodes members :
  partitioned (pushes (fst (centerlines nodes members)) initial).
Proof.
  apply pushes_partitioned; [apply initial_partitioned | apply centerlines_groups].
Qed.

Lemma create_spec nodes members ds result_type segments :
  create_enhanced_3d_diagram nodes members ds result_type segments
  = match snd (centerlines nodes members) with
    | Some e => (Raise e, pushes (fst (centerlines nodes members)) initial)
    | None =>
        let s := after_surfaces nodes members ds result_type segments
                   (pushes (fst (centerlines nodes members)) initial) in
        (Ok tt, set_updatemenus (all_buttons s) s)
    end.
Proof.
  unfold create_enhanced_3d_diagram, build.
  unfold bind at 1. rewrite centerline_loop by apply initial_partitioned.
  pose proof (centerlines_partitioned nodes members) as Hp.
  destruct (snd (centerlines nodes members)) as [e|]; cbn [outcome]; [reflexivity|].
  unfold bind at 1. rewrite surfaces_spec by exact Hp.
  apply add_buttons_ok. now apply after_surfaces_partitioned.
Qed.

Lemma create_partitioned nodes members ds result_type segments :
  partitioned (snd (create_enhanced_3d_diagram nodes members ds result_type segments)).
Proof.
  rewrite create_spec. pose proof (centerlines_partitioned nodes members) as Hp.
  destruct (snd (centerlines nodes members)); cbn [snd]; [exact Hp|].
  now apply after_surfaces_partitioned.
Qed.

(** A property of every centerline and of every ribbon trace holds of
    every trace of the final figure. *)
Lemma surface_pure_forall nodes ds comp_i comp_j scale all_values segments
    (P : trace -> Prop) m s :
  (forall r b1 b2,
     element_ribbon nodes ds comp_i comp_j scale segments m = Ok r ->
     Forall P (ribbon_traces m r scale all_values segments b1 b2)) ->
  Forall P (fig_data s) ->
  Forall P (fig_data (surface_pure nodes ds comp_i comp_j scale all_values segments s m)).
Proof.
  intros HP Hs. unfold surface_pure.
  destruct (element_ribbon _ _ _ _ _ _ m) as [r|e] eqn:E; [|exact Hs].
  cbn [set_element_count fig_data]. rewrite pushes_fig_data.
  apply Forall_app. split.
  - destruct (negb _); exact Hs.
  - now apply HP.
Qed.

Lemma surface_fold_forall nodes ds comp_i comp_j scale all_values segments
    (P : trace -> Prop) l s :
  (forall m r b1 b2, In m l ->
     element_ribbon nodes ds comp_i comp_j scale segments m = Ok r ->
     Forall P (ribbon_traces m r scale all_values segments b1 b2)) ->
  Forall P (fig_data s) ->
  Forall P (fig_data (fold_left
              (surface_pure nodes ds comp_i comp_j scale all_values segments) l s)).
Proof.
  revert s. induction l as [|m l IH]; intros s HP Hs; [exact Hs|].
  simpl. apply IH.
  - intros m' r b1 b2 Hm'. apply HP. now right.
  - apply surface_pure_forall; [|exact Hs]. intros r b1 b2. apply HP. now left.
Qed.

Lemma create_forall (P : trace -> Prop) nodes members ds result_type segments :
  Forall P (fst (centerlines nodes members)) ->
  (forall m r b1 b2, In m members ->
     element_ribbon nodes ds (fst (components result_type))
                    (snd (components result_type))
                    (scale_factor members ds result_type) segments m = Ok r ->
     Forall P (ribbon_traces m r (scale_factor members ds result_type)
                             (all_values_of members ds result_type) segments b1 b2)) ->
  Forall P (fig_data (snd (create_enhanced_3d_diagram
                             nodes members ds result_type segments))).
Proof.
  intros Hc Hr. rewrite create_spec.
  assert (Hc' : Forall P (fig_data (pushes (fst (centerlines nodes members)) initial))).
  { rewrite pushes_fig_data. exact Hc. }
  destruct (snd (centerlines nodes members)); cbn [snd]; [exact Hc'|].
  cbn [set_updatemenus fig_data]. now apply surface_fold_forall.
Qed.

Lemma create_names nodes members ds result_type segments :
  Forall (fun t => exists m, In m members /\ trace_name t = girder_of (fst m))
         (fig_data (snd (create_enhanced_3d_diagram nodes members ds result_type segments))).
Proof.
  apply create_forall; [apply centerlines_names|].
  intros m r b1 b2 Hm _. eapply Forall_impl; [|apply ribbon_traces_names].
  intros t Ht. exists m. now split.
Qed.

Lemma girder_of_owner eid : girder_of eid = owner eid.
Proof.
  unfold girder_of, owner, zget, owns.
  let e := eval vm_compute in element_to_girder in change element_to_girder with e.
  unfold girders. cbn [dict_get filter existsb elements snd fst].
  repeat match goal with
         | |- context [(?k =? eid)] =>
             destruct (Z.eqb_spec k eid); [subst eid; reflexivity|]
         end.
  reflexivity.
Qed.
Lemma unflag_ribbon_traces m r scale all_values segments b1 b2 :
  map unflag (ribbon_traces m r scale all_values segments b1 b2)
  = ribbon_traces m r scale all_values segments false false.
Proof.
  destruct m as [eid [ni nj]]. unfold ribbon_traces.
  destruct (r_c1 r) as [[x1 y1] z1], (r_c2 r) as [[x2 y2] z2]. reflexivity.
Qed.

Lemma unflag_centerlines nodes l :
  map unflag (fst (centerlines nodes l)) = fst (centerlines nodes l).
Proof.
  induction l as [|[eid [ni nj]] l IH]; simpl; [reflexivity|].
  destruct (zitem nodes ni) as [[[x1 y1] z1]|]; [|reflexivity].
  destruct (zitem nodes nj) as [[[x2 y2] z2]|]; [|reflexivity].
  destruct (centerlines nodes l) as [ts r]. simpl in *. now rewrite IH.
Qed.

Lemma surface_fold_layout nodes ds comp_i comp_j scale all_values segments l s :
  map unflag (fig_data (fold_left
     (surface_pure nodes ds comp_i comp_j scale all_values segments) l s))
  = map unflag (fig_data s)
    ++ flat_map (fun m =>
         match element_ribbon nodes ds comp_i comp_j scale segments m with
         | Ok r => ribbon_traces m r scale all_values segments false false
         | Raise _ => []
         end) l.
Proof.
  revert s. induction l as [|m l IH]; intros s.
  - simpl. now rewrite app_nil_r.
  - cbn [fold_left flat_map]. rewrite IH. rewrite app_assoc. f_equal.
    unfold surface_pure.
    destruct (element_ribbon nodes ds comp_i comp_j scale segments m) as [r|e].
    + cbn [set_element_count fig_data]. rewrite pushes_fig_data, map_app.
      rewrite unflag_ribbon_traces. f_equal. destruct (negb _); reflexivity.
    + now rewrite app_nil_r.
Qed.

Lemma create_layout nodes members ds result_type segments :
  fst (create_enhanced_3d_diagram nodes members ds result_type segments) = Ok tt ->
  map unflag (fig_data (snd (create_enhanced_3d_diagram
                               nodes members ds result_type segments)))
  = fst (centerlines nodes members)
    ++ flat_map (element_group nodes members ds result_type segments) members.
Proof.
  rewrite create_spec.
  destruct (snd (centerlines nodes members)); cbn [fst snd]; [discriminate|].
  intros _. cbn [set_updatemenus fig_data]. unfold after_surfaces.
  rewrite surface_fold_layout, pushes_fig_data. cbn [initial fig_data app].
  now rewrite unflag_centerlines.
Qed.

Lemma create_ok_iff nodes members ds result_type segments :
  fst (create_enhanced_3d_diagram nodes members ds result_type segments)
  = outcome (snd (centerlines nodes members)).
Proof.
  rewrite create_spec. destruct (snd (centerlines nodes members)); reflexivity.
Qed.

(** *** The names along the figure *)

Lemma trace_name_unflag t : trace_name (unflag t) = trace_name t.
Proof. destruct t; reflexivity. Qed.

Lemma map_flat_map {A B C} (f : B -> C) (g : A -> list B) l :
  map f (flat_map g l) = flat_map (fun a => map f (g a)) l.
Proof.
  induction l as [|a l IH]; simpl; [reflexivity|]. now rewrite map_app, IH.
Qed.

Lemma centerlines_ok_names nodes l :
  snd (centerlines nodes l) = None ->
  map trace_name (fst (centerlines nodes l)) = map (fun m => girder_of (fst m)) l.
Proof.
  induction l as [|[eid [ni nj]] l IH]; simpl; [reflexivity|].
  destruct (zitem nodes ni) as [c1|]; [|discriminate].
  destruct (zitem nodes nj) as [c2|]; [|discriminate].
  destruct (centerlines nodes l) as [ts r]. simpl in *.
  intros H. now rewrite centerline_name, IH.
Qed.

Lemma element_group_names nodes members ds result_type segments m :
  map trace_name (element_group nodes members ds result_type segments m)
  = map (fun _ => girder_of (fst m))
        (element_group nodes members ds result_type segments m).
Proof.
  unfold element_group. destruct (element_ribbon _ _ _ _ _ _ m) as [r|]; [|reflexivity].
  pose proof (ribbon_traces_names m r (scale_factor members ds result_type)
                (all_values_of members ds result_type) segments false false) as H.
  induction H as [|t ts Ht _ IH]; simpl; [reflexivity|]. now rewrite Ht, IH.
Qed.

Lemma create_trace_names nodes members ds result_type segments :
  fst (create_enhanced_3d_diagram nodes members ds result_type segments) = Ok tt ->
  map trace_name (fig_data (snd (create_enhanced_3d_diagram
                                   nodes members ds result_type segments)))
  = map (fun m => owner (fst m)) members
    ++ flat_map (fun m => map (fun _ => owner (fst m))
                              (element_group nodes members ds result_type segments m))
                members.
Proof.
  intros Hok.
  rewrite <- (map_ext _ _ trace_name_unflag), <- map_map.
  rewrite create_layout by exact Hok.
  rewrite create_ok_iff in Hok.
  rewrite map_app, map_flat_map. f_equal.
  - rewrite centerlines_ok_names.
    + apply map_ext. intros m. apply girder_of_owner.
    + destruct (snd (centerlines nodes members)); [discriminate | reflexivity].
  - apply flat_map_ext. intros m. rewrite element_group_names.
    apply map_ext. intros _. apply girder_of_owner.
Qed.

End Task2Builder.


(* ================================================================= *)
(** * 3D_task_2.py: the vertex and triangle loops *)

Module Task2Mesh.
Import Task2 Task2Spec.

Lemma true_div_ok i segments :
  segments <> 0 -> true_div i segments = Ok (t_of segments i).
Proof.
  intros H. unfold true_div. destruct (Z.eqb_spec segments 0); [contradiction|].
  reflexivity.
Qed.

Lemma vertex_fold c1 c2 v_i v_j scale segments steps acc :
  segments <> 0 ->
  fold_result (vertex_step c1 c2 v_i v_j scale segments) steps acc
  = Ok (append_arrays acc (step_arrays c1 c2 v_i v_j scale segments steps)).
Proof.
  intros H. revert acc. induction steps as [|i steps IH]; intros acc.
  - destruct c1 as [[x1 y1] z1], c2 as [[x2 y2] z2], acc. simpl.
    unfold append_arrays. simpl. now rewrite !app_nil_r.
  - cbn [fold_result]. unfold vertex_step at 1.
    destruct c1 as [[x1 y1] z1], c2 as [[x2 y2] z2].
    rewrite true_div_ok by exact H. rewrite IH.
    unfold append_arrays, step_arrays. cbn [X Y Z_ C flat_map].
    now rewrite <- !app_assoc.
Qed.

Lemma mesh_arrays_closed c1 c2 v_i v_j scale segments :
  segments <> 0 ->
  mesh_arrays c1 c2 v_i v_j scale segments
  = Ok (ribbon_arrays c1 c2 v_i v_j scale segments).
Proof.
  intros H. unfold mesh_arrays. rewrite vertex_fold by exact H.
  unfold ribbon_arrays, append_arrays, no_arrays.
  destruct (step_arrays c1 c2 v_i v_j scale segments (range (segments + 1))).
  reflexivity.
Qed.

Lemma mesh_arrays_zero c1 c2 v_i v_j scale :
  mesh_arrays c1 c2 v_i v_j scale 0 = Raise ZeroDivisionError.
Proof. destruct c1 as [[x1 y1] z1], c2 as [[x2 y2] z2]. reflexivity. Qed.

Lemma length_pairs {A} (f : Z -> list A) steps :
  (forall i, List.length (f i) = 2%nat) ->
  List.length (flat_map f steps) = (2 * List.length steps)%nat.
Proof.
  intros H. induction steps as [|i steps IH]; [reflexivity|].
  simpl. rewrite length_app, H, IH. lia.
Qed.

Lemma length_range n : List.length (range n) = Z.to_nat n.
Proof. unfold range. now rewrite length_map, length_seq. Qed.

Lemma in_range n i : In i (range n) <-> 0 <= i < n.
Proof.
  unfold range. rewrite in_map_iff. split.
  - intros (k & <- & Hk). apply in_seq in Hk. lia.
  - intros H. exists (Z.to_nat i). split; [lia | apply in_seq; lia].
Qed.

Lemma ribbon_arrays_lengths c1 c2 v_i v_j scale segments :
  let a := ribbon_arrays c1 c2 v_i v_j scale segments in
  let n := (2 * Z.to_nat (segments + 1))%nat in
  List.length (X a) = n /\ List.length (Y a) = n /\
  List.length (Z_ a) = n /\ List.length (C a) = n.
Proof.
  unfold ribbon_arrays, step_arrays.
  destruct c1 as [[x1 y1] z1], c2 as [[x2 y2] z2]. cbn [X Y Z_ C].
  rewrite <- length_range.
  repeat split; apply length_pairs; reflexivity.
Qed.

Lemma triangles_closed segments : triangles segments = strip_triangles segments.
Proof.
  unfold triangles, strip_triangles.
  assert (H : forall steps I_ J_ K_,
             fold_left triangle_step steps (I_, J_, K_)
             = (I_ ++ flat_map (fun i => [i * 2; i * 2 + 1]) steps,
                J_ ++ flat_map (fun i => [i * 2 + 1; i * 2 + 3]) steps,
                K_ ++ flat_map (fun i => [i * 2 + 2; i * 2 + 2]) steps)).
  { induction steps as [|i steps IH]; intros I_ J_ K_; simpl.
    - now rewrite !app_nil_r.
    - rewrite IH. now rewrite <- !app_assoc. }
  apply H.
Qed.

Lemma strip_triangles_bounds segments :
  let '(I_, J_, K_) := strip_triangles segments in
  Forall (fun idx => 0 <= idx < 2 * (segments + 1)) (I_ ++ J_ ++ K_).
Proof.
  unfold strip_triangles. rewrite !Forall_app.
  repeat split; apply Forall_forall; intros idx Hin;
    apply in_flat_map in Hin; destruct Hin as (i & Hi & Hin);
    apply in_range in Hi; simpl in Hin; intuition lia.
Qed.

Lemma element_ribbon_parts nodes ds comp_i comp_j scale segments eid ni nj r :
  element_ribbon nodes ds comp_i comp_j scale segments (eid, (ni, nj)) = Ok r ->
  zitem nodes ni = Ok (r_c1 r) /\ zitem nodes nj = Ok (r_c2 r) /\
  sel ds eid comp_i = Ok (r_vi r) /\ sel ds eid comp_j = Ok (r_vj r) /\
  mesh_arrays (r_c1 r) (r_c2 r) (r_vi r) (r_vj r) scale segments = Ok (r_arrays r).
Proof.
  unfold element_ribbon.
  destruct (zitem nodes ni) as [c1|]; [|discriminate].
  destruct (zitem nodes nj) as [c2|]; [|discriminate].
  destruct (sel ds eid comp_i) as [v_i|]; [|discriminate].
  destruct (sel ds eid comp_j) as [v_j|]; [|discriminate].
  destruct (mesh_arrays c1 c2 v_i v_j scale segments) as [a|] eqn:E; [|discriminate].
  intros [= <-]. cbn [r_c1 r_c2 r_vi r_vj r_arrays]. now rewrite E.
Qed.

Lemma ribbon_mesh_is_strip m r scale all_values segments b1 b2 :
  1 <= segments ->
  mesh_arrays (r_c1 r) (r_c2 r) (r_vi r) (r_vj r) scale segments = Ok (r_arrays r) ->
  Forall (fun t => match t with
                   | Mesh3d mesh => strip_mesh segments mesh
                   | Scatter3d _ => True
                   end)
         (ribbon_traces m r scale all_values segments b1 b2).
Proof.
  intros HS Ha. rewrite mesh_arrays_closed in Ha by lia. injection Ha as Ha.
  destruct m as [eid [ni nj]]. unfold ribbon_traces.
  destruct (r_c1 r) as [[x1 y1] z1] eqn:E1, (r_c2 r) as [[x2 y2] z2] eqn:E2.
  constructor; [|repeat constructor].
  unfold strip_mesh. cbn [mx my mz mi mj mk intensity].
  rewrite <- Ha.
  destruct (ribbon_arrays_lengths (x1, y1, z1) (x2, y2, z2) (r_vi r) (r_vj r)
              scale segments) as (HX & HY & HZ & HC).
  rewrite HX, HY, HZ, HC. rewrite triangles_closed.
  pose proof (strip_triangles_bounds segments) as Hb.
  unfold strip_triangles in *. cbn [fst snd].
  rewrite !length_pairs by reflexivity. rewrite length_range.
  repeat split; try lia. exact Hb.
Qed.
End Task2Mesh.


(* ================================================================= *)
(** * 3D_task_2.py: claims on bookkeeping, buttons and error handling *)

Module Task2Claims.
Import Task2 Task2Spec Task2Book Task2Loops Task2Buttons Task2Builder.

Lemma visible_at_length total indices :
  List.length (visible_at total indices) = total.
Proof. unfold visible_at. now rewrite length_map, length_seq. Qed.

Lemma visible_at_nth total indices i :
  (i < total)%nat ->
  (nth i (visible_at total indices) false = true <-> In i indices).
Proof.
  intros Hi. unfold visible_at.
  rewrite (nth_indep _ false (existsb (Nat.eqb 0) indices))
    by now rewrite length_map, length_seq.
  rewrite (map_nth (fun i => existsb (Nat.eqb i) indices)).
  rewrite seq_nth by exact Hi. simpl. rewrite existsb_exists. split.
  - intros (x & Hx & E). apply Nat.eqb_eq in E. now subst.
  - intros H. exists i. split; [exact H | apply Nat.eqb_refl].
Qed.

(** C10.  Whatever the inputs, in the state the builder ends in the keys of
    [girder_traces] are the five girders and ['Other Elements'], the six
    index lists together hold every trace index of the figure exactly once,
    and an index recorded under a group is the index of a trace that
    carries that group's name, which is the girder owning one of the
    model's elements (['Other Elements'] when no girder lists it).  When
    the builder returns, the figure is one centerline per member followed
    by the ribbon traces of each member, each named after the member's
    owner. *)
Theorem trace_indices_partitioned_by_group nodes members ds result_type segments :
  let out := create_enhanced_3d_diagram nodes members ds result_type segments in
  let s := snd out in
  map fst (girder_traces s)
  = ["Girder 1"; "Girder 2"; "Girder 3"; "Girder 4"; "Girder 5"; "Other Elements"] /\
  Permutation (List.concat (map snd (girder_traces s)))
              (seq 0 (List.length (fig_data s))) /\
  (forall g idx, In idx (traces_of s g) ->
     exists t m, nth_error (fig_data s) idx = Some t /\ trace_name t = g /\
                 In m members /\ g = owner (fst m)) /\
  (fst out = Ok tt ->
   map trace_name (fig_data s)
   = map (fun m => owner (fst m)) members
     ++ flat_map (fun m => map (fun _ => owner (fst m))
                               (element_group nodes members ds result_type segments m))
                 members).
Proof.
  intros out s. destruct (create_partitioned nodes members ds result_type segments)
    as (Hk & Hp & Hn).
  split; [exact Hk | split; [exact Hp | split]].
  - intros g idx Hin. destruct (Hn g idx Hin) as (t & Ht & Hname).
    pose proof (create_names nodes members ds result_type segments) as Hall.
    rewrite Forall_forall in Hall.
    destruct (Hall t (nth_error_In _ _ Ht)) as (m & Hm & Hg).
    exists t, m. repeat split; try assumption.
    rewrite <- girder_of_owner. congruence.
  - apply create_trace_names.
Qed.

Lemma trace_indices_partitioned_by_group_witness :
  exists t m,
    nth_error (fig_data (snd (create_enhanced_3d_diagram
                                ex_nodes ex_members ex_ds "BMD" 2))) 1 = Some t /\
    trace_name t = "Other Elements" /\
    In m ex_members /\ "Other Elements" = owner (fst m).
Proof.
  assert (Hin : In 1%nat (traces_of (snd (create_enhanced_3d_diagram
                                            ex_nodes ex_members ex_ds "BMD" 2))
                                    "Other Elements")).
  { vm_compute. now left. }
  destruct (trace_indices_partitioned_by_group ex_nodes ex_members ex_ds "BMD" 2)
    as (_ & _ & H & _).
  exact (H "Other Elements" 1%nat Hin).
Defined.

(** C9, as the code has it.  When the builder returns, its buttons are, in
    this order: "All Girders" with every trace visible; one button for each
    of the five girders whose visibility list is [True] exactly at the
    indices recorded for that girder; and, only when at least one index is
    recorded under ['Other Elements'], "Transverse Only" with exactly those
    indices visible. *)
Theorem buttons_show_their_group nodes members ds result_type segments :
  let out := create_enhanced_3d_diagram nodes members ds result_type segments in
  let s := snd out in
  let total := List.length (fig_data s) in
  fst out = Ok tt ->
  updatemenus s
  = {| label := "All Girders"; visible := repeat true total |}
    :: map (fun g => {| label := g; visible := visible_at total (traces_of s g) |})
           ["Girder 1"; "Girder 2"; "Girder 3"; "Girder 4"; "Girder 5"]
    ++ match traces_of s "Other Elements" with
       | [] => []
       | indices => [{| label := "Transverse Only";
                        visible := visible_at total indices |}]
       end /\
  (forall g, In g group_names -> sget (girder_traces s) g = Some (traces_of s g)) /\
  (forall indices,
     List.length (visible_at total indices) = total /\
     forall i, (i < total)%nat ->
       (nth i (visible_at total indices) false = true <-> In i indices)).
Proof.
  intros out s total Hok.
  pose proof (create_partitioned nodes members ds result_type segments) as Hp.
  fold out in Hp. fold s in Hp.
  split; [|split].
  - subst total s out. revert Hok. rewrite create_spec.
    destruct (snd (centerlines nodes members)); cbn [fst snd]; [discriminate|].
    intros _. reflexivity.
  - intros g Hg. now apply partitioned_group.
  - intros indices. split; [apply visible_at_length|].
    intros i Hi. now apply visible_at_nth.
Qed.

Lemma buttons_show_their_group_witness :
  map label (updatemenus (snd (create_enhanced_3d_diagram
                                 ex_nodes ex_members ex_ds "BMD" 2)))
  = ["All Girders"; "Girder 1"; "Girder 2"; "Girder 3"; "Girder 4"; "Girder 5";
     "Transverse Only"].
Proof.
  assert (Hok : fst (create_enhanced_3d_diagram ex_nodes ex_members ex_ds "BMD" 2)
                = Ok tt) by (vm_compute; reflexivity).
  destruct (buttons_show_their_group ex_nodes ex_members ex_ds "BMD" 2 Hok)
    as (Hb & _ & _).
  rewrite Hb. vm_compute. reflexivity.
Defined.

(** C9 as stated fails: a model without transverse members gets no
    "Transverse Only" button. *)
Lemma no_transverse_button_without_transverse_members :
  let out := create_enhanced_3d_diagram ex_nodes ex_girder_only ex_ds "BMD" 2 in
  fst out = Ok tt /\
  map label (updatemenus (snd out))
  = ["All Girders"; "Girder 1"; "Girder 2"; "Girder 3"; "Girder 4"; "Girder 5"] /\
  ~ In "Transverse Only" (map label (updatemenus (snd out))).
Proof.
  vm_compute. split; [reflexivity | split; [reflexivity|]].
  intros H. repeat (destruct H as [H|H]; [discriminate H|]). exact H.
Qed.

(** The surface loop itself never raises: an element whose reads or vertex
    loop fail leaves one warning naming it and nothing else. *)
Lemma surface_loop_skips_bad_elements nodes members ds result_type segments s :
  partitioned s ->
  surfaces nodes members ds result_type segments s
  = (Ok tt, after_surfaces nodes members ds result_type segments s) /\
  forall comp_i comp_j scale all_values m e s',
    element_ribbon nodes ds comp_i comp_j scale segments m = Raise e ->
    surface_pure nodes ds comp_i comp_j scale all_values segments s' m
    = set_console (console s' ++ [skip_warning (fst m) e]) s'.
Proof.
  intros Hs. split; [now apply surfaces_spec|].
  intros comp_i comp_j scale all_values m e s' H. unfold surface_pure. now rewrite H.
Qed.

(** C6 fails on the code: a bad node reference raises in the centerline
    loop, which has no [try]; the run ends with that [KeyError], nothing is
    logged, and the surface loop is never reached. *)
Theorem bad_node_reference_aborts_run :
  let out := create_enhanced_3d_diagram ex_nodes ex_bad_members ex_ds "BMD" 50 in
  fst out = Raise (KeyError (KInt 99)) /\
  console (snd out) = [] /\
  updatemenus (snd out) = [] /\
  List.length (fig_data (snd out)) = 1%nat.
Proof. vm_compute. repeat split. Qed.

End Task2Claims.


(* ================================================================= *)
(** * Facts of binary64 arithmetic

    What the statements on the scale factor and on the interpolation need
    of IEEE arithmetic, from the specification of the primitive operations
    ([FloatAxioms]) over [SpecFloat]: the order of the numbers that are not
    NaN, and the products and sums with 0 and 1. *)

Module Binary64.
Import Task2.



(** ** The order *)

Lemma SFcompare_refl x : x <> S754_nan -> SFcompare x x = Some Eq.
Proof.
  destruct x as [s|s| |s m e]; cbn [SFcompare]; try congruence.
  - now destruct s.
  - intros _. change (Pos.compare_cont Eq) with Pos.compare.
    rewrite Z.compare_refl, Pos.compare_refl. now destruct s.
Qed.

Lemma SFcompare_antisym x y :
  SFcompare y x = option_map CompOpp (SFcompare x y).
Proof.
  destruct x as [sx|sx| |sx mx ex], y as [sy|sy| |sy my ey]; simpl; try reflexivity;
    try (destruct sx; reflexivity); try (destruct sy; reflexivity);
    try (destruct sx, sy; reflexivity).
  change (Pos.compare_cont Eq) with Pos.compare.
  destruct sx, sy; simpl; try reflexivity;
    rewrite (Z.compare_antisym ex ey);
    destruct (ex ?= ey); simpl; try reflexivity;
    rewrite (Pos.compare_antisym mx my); reflexivity.
Qed.

Lemma SFleb_trans a b c :
  SFleb a b = true -> SFleb b c = true -> SFleb a c = true.
Proof.
  unfold SFleb.
  destruct a as [sa|sa| |sa ma ea], b as [sb|sb| |sb mb eb], c as [sc|sc| |sc mc ec];
    simpl; try discriminate; try reflexivity;
    try (destruct sa; simpl; try discriminate; try reflexivity);
    try (destruct sb; simpl; try discriminate; try reflexivity);
    try (destruct sc; simpl; try discriminate; try reflexivity).
  all: change (Pos.compare_cont Eq) with Pos.compare.
  all: intros H1 H2.
  all: destruct (Z.compare_spec ea eb), (Z.compare_spec eb ec), (Z.compare_spec ea ec);
    try lia; try discriminate; try reflexivity; subst.
  all: destruct (Pos.compare_spec ma mb), (Pos.compare_spec mb mc),
         (Pos.compare_spec ma mc);
    simpl in *; try lia; try discriminate; try reflexivity.
Qed.


Lemma is_nan_spec (x : float) : is_nan x = true <-> Prim2SF x = S754_nan.
Proof.
  unfold is_nan. rewrite FloatAxioms.eqb_spec. unfold SFeqb. split.
  - intros H. destruct (Prim2SF x) eqn:E; try reflexivity;
      rewrite SFcompare_refl in H by discriminate; discriminate H.
  - intros ->. reflexivity.
Qed.

Lemma not_nan_spec (x : float) : is_nan x = false <-> Prim2SF x <> S754_nan.
Proof.
  split.
  - intros H E. apply is_nan_spec in E. congruence.
  - intros H. destruct (is_nan x) eqn:N; [|reflexivity].
    apply is_nan_spec in N. contradiction.
Qed.

Lemma leb_refl (x : float) : is_nan x = false -> (x <=? x)%float = true.
Proof.
  intros H. apply not_nan_spec in H. rewrite FloatAxioms.leb_spec. unfold SFleb.
  now rewrite SFcompare_refl.
Qed.

Lemma leb_trans (a b c : float) :
  (a <=? b)%float = true -> (b <=? c)%float = true -> (a <=? c)%float = true.
Proof. rewrite !FloatAxioms.leb_spec. apply SFleb_trans. Qed.


Lemma ltb_leb (a b : float) : (a <? b)%float = true -> (a <=? b)%float = true.
Proof.
  rewrite FloatAxioms.ltb_spec, FloatAxioms.leb_spec. unfold SFltb, SFleb.
  destruct (SFcompare (Prim2SF a) (Prim2SF b)) as [[]|]; congruence.
Qed.

(** Away from NaN the order is total: a number that is not below another
    is at least that other. *)
Lemma not_ltb_leb (a b : float) :
  is_nan a = false -> is_nan b = false ->
  (a <? b)%float = false -> (b <=? a)%float = true.
Proof.
  intros Ha Hb. apply not_nan_spec in Ha, Hb.
  rewrite FloatAxioms.ltb_spec, FloatAxioms.leb_spec. unfold SFltb, SFleb.
  rewrite (SFcompare_antisym (Prim2SF a) (Prim2SF b)).
  destruct (SFcompare (Prim2SF a) (Prim2SF b)) as [[]|] eqn:E; simpl;
    try congruence.
  destruct (Prim2SF a), (Prim2SF b); simpl in E; congruence.
Qed.

Lemma leb_not_nan (a b : float) :
  (a <=? b)%float = true -> is_nan a = false /\ is_nan b = false.
Proof.
  rewrite FloatAxioms.leb_spec, !not_nan_spec. unfold SFleb.
  destruct (Prim2SF a), (Prim2SF b); simpl; try discriminate; split; discriminate.
Qed.

Lemma abs_not_nan (x : float) : is_nan x = false -> is_nan (abs x) = false.
Proof.
  rewrite !not_nan_spec, FloatAxioms.abs_spec. destruct (Prim2SF x); simpl; congruence.
Qed.




(** ** Python's [max] and [min] *)

Lemma fmax_choice (m x : float) : fmax m x = m \/ fmax m x = x.
Proof. unfold fmax. destruct (fltb m x); auto. Qed.

Lemma fmin_choice (m x : float) : fmin m x = m \/ fmin m x = x.
Proof. unfold fmin. destruct (fltb x m); auto. Qed.

Lemma fmax_upper (m x : float) :
  is_nan m = false -> is_nan x = false ->
  (m <=? fmax m x)%float = true /\ (x <=? fmax m x)%float = true.
Proof.
  intros Hm Hx. unfold fmax, fltb. destruct (m <? x)%float eqn:E.
  - split; [now apply ltb_leb | now apply leb_refl].
  - split; [now apply leb_refl | now apply not_ltb_leb].
Qed.

Lemma fmin_lower (m x : float) :
  is_nan m = false -> is_nan x = false ->
  (fmin m x <=? m)%float = true /\ (fmin m x <=? x)%float = true.
Proof.
  intros Hm Hx. unfold fmin, fltb. destruct (x <? m)%float eqn:E.
  - split; [now apply ltb_leb | now apply leb_refl].
  - split; [now apply leb_refl | now apply not_ltb_leb].
Qed.

(** The candidate kept by [max] is one of the values, in any case; when
    none of them is NaN it is not below any of them. *)
Lemma fold_fmax_in (l : list float) (a : float) : In (fold_left fmax l a) (a :: l).
Proof.
  revert a. induction l as [|x l IH]; intros a; [now left|].
  cbn [fold_left]. destruct (IH (fmax a x)) as [E|Hin]; [|right; now right].
  rewrite <- E. destruct (fmax_choice a x) as [->| ->]; [now left | right; now left].
Qed.

Lemma fold_fmin_in (l : list float) (a : float) : In (fold_left fmin l a) (a :: l).
Proof.
  revert a. induction l as [|x l IH]; intros a; [now left|].
  cbn [fold_left]. destruct (IH (fmin a x)) as [E|Hin]; [|right; now right].
  rewrite <- E. destruct (fmin_choice a x) as [->| ->]; [now left | right; now left].
Qed.

Lemma fold_fmax_upper (l : list float) (a : float) :
  Forall (fun v => is_nan v = false) (a :: l) ->
  forall v, In v (a :: l) -> (v <=? fold_left fmax l a)%float = true.
Proof.
  revert a. induction l as [|x l IH]; intros a H v Hv.
  - destruct Hv as [<-|[]]. apply leb_refl. now inversion H.
  - inversion H as [|? ? Ha H']; subst. inversion H' as [|? ? Hx Hl]; subst.
    cbn [fold_left].
    assert (Hm : is_nan (fmax a x) = false).
    { destruct (fmax_choice a x) as [->| ->]; assumption. }
    destruct (fmax_upper a x Ha Hx) as [Ua Ux].
    specialize (IH (fmax a x) (Forall_cons _ Hm Hl)).
    destruct Hv as [<-|[<-|Hv]].
    + eapply leb_trans; [exact Ua | apply IH; now left].
    + eapply leb_trans; [exact Ux | apply IH; now left].
    + apply IH. now right.
Qed.

Lemma fold_fmin_lower (l : list float) (a : float) :
  Forall (fun v => is_nan v = false) (a :: l) ->
  forall v, In v (a :: l) -> (fold_left fmin l a <=? v)%float = true.
Proof.
  revert a. induction l as [|x l IH]; intros a H v Hv.
  - destruct Hv as [<-|[]]. apply leb_refl. now inversion H.
  - inversion H as [|? ? Ha H']; subst. inversion H' as [|? ? Hx Hl]; subst.
    cbn [fold_left].
    assert (Hm : is_nan (fmin a x) = false).
    { destruct (fmin_choice a x) as [->| ->]; assumption. }
    destruct (fmin_lower a x Ha Hx) as [La Lx].
    specialize (IH (fmin a x) (Forall_cons _ Hm Hl)).
    destruct Hv as [<-|[<-|Hv]].
    + eapply leb_trans; [apply IH; now left | exact La].
    + eapply leb_trans; [apply IH; now left | exact Lx].
    + apply IH. now right.
Qed.

(** ** Products and sums with 0 and 1 *)








(** ** The interpolation at its two ends *)



End Binary64.


(* ================================================================= *)
(** * 3D_task_2.py: claims on the ribbon of one element *)

Module Task2Ribbon.
Import Task2 Task2Spec Task2Book Task2Loops Task2Buttons Task2Builder Task2Mesh.




Local Open Scope Z_scope.

(** C5.  For a segment count [S >= 1] the vertex loop always succeeds, and
    every mesh of the figure has [2 * (S + 1)] vertices (x, y, z and
    intensity arrays alike) and [2 * S] triangles, namely
    [(2i, 2i+1, 2i+2)] and [(2i+1, 2i+3, 2i+2)] for each segment [i], whose
    indices all lie in [0 .. 2 * (S + 1) - 1]. *)
Theorem mesh_is_triangle_strip nodes members ds result_type segments :
  1 <= segments ->
  (forall c1 c2 v_i v_j scale,
     is_ok (mesh_arrays c1 c2 v_i v_j scale segments) = true) /\
  forall mesh,
    In (Mesh3d mesh)
       (fig_data (snd (create_enhanced_3d_diagram
                         nodes members ds result_type segments))) ->
    Z.of_nat (List.length (mx mesh)) = 2 * (segments + 1) /\
    Z.of_nat (List.length (my mesh)) = 2 * (segments + 1) /\
    Z.of_nat (List.length (mz mesh)) = 2 * (segments + 1) /\
    Z.of_nat (List.length (intensity mesh)) = 2 * (segments + 1) /\
    Z.of_nat (List.length (mi mesh)) = 2 * segments /\
    Z.of_nat (List.length (mj mesh)) = 2 * segments /\
    Z.of_nat (List.length (mk mesh)) = 2 * segments /\
    mi mesh = flat_map (fun i => [i * 2; i * 2 + 1]) (range segments) /\
    mj mesh = flat_map (fun i => [i * 2 + 1; i * 2 + 3]) (range segments) /\
    mk mesh = flat_map (fun i => [i * 2 + 2; i * 2 + 2]) (range segments) /\
    Forall (fun idx => 0 <= idx < 2 * (segments + 1))
           (mi mesh ++ mj mesh ++ mk mesh).
Proof.
  intros HS. split.
  - intros c1 c2 v_i v_j scale. now rewrite mesh_arrays_closed by lia.
  - intros mesh Hin.
    assert (H : Forall (fun t => match t with
                                 | Mesh3d mesh => strip_mesh segments mesh
                                 | Scatter3d _ => True
                                 end)
                       (fig_data (snd (create_enhanced_3d_diagram
                                         nodes members ds result_type segments)))).
    { apply create_forall.
      - apply Forall_forall. intros t Ht.
        pose proof (centerlines_names nodes members) as Hn.
        clear Hn. revert t Ht. generalize members as l.
        induction l as [|[eid [ni nj]] l IH]; simpl; [intros t []|].
        destruct (zitem nodes ni) as [[[x1 y1] z1]|]; [|intros t []].
        destruct (zitem nodes nj) as [[[x2 y2] z2]|]; [|intros t []].
        destruct (centerlines nodes l) as [ts r]. simpl in *.
        intros t [<-|Ht]; [exact Logic.I | now apply IH].
      - intros [eid [ni nj]] r b1 b2 _ Hr.
        apply element_ribbon_parts in Hr. destruct Hr as (_ & _ & _ & _ & Ha).
        now apply ribbon_mesh_is_strip. }
    rewrite Forall_forall in H. specialize (H _ Hin). cbv beta iota in H.
    destruct H as (H1 & H2 & H3 & H4 & H5 & H6 & H7 & H8 & H9).
    unfold strip_triangles in H8. injection H8 as Hi Hj Hk.
    repeat split; assumption.
Qed.

Lemma mesh_is_triangle_strip_witness :
  exists mesh,
    nth_error (fig_data (snd (create_enhanced_3d_diagram
                                ex_nodes ex_members ex_ds "BMD" 2))) 2
    = Some (Mesh3d mesh) /\
    Z.of_nat (List.length (mx mesh)) = 6 /\
    Z.of_nat (List.length (mi mesh)) = 4.
Proof.
  assert (HS : 1 <= 2) by lia.
  destruct (mesh_is_triangle_strip ex_nodes ex_members ex_ds "BMD" 2 HS) as [_ H].
  destruct (nth_error (fig_data (snd (create_enhanced_3d_diagram
                                        ex_nodes ex_members ex_ds "BMD" 2))) 2)
    as [[s|mesh]|] eqn:E; [vm_compute in E; discriminate E | | vm_compute in E; discriminate E].
  exists mesh. split; [reflexivity|].
  destruct (H mesh (nth_error_In _ _ E)) as (H1 & _ & _ & _ & H5 & _).
  split; [exact H1 | exact H5].
Defined.

End Task2Ribbon.

(* ================================================================= *)
(** * 3D_task_2.py: the scale factor *)

Module Task2Scale.
Import Task2 Task2Spec Task2Buttons.




Lemma all_values_flat members ds result_type :
  all_values_of members ds result_type
  = flat_map (end_values ds (fst (components result_type))
                         (snd (components result_type))) members.
Proof.
  unfold all_values_of. destruct (components result_type) as [ci cj].
  apply collect_values_flat.
Qed.







End Task2Scale.


(* ================================================================= *)
(** * 3D_task_2.py: a run with one force record missing *)

Module Task2Skip.
Import Task2 Task2Spec Task2Book Task2Loops Task2Buttons Task2Builder Task2Mesh.

Lemma evens_pairs {A} (f g : Z -> A) l :
  evens (flat_map (fun i => [f i; g i]) l) = map f l.
Proof. induction l as [|i l IH]; simpl; [reflexivity | now rewrite IH]. Qed.

(** The group of one member, read off the inputs. *)
Lemma element_group_closed nodes members ds result_type segments eid ni nj :
  segments <> 0 ->
  element_group nodes members ds result_type segments (eid, (ni, nj))
  = match zitem nodes ni, zitem nodes nj,
          sel ds eid (fst (components result_type)),
          sel ds eid (snd (components result_type)) with
    | Ok c1, Ok c2, Ok v_i, Ok v_j =>
        ribbon_traces (eid, (ni, nj))
          {| r_c1 := c1; r_c2 := c2; r_vi := v_i; r_vj := v_j;
             r_arrays := ribbon_arrays c1 c2 v_i v_j
                           (scale_factor members ds result_type) segments |}
          (scale_factor members ds result_type)
          (all_values_of members ds result_type) segments false false
    | _, _, _, _ => []
    end.
Proof.
  intros HS. unfold element_group, element_ribbon.
  destruct (zitem nodes ni) as [c1|]; [|reflexivity].
  destruct (zitem nodes nj) as [c2|]; [|reflexivity].
  destruct (sel ds eid _) as [v_i|]; [|reflexivity].
  destruct (sel ds eid _) as [v_j|]; [|reflexivity].
  now rewrite mesh_arrays_closed by exact HS.
Qed.

Lemma element_group_zero nodes members ds result_type m :
  element_group nodes members ds result_type 0 m = [].
Proof.
  destruct m as [eid [ni nj]]. unfold element_group, element_ribbon.
  destruct (zitem nodes ni) as [c1|]; [|reflexivity].
  destruct (zitem nodes nj) as [c2|]; [|reflexivity].
  destruct (sel ds eid _) as [v_i|]; [|reflexivity].
  destruct (sel ds eid _) as [v_j|]; [|reflexivity].
  now rewrite mesh_arrays_zero.
Qed.

Lemma element_group_missing nodes members ds result_type segments e m :
  (forall c, is_ok (sel ds e c) = false) -> fst m = e ->
  element_group nodes members ds result_type segments m = [].
Proof.
  intros Hmiss <-. destruct m as [eid [ni nj]]. cbn [fst] in *.
  unfold element_group, element_ribbon.
  destruct (zitem nodes ni) as [c1|]; [|reflexivity].
  destruct (zitem nodes nj) as [c2|]; [|reflexivity].
  pose proof (Hmiss (fst (components result_type))) as H.
  destruct (sel ds eid (fst (components result_type))); [discriminate H | reflexivity].
Qed.

Lemma ribbon_undisplaced m c1 c2 v_i v_j segments scale1 scale2 av1 av2 :
  map undisplaced
    (ribbon_traces m {| r_c1 := c1; r_c2 := c2; r_vi := v_i; r_vj := v_j;
                        r_arrays := ribbon_arrays c1 c2 v_i v_j scale2 segments |}
                   scale2 av2 segments false false)
  = map undisplaced
    (ribbon_traces m {| r_c1 := c1; r_c2 := c2; r_vi := v_i; r_vj := v_j;
                        r_arrays := ribbon_arrays c1 c2 v_i v_j scale1 segments |}
                   scale1 av1 segments false false).
Proof.
  destruct m as [eid [ni nj]], c1 as [[x1 y1] z1], c2 as [[x2 y2] z2].
  unfold ribbon_traces, ribbon_arrays, step_arrays, edge.
  cbn [r_c1 r_c2 r_vi r_vj r_arrays map undisplaced trace_x trace_z baseline
       trace_intensity trace_triangles X Y Z_ C mx my mz mi mj mk intensity sx sz].
  cbv zeta. unfold undisplaced, baseline, trace_x, trace_z, trace_intensity, trace_triangles.
  cbn [mx my mz mi mj mk intensity sx sz]. rewrite !evens_pairs. reflexivity.
Qed.

Lemma ribbon_displaced m c1 c2 v_i v_j segments scale av1 av2 :
  map displaced
    (ribbon_traces m {| r_c1 := c1; r_c2 := c2; r_vi := v_i; r_vj := v_j;
                        r_arrays := ribbon_arrays c1 c2 v_i v_j scale segments |}
                   scale av2 segments false false)
  = map displaced
    (ribbon_traces m {| r_c1 := c1; r_c2 := c2; r_vi := v_i; r_vj := v_j;
                        r_arrays := ribbon_arrays c1 c2 v_i v_j scale segments |}
                   scale av1 segments false false).
Proof.
  destruct m as [eid [ni nj]], c1 as [[x1 y1] z1], c2 as [[x2 y2] z2]. reflexivity.
Qed.

Lemma other_group_agrees nodes members ds1 ds2 result_type segments e m :
  missing_in e ds1 ds2 -> fst m <> e ->
  map undisplaced (element_group nodes members ds2 result_type segments m)
  = map undisplaced (element_group nodes members ds1 result_type segments m) /\
  (scale_factor members ds2 result_type = scale_factor members ds1 result_type ->
   map displaced (element_group nodes members ds2 result_type segments m)
   = map displaced (element_group nodes members ds1 result_type segments m)).
Proof.
  intros [_ Hsame] Hne. destruct (Z.eq_dec segments 0) as [->|HS].
  - rewrite !element_group_zero. split; reflexivity.
  - destruct m as [eid [ni nj]]. cbn [fst] in Hne.
    rewrite !element_group_closed by exact HS.
    rewrite !(Hsame eid _ Hne).
    destruct (zitem nodes ni) as [c1|]; [|split; reflexivity].
    destruct (zitem nodes nj) as [c2|]; [|split; reflexivity].
    destruct (sel ds1 eid (fst (components result_type))) as [v_i|]; [|split; reflexivity].
    destruct (sel ds1 eid (snd (components result_type))) as [v_j|]; [|split; reflexivity].
    split; [apply ribbon_undisplaced|].
    intros ->. apply ribbon_displaced.
Qed.

Lemma ex_missing : missing_in 13 ex_ds ex_ds_without_13.
Proof.
  split.
  - intros c. reflexivity.
  - intros e' c Hne. unfold sel. cbn [Element Component ex_ds ex_ds_without_13 existsb values].
    destruct (Z.eqb_spec e' 13); [contradiction | reflexivity].
Qed.

(** C2, as the code has it.  Both runs complete; each figure is the
    centerlines followed by one group of traces per member, in member
    order (legend and colour-bar flags aside).  In the second run the
    group of the element without force record is empty.  Every other
    member's group has the same x and z coordinates, undisplaced
    transverse coordinates, colour intensities and triangles in both runs,
    and the same displaced transverse coordinates whenever the two runs
    compute the same scale factor. *)
Theorem skipped_element_leaves_others_up_to_scale
    nodes members ds1 ds2 result_type segments e :
  missing_in e ds1 ds2 ->
  fst (create_enhanced_3d_diagram nodes members ds1 result_type segments) = Ok tt ->
  let out1 := create_enhanced_3d_diagram nodes members ds1 result_type segments in
  let out2 := create_enhanced_3d_diagram nodes members ds2 result_type segments in
  let group1 := element_group nodes members ds1 result_type segments in
  let group2 := element_group nodes members ds2 result_type segments in
  fst out2 = Ok tt /\
  map unflag (fig_data (snd out1))
  = fst (centerlines nodes members) ++ flat_map group1 members /\
  map unflag (fig_data (snd out2))
  = fst (centerlines nodes members) ++ flat_map group2 members /\
  forall m,
    (fst m = e -> group2 m = []) /\
    (fst m <> e ->
       map undisplaced (group2 m) = map undisplaced (group1 m) /\
       (scale_factor members ds2 result_type = scale_factor members ds1 result_type ->
        map displaced (group2 m) = map displaced (group1 m))).
Proof.
  intros Hmiss Hok out1 out2 group1 group2.
  assert (Hok2 : fst out2 = Ok tt).
  { subst out2. rewrite create_ok_iff. rewrite create_ok_iff in Hok. exact Hok. }
  split; [exact Hok2|]. split; [now apply create_layout|].
  split; [now apply create_layout|].
  intros m. split.
  - intros Hm. eapply element_group_missing; [apply Hmiss | exact Hm].
  - intros Hm. eapply other_group_agrees; eassumption.
Qed.

Lemma skipped_element_leaves_others_up_to_scale_witness :
  element_group ex_nodes ex_members ex_ds_without_13 "BMD" 2 (13, (1, 11)) = [] /\
  map undisplaced (element_group ex_nodes ex_members ex_ds_without_13 "BMD" 2 (101, (1, 2)))
  = map undisplaced (element_group ex_nodes ex_members ex_ds "BMD" 2 (101, (1, 2))).
Proof.
  assert (Hok : fst (create_enhanced_3d_diagram ex_nodes ex_members ex_ds "BMD" 2)
                = Ok tt) by (vm_compute; reflexivity).
  destruct (skipped_element_leaves_others_up_to_scale
              ex_nodes ex_members ex_ds ex_ds_without_13 "BMD" 2 13 ex_missing Hok)
    as (_ & _ & _ & H).
  split.
  - apply (proj1 (H (13, (1, 11)))). reflexivity.
  - apply (proj2 (H (101, (1, 2)))). discriminate.
Defined.

(** C2 as stated fails: without the record of element 13, whose end value
    10 is the largest, the scale grows from 1.8 / 10 to 1.8 and the
    displaced coordinates of element 101 change. *)
Lemma skipping_largest_element_rescales_others :
  let fig1 := fig_data (snd (create_enhanced_3d_diagram ex_nodes ex_members ex_ds "BMD" 2)) in
  let fig2 := fig_data (snd (create_enhanced_3d_diagram
                               ex_nodes ex_members ex_ds_without_13 "BMD" 2)) in
  missing_in 13 ex_ds ex_ds_without_13 /\
  option_map hover_element (mesh_at fig1 6) = Some 101 /\
  option_map hover_element (mesh_at fig2 2) = Some 101 /\
  option_map my (mesh_at fig1 6)
  = Some [0; 0.17999999999999999; 1; 1.1799999999999999;
          2; 2.1800000000000002]%float /\
  option_map my (mesh_at fig2 2)
  = Some [0; 1.8; 1; 2.7999999999999998; 2; 3.7999999999999998]%float /\
  option_map my (mesh_at fig1 6) <> option_map my (mesh_at fig2 2).
Proof.
  intros fig1 fig2. split; [exact ex_missing|].
  split; [vm_compute; reflexivity|]. split; [vm_compute; reflexivity|].
  split; [vm_compute; reflexivity|]. split; [vm_compute; reflexivity|].
  intros E.
  apply (f_equal (option_map (fun l => (nth 1 l f0 =? 1.8)%float))) in E.
  vm_compute in E. discriminate E.
Qed.
End Task2Skip.


(* ================================================================= *)
(** * 3D_task_2.py: when the builder returns, and what it logs *)

Module Task2Outcome.
Import Task2 Task2Spec Task2More Task2Book Task2Loops Task2Buttons Task2Builder
       Task2Mesh.

Lemma fold_left_ind {A B} (f : A -> B -> A) (P : list B -> A -> Prop) l a :
  P [] a ->
  (forall done b a', P done a' -> P (done ++ [b]) (f a' b)) ->
  P l (fold_left f l a).
Proof.
  intros H0 Hstep.
  assert (G : forall done a', P done a' -> P (done ++ l) (fold_left f l a')).
  { induction l as [|b l IH]; intros done a' H; simpl.
    - now rewrite app_nil_r.
    - replace (done ++ b :: l) with ((done ++ [b]) ++ l)
        by now rewrite <- app_assoc.
      apply IH. now apply Hstep. }
  exact (G [] a H0).
Qed.

Lemma nodes_resolve_items nodes eid ni nj :
  nodes_resolve nodes (eid, (ni, nj)) = true ->
  exists c1 c2, zitem nodes ni = Ok c1 /\ zitem nodes nj = Ok c2.
Proof.
  unfold nodes_resolve, zitem. cbn [fst snd].
  destruct (zget nodes ni) as [c1|]; [|discriminate].
  destruct (zget nodes nj) as [c2|]; [|discriminate].
  intros _. now exists c1, c2.
Qed.

Lemma centerlines_complete nodes l :
  forallb (nodes_resolve nodes) l = true ->
  snd (centerlines nodes l) = None /\
  List.length (fst (centerlines nodes l)) = List.length l.
Proof.
  induction l as [|[eid [ni nj]] l IH]; [now split|].
  cbn [forallb]. intros [Hm Hl]%andb_prop.
  destruct (nodes_resolve_items _ _ _ _ Hm) as (c1 & c2 & H1 & H2).
  cbn [centerlines]. rewrite H1, H2.
  destruct (IH Hl) as [Hr Hn]. destruct (centerlines nodes l) as [ts r].
  cbn [fst snd] in *. split; [exact Hr | simpl; now rewrite Hn].
Qed.

Lemma centerlines_stop nodes (pre : list member) (m : member) post n :
  forallb (nodes_resolve nodes) pre = true ->
  missing_node nodes m = Some n ->
  snd (centerlines nodes (pre ++ m :: post)) = Some (KeyError (KInt n)) /\
  List.length (fst (centerlines nodes (pre ++ m :: post))) = List.length pre.
Proof.
  intros Hpre Hm. induction pre as [|[e [a b]] pre IH].
  - destruct m as [eid [ni nj]].
    cbn [app centerlines]. unfold missing_node, zitem in *. cbn [fst snd] in Hm.
    destruct (zget nodes ni); [|injection Hm as <-; now split].
    destruct (zget nodes nj); [discriminate | injection Hm as <-; now split].
  - cbn [forallb] in Hpre. apply andb_prop in Hpre. destruct Hpre as [Hh Hpre].
    destruct (nodes_resolve_items _ _ _ _ Hh) as (c1 & c2 & H1 & H2).
    cbn [app centerlines]. rewrite H1, H2.
    destruct (IH Hpre) as [Hr Hn].
    destruct (centerlines nodes (pre ++ m :: post)) as [ts r].
    cbn [fst snd] in *. split; [exact Hr | simpl; now rewrite Hn].
Qed.

Lemma centerlines_resolved nodes l :
  snd (centerlines nodes l) = None -> forallb (nodes_resolve nodes) l = true.
Proof.
  induction l as [|[eid [ni nj]] l IH]; [reflexivity|].
  cbn [centerlines forallb]. unfold nodes_resolve, zitem. cbn [fst snd].
  destruct (zget nodes ni); [|discriminate].
  destruct (zget nodes nj); [|discriminate].
  destruct (centerlines nodes l) as [ts r]. cbn [snd] in *. intros H. now apply IH.
Qed.

(** X1.  The builder returns exactly when every member's two nodes are in the
    node table, whatever the dataset, the result type and the segment
    count.  Otherwise it raises the [KeyError] of the first node id that is
    missing, having drawn only the centerlines of the members before it:
    nothing is logged and no button is made. *)
Theorem builder_returns_iff_nodes_resolve nodes members ds result_type segments :
  let out := create_enhanced_3d_diagram nodes members ds result_type segments in
  (fst out = Ok tt <-> forallb (nodes_resolve nodes) members = true) /\
  (forall (pre : list member) (m : member) (post : list member) n,
     members = pre ++ m :: post ->
     forallb (nodes_resolve nodes) pre = true ->
     missing_node nodes m = Some n ->
     fst out = Raise (KeyError (KInt n)) /\
     List.length (fig_data (snd out)) = List.length pre /\
     Forall (fun t => is_scatter t = true) (fig_data (snd out)) /\
     console (snd out) = [] /\
     updatemenus (snd out) = []).
Proof.
  intros out. split.
  - subst out. rewrite create_ok_iff. split.
    + intros H. apply centerlines_resolved.
      destruct (snd (centerlines nodes members)); [discriminate | reflexivity].
    + intros H. now rewrite (proj1 (centerlines_complete nodes members H)).
  - intros pre m post n -> Hpre Hm. subst out. rewrite create_spec.
    destruct (centerlines_stop nodes pre m post n Hpre Hm) as [Hr Hn].
    rewrite Hr. cbn [fst snd]. rewrite pushes_fig_data. cbn [initial fig_data app].
    destruct (pushes_other_fields
                (fst (centerlines nodes (pre ++ m :: post))) initial)
      as (_ & _ & Hc & Hu).
    repeat split; try assumption.
    clear. generalize (pre ++ m :: post) as l.
    induction l as [|[e [a b]] l IH]; simpl; [constructor|].
    destruct (zitem nodes a) as [[[x1 y1] z1]|]; [|constructor].
    destruct (zitem nodes b) as [[[x2 y2] z2]|]; [|constructor].
    destruct (centerlines nodes l) as [ts r]. cbn [fst] in *.
    constructor; [reflexivity | exact IH].
Qed.

Lemma builder_returns_iff_nodes_resolve_witness :
  fst (create_enhanced_3d_diagram ex_nodes ex_bad_members ex_ds "SFD" 7)
  = Raise (KeyError (KInt 99)) /\
  List.length (fig_data (snd (create_enhanced_3d_diagram
                                ex_nodes ex_bad_members ex_ds "SFD" 7))) = 1%nat.
Proof.
  assert (Hpre : forallb (nodes_resolve ex_nodes) [(13, (1, 11))] = true)
    by reflexivity.
  assert (Hm : missing_node ex_nodes (101, (1, 99)) = Some 99) by reflexivity.
  destruct (proj2 (builder_returns_iff_nodes_resolve
                     ex_nodes ex_bad_members ex_ds "SFD" 7)
                  [(13, (1, 11))] (101, (1, 99)) [] 99 eq_refl Hpre Hm)
    as (Hr & Hn & _).
  split; [exact Hr | exact Hn].
Defined.

(** *** The surface loop after the centerlines *)

Lemma element_ribbon_skipped nodes ds comp_i comp_j scale segments eid ni nj c1 c2 :
  zitem nodes ni = Ok c1 -> zitem nodes nj = Ok c2 ->
  element_ribbon nodes ds comp_i comp_j scale segments (eid, (ni, nj))
  = match skip_reason ds comp_i comp_j segments eid with
    | Some e => Raise e
    | None =>
        match sel ds eid comp_i, sel ds eid comp_j with
        | Ok v_i, Ok v_j =>
            Ok {| r_c1 := c1; r_c2 := c2; r_vi := v_i; r_vj := v_j;
                  r_arrays := ribbon_arrays c1 c2 v_i v_j scale segments |}
        | _, _ => Raise ValueError
        end
    end.
Proof.
  intros H1 H2. unfold element_ribbon, skip_reason. rewrite H1, H2.
  destruct (sel ds eid comp_i) as [v_i|]; [|reflexivity].
  destruct (sel ds eid comp_j) as [v_j|]; [|reflexivity].
  destruct (Z.eqb_spec segments 0) as [->|HS].
  - now rewrite mesh_arrays_zero.
  - now rewrite mesh_arrays_closed.
Qed.

Lemma element_ribbon_drawn nodes ds comp_i comp_j scale segments m :
  nodes_resolve nodes m = true ->
  match element_ribbon nodes ds comp_i comp_j scale segments m with
  | Ok _ => skip_reason ds comp_i comp_j segments (fst m) = None
  | Raise e => skip_reason ds comp_i comp_j segments (fst m) = Some e
  end.
Proof.
  destruct m as [eid [ni nj]]. intros Hm.
  destruct (nodes_resolve_items _ _ _ _ Hm) as (c1 & c2 & H1 & H2).
  rewrite (element_ribbon_skipped _ _ _ _ _ _ _ _ _ _ _ H1 H2). cbn [fst].
  unfold skip_reason.
  destruct (sel ds eid comp_i); [|reflexivity].
  destruct (sel ds eid comp_j); [|reflexivity].
  destruct (segments =? 0); reflexivity.
Qed.


Lemma fold_left_ind_in {A B} (f : A -> B -> A) (P : list B -> A -> Prop) l a :
  P [] a ->
  (forall done b a', In b l -> P done a' -> P (done ++ [b]) (f a' b)) ->
  P l (fold_left f l a).
Proof.
  intros H0 Hstep.
  assert (G : forall rest done a',
             incl rest l -> P done a' -> P (done ++ rest) (fold_left f rest a')).
  { induction rest as [|b rest IH]; intros done a' Hincl H; simpl.
    - now rewrite app_nil_r.
    - replace (done ++ b :: rest) with ((done ++ [b]) ++ rest)
        by now rewrite <- app_assoc.
      apply IH.
      + intros x Hx. apply Hincl. now right.
      + apply Hstep; [apply Hincl; now left | exact H]. }
  exact (G l [] a (incl_refl l) H0).
Qed.

Lemma meshes_app a b : meshes (a ++ b) = meshes a ++ meshes b.
Proof.
  induction a as [|[s|m] a IH]; simpl; [reflexivity | exact IH | now rewrite IH].
Qed.

Lemma meshes_centerlines nodes l : meshes (fst (centerlines nodes l)) = [].
Proof.
  induction l as [|[e [a b]] l IH]; simpl; [reflexivity|].
  destruct (zitem nodes a) as [[[x1 y1] z1]|]; [|reflexivity].
  destruct (zitem nodes b) as [[[x2 y2] z2]|]; [|reflexivity].
  destruct (centerlines nodes l) as [ts r]. exact IH.
Qed.

Lemma ribbon_traces_length m r scale all_values segments b1 b2 :
  List.length (ribbon_traces m r scale all_values segments b1 b2) = 4%nat.
Proof.
  destruct m as [eid [ni nj]]. unfold ribbon_traces.
  destruct (r_c1 r) as [[x1 y1] z1], (r_c2 r) as [[x2 y2] z2]. reflexivity.
Qed.

Lemma ribbon_traces_meshes m r scale all_values segments b1 b2 :
  exists mesh,
    meshes (ribbon_traces m r scale all_values segments b1 b2) = [mesh] /\
    m_name mesh = girder_of (fst m) /\
    m_showlegend mesh = b1 /\ showscale mesh = b2.
Proof.
  destruct m as [eid [ni nj]]. unfold ribbon_traces.
  destruct (r_c1 r) as [[x1 y1] z1], (r_c2 r) as [[x2 y2] z2].
  eexists. split; [reflexivity|]. repeat split.
Qed.

Lemma filter_snoc {A} (f : A -> bool) l a :
  filter f (l ++ [a]) = filter f l ++ (if f a then [a] else []).
Proof. rewrite filter_app. reflexivity. Qed.

Lemma flat_map_snoc {A B} (f : A -> list B) l a :
  flat_map f (l ++ [a]) = flat_map f l ++ f a.
Proof. rewrite flat_map_app. simpl. now rewrite app_nil_r. Qed.

(** What the surface loop has done after a list of members whose nodes
    resolve. *)
Lemma surface_fold_tally nodes ds result_type scale all_values segments l s0 :
  forallb (nodes_resolve nodes) l = true ->
  let s := fold_left
             (surface_pure nodes ds (fst (components result_type))
                           (snd (components result_type)) scale all_values segments)
             l s0 in
  console s = console s0 ++ flat_map (warning_of ds result_type segments) l /\
  element_count s
  = (element_count s0 + List.length (filter (drawn ds result_type segments) l))%nat /\
  List.length (fig_data s)
  = (List.length (fig_data s0)
     + 4 * List.length (filter (drawn ds result_type segments) l))%nat /\
  List.length (meshes (fig_data s))
  = (List.length (meshes (fig_data s0))
     + List.length (filter (drawn ds result_type segments) l))%nat.
Proof.
  intros Hres. cbv zeta.
  apply (fold_left_ind_in _
    (fun done s =>
       console s = console s0 ++ flat_map (warning_of ds result_type segments) done /\
       element_count s
       = (element_count s0
          + List.length (filter (drawn ds result_type segments) done))%nat /\
       List.length (fig_data s)
       = (List.length (fig_data s0)
          + 4 * List.length (filter (drawn ds result_type segments) done))%nat /\
       List.length (meshes (fig_data s))
       = (List.length (meshes (fig_data s0))
          + List.length (filter (drawn ds result_type segments) done))%nat)).
  - cbv beta. cbn [filter flat_map List.length]. rewrite app_nil_r.
    split; [reflexivity | split; [lia | split; lia]].
  - cbv beta. intros done m s Hin (Hc & He & Hf & Hm).
    rewrite forallb_forall in Hres. specialize (Hres m Hin).
    pose proof (element_ribbon_drawn nodes ds (fst (components result_type))
                  (snd (components result_type)) scale segments m Hres) as Hd.
    rewrite filter_snoc, flat_map_snoc. unfold surface_pure.
    destruct (element_ribbon _ _ _ _ _ _ m) as [r|e].
    + assert (Hdr : drawn ds result_type segments m = true)
        by (unfold drawn, skipped; now rewrite Hd).
      assert (Hw : warning_of ds result_type segments m = [])
        by (unfold warning_of, skipped; now rewrite Hd).
      rewrite Hdr, Hw, app_nil_r, !length_app. cbn [List.length].
      set (b1 := negb (existsb (String.eqb (girder_of (fst m))) (shown_in_legend s))).
      set (s1 := if b1
                 then set_shown_in_legend (shown_in_legend s ++ [girder_of (fst m)]) s
                 else s).
      assert (E : console s1 = console s /\ element_count s1 = element_count s /\
                  fig_data s1 = fig_data s) by (subst s1; destruct b1; repeat split).
      destruct E as (E1 & E2 & E3).
      destruct (pushes_other_fields
                  (ribbon_traces m r scale all_values segments b1
                                 (element_count s =? 0)%nat) s1)
        as (Hec & _ & Hcon & _).
      cbn [set_element_count console element_count fig_data].
      rewrite Hec, Hcon, pushes_fig_data, meshes_app, !length_app.
      rewrite ribbon_traces_length, E1, E2, E3.
      destruct (ribbon_traces_meshes m r scale all_values segments b1
                  (element_count s =? 0)%nat) as (mesh & -> & _).
      cbn [List.length].
      split; [exact Hc | split; [lia | split; lia]].
    + assert (Hdr : drawn ds result_type segments m = false)
        by (unfold drawn, skipped; now rewrite Hd).
      assert (Hw : warning_of ds result_type segments m = [skip_warning (fst m) e])
        by (unfold warning_of, skipped; now rewrite Hd).
      rewrite Hdr, Hw, app_nil_r.
      cbn [set_console console element_count fig_data].
      rewrite Hc, <- app_assoc.
      split; [reflexivity | split; [lia | split; lia]].
Qed.

Lemma completed_tally nodes members ds result_type segments :
  fst (create_enhanced_3d_diagram nodes members ds result_type segments) = Ok tt ->
  let s := snd (create_enhanced_3d_diagram nodes members ds result_type segments) in
  let n := List.length (filter (drawn ds result_type segments) members) in
  console s = flat_map (warning_of ds result_type segments) members /\
  element_count s = n /\
  List.length (fig_data s) = (List.length members + 4 * n)%nat /\
  List.length (meshes (fig_data s)) = n.
Proof.
  intros Hok. rewrite create_ok_iff in Hok.
  assert (Hnone : snd (centerlines nodes members) = None)
    by (destruct (snd (centerlines nodes members)); [discriminate | reflexivity]).
  pose proof (centerlines_resolved nodes members Hnone) as Hres.
  rewrite create_spec, Hnone. cbn [snd set_updatemenus console element_count fig_data].
  unfold after_surfaces.
  destruct (surface_fold_tally nodes ds result_type
              (scale_factor members ds result_type)
              (all_values_of members ds result_type) segments members
              (pushes (fst (centerlines nodes members)) initial) Hres)
    as (Hc & He & Hf & Hm).
  destruct (pushes_other_fields (fst (centerlines nodes members)) initial)
    as (Hec & _ & Hcon & _).
  rewrite Hc, He, Hf, Hm, Hec, Hcon, pushes_fig_data.
  cbn [initial console element_count fig_data app].
  rewrite meshes_centerlines, (proj2 (centerlines_complete nodes members Hres)).
  repeat split.
Qed.

Lemma length_flat_map_warnings ds result_type segments (l : list member) :
  (List.length (flat_map (warning_of ds result_type segments) l)
   + List.length (filter (drawn ds result_type segments) l))%nat = List.length l.
Proof.
  induction l as [|m l IH]; [reflexivity|].
  cbn [flat_map filter]. rewrite length_app. unfold warning_of at 1, drawn at 1.
  destruct (skipped ds result_type segments m); cbn [List.length]; lia.
Qed.

Lemma meshes_nil_scatter fig :
  meshes fig = [] -> Forall (fun t => is_scatter t = true) fig.
Proof.
  induction fig as [|[s|m] fig IH]; simpl; intros H;
    [constructor | constructor; [reflexivity | now apply IH] | discriminate].
Qed.

Lemma drawn_iff ds result_type segments m :
  drawn ds result_type segments m = true <->
  is_ok (sel ds (fst m) (fst (components result_type))) = true /\
  is_ok (sel ds (fst m) (snd (components result_type))) = true /\
  segments <> 0.
Proof.
  unfold drawn, skipped, skip_reason.
  destruct (sel ds (fst m) (fst (components result_type))); cbn [is_ok];
    [|split; [discriminate | intros (H & _); discriminate]].
  destruct (sel ds (fst m) (snd (components result_type))); cbn [is_ok];
    [|split; [discriminate | intros (_ & H & _); discriminate]].
  destruct (Z.eqb_spec segments 0) as [E|E]; split.
  - discriminate.
  - intros (_ & _ & H). contradiction.
  - intros _. split; [reflexivity | split; [reflexivity | exact E]].
  - reflexivity.
Qed.

Lemma drawn_eq ds result_type segments m :
  drawn ds result_type segments m
  = reads_ok ds result_type m && negb (segments =? 0).
Proof.
  unfold drawn, skipped, skip_reason, reads_ok.
  destruct (sel ds (fst m) (fst (components result_type))); [|reflexivity].
  destruct (sel ds (fst m) (snd (components result_type))); [|reflexivity].
  now destruct (segments =? 0).
Qed.

Lemma ribbon_traces_hover m r scale all_values segments b1 b2 :
  map hover_element (meshes (ribbon_traces m r scale all_values segments b1 b2))
  = [fst m].
Proof.
  destruct m as [eid [ni nj]]. unfold ribbon_traces.
  destruct (r_c1 r) as [[x1 y1] z1], (r_c2 r) as [[x2 y2] z2]. reflexivity.
Qed.

(** The meshes the surface loop adds are those of the drawn members, in
    member order. *)
Lemma surface_fold_meshes nodes ds result_type scale all_values segments l s0 :
  forallb (nodes_resolve nodes) l = true ->
  map hover_element
      (meshes (fig_data
         (fold_left
            (surface_pure nodes ds (fst (components result_type))
                          (snd (components result_type)) scale all_values segments)
            l s0)))
  = map hover_element (meshes (fig_data s0))
    ++ map fst (filter (drawn ds result_type segments) l).
Proof.
  intros Hres.
  apply (fold_left_ind_in _
    (fun done s =>
       map hover_element (meshes (fig_data s))
       = map hover_element (meshes (fig_data s0))
         ++ map fst (filter (drawn ds result_type segments) done))).
  - cbn [filter map]. now rewrite app_nil_r.
  - intros done m s Hin Hs.
    rewrite forallb_forall in Hres. specialize (Hres m Hin).
    pose proof (element_ribbon_drawn nodes ds (fst (components result_type))
                  (snd (components result_type)) scale segments m Hres) as Hd.
    rewrite filter_snoc. unfold surface_pure.
    destruct (element_ribbon _ _ _ _ _ _ m) as [r|e].
    + assert (Hdr : drawn ds result_type segments m = true)
        by (unfold drawn, skipped; now rewrite Hd).
      rewrite Hdr. cbn [set_element_count fig_data].
      rewrite pushes_fig_data, meshes_app, !map_app, ribbon_traces_hover.
      assert (E : forall b : bool,
                 fig_data (if b then set_shown_in_legend
                                       (shown_in_legend s ++ [girder_of (fst m)]) s
                           else s) = fig_data s) by (intros [|]; reflexivity).
      rewrite E, Hs, <- app_assoc. reflexivity.
    + assert (Hdr : drawn ds result_type segments m = false)
        by (unfold drawn, skipped; now rewrite Hd).
      rewrite Hdr, app_nil_r. cbn [set_console fig_data]. exact Hs.
Qed.

Lemma completed_meshes nodes members ds result_type segments :
  fst (create_enhanced_3d_diagram nodes members ds result_type segments) = Ok tt ->
  map hover_element
      (meshes (fig_data (snd (create_enhanced_3d_diagram
                                nodes members ds result_type segments))))
  = map fst (filter (drawn ds result_type segments) members).
Proof.
  intros Hok. rewrite create_ok_iff in Hok.
  assert (Hnone : snd (centerlines nodes members) = None)
    by (destruct (snd (centerlines nodes members)); [discriminate | reflexivity]).
  pose proof (centerlines_resolved nodes members Hnone) as Hres.
  rewrite create_spec, Hnone. cbn [snd set_updatemenus fig_data].
  unfold after_surfaces. rewrite surface_fold_meshes by exact Hres.
  rewrite pushes_fig_data. cbn [initial fig_data app].
  now rewrite meshes_centerlines.
Qed.

Lemma warnings_by_member ds result_type segments (l : list member) :
  Forall2
    (fun (w : message) (m : member) =>
       exists e,
         w = [PStr " Warning: Could not process element "; PInt (fst m);
              PStr ": "; PExn e] /\
         if reads_ok ds result_type m then e = ZeroDivisionError
         else is_KeyError e = true)
    (flat_map (warning_of ds result_type segments) l)
    (filter (fun m => negb (drawn ds result_type segments m)) l).
Proof.
  induction l as [|m l IH]; [constructor|].
  cbn [flat_map filter]. unfold warning_of at 1, drawn at 1.
  unfold skipped, skip_reason, reads_ok.
  destruct (sel ds (fst m) (fst (components result_type))) as [v_i|e] eqn:Ei.
  - destruct (sel ds (fst m) (snd (components result_type))) as [v_j|e] eqn:Ej.
    + destruct (segments =? 0); cbn [negb app]; [|exact IH].
      constructor; [|exact IH]. exists ZeroDivisionError.
      rewrite Ei, Ej. split; reflexivity.
    + cbn [negb app]. constructor; [|exact IH]. exists e.
      rewrite Ei, Ej. split; [reflexivity|].
      cbn [is_ok andb]. eapply Task1Extraction.sel_raises_KeyError. exact Ej.
  - cbn [negb app]. constructor; [|exact IH]. exists e.
    rewrite Ei. split; [reflexivity|].
    cbn [is_ok andb]. eapply Task1Extraction.sel_raises_KeyError. exact Ei.
Qed.

(** X2.  When the builder returns, the figure holds one mesh for every
    member whose two reads succeed, in member order, provided [segments]
    is not 0, and none for any other member; and the console holds one
    line [" Warning: Could not process element <id>: <exception>"] for
    every other member, in member order, where the exception is a
    [KeyError] when one of the member's reads failed and
    [ZeroDivisionError] otherwise. *)
Theorem skipped_members_are_logged_in_order nodes members ds result_type segments :
  let out := create_enhanced_3d_diagram nodes members ds result_type segments in
  let kept (m : member) := reads_ok ds result_type m && negb (segments =? 0) in
  fst out = Ok tt ->
  map hover_element (meshes (fig_data (snd out))) = map fst (filter kept members) /\
  Forall2
    (fun (w : message) (m : member) =>
       exists e,
         w = [PStr " Warning: Could not process element "; PInt (fst m);
              PStr ": "; PExn e] /\
         if reads_ok ds result_type m then e = ZeroDivisionError
         else is_KeyError e = true)
    (console (snd out))
    (filter (fun m => negb (kept m)) members).
Proof.
  intros out kept Hok.
  assert (Ek : forall l : list member,
             filter kept l = filter (drawn ds result_type segments) l).
  { intros l. apply filter_ext. intros m. subst kept. cbv beta.
    now rewrite drawn_eq. }
  assert (En : forall l : list member,
             filter (fun m => negb (kept m)) l
             = filter (fun m => negb (drawn ds result_type segments m)) l).
  { intros l. apply filter_ext. intros m. subst kept. cbv beta.
    now rewrite drawn_eq. }
  split.
  - rewrite Ek. now apply completed_meshes.
  - rewrite En. subst out.
    rewrite (proj1 (completed_tally nodes members ds result_type segments Hok)).
    apply warnings_by_member.
Qed.

Lemma skipped_members_are_logged_in_order_witness :
  let out := create_enhanced_3d_diagram
               ex_nodes ex_members ex_ds_without_13 "BMD" 2 in
  map hover_element (meshes (fig_data (snd out))) = [101] /\
  exists e,
    console (snd out)
    = [[PStr " Warning: Could not process element "; PInt 13; PStr ": "; PExn e]] /\
    is_KeyError e = true.
Proof.
  intros out.
  assert (Hok : fst out = Ok tt) by (vm_compute; reflexivity).
  destruct (skipped_members_are_logged_in_order
              ex_nodes ex_members ex_ds_without_13 "BMD" 2 Hok) as [Hm Hc].
  split; [exact Hm|].
  change (Forall2
            (fun (w : message) (m : member) =>
               exists e,
                 w = [PStr " Warning: Could not process element "; PInt (fst m);
                      PStr ": "; PExn e] /\
                 if reads_ok ex_ds_without_13 "BMD" m then e = ZeroDivisionError
                 else is_KeyError e = true)
            (console (snd out)) [(13, (1, 11))]) in Hc.
  destruct (console (snd out)) as [|w [|w' rest]].
  - exfalso. inversion Hc.
  - inversion Hc as [|? ? ? ? (e & Hw & He) _]. subst.
    exists e. split; [reflexivity | exact He].
  - exfalso. inversion Hc as [|? ? ? ? _ Hrest]. inversion Hrest.
Defined.

(** X3.  When the builder returns, with [n] the number of members drawn: the
    figure holds one centerline per member and four traces (one mesh,
    three edges) per drawn member, [element_count] is [n], there are [n]
    meshes, and every member that is not drawn left one warning. *)
Theorem figure_size_and_warnings_add_up nodes members ds result_type segments :
  let out := create_enhanced_3d_diagram nodes members ds result_type segments in
  let n := List.length (filter (drawn ds result_type segments) members) in
  fst out = Ok tt ->
  element_count (snd out) = n /\
  List.length (meshes (fig_data (snd out))) = n /\
  List.length (fig_data (snd out)) = (List.length members + 4 * n)%nat /\
  (List.length (console (snd out)) + n)%nat = List.length members.
Proof.
  intros out n Hok.
  destruct (completed_tally nodes members ds result_type segments Hok)
    as (Hc & He & Hf & Hm).
  subst out. rewrite Hc. repeat split; try assumption.
  apply length_flat_map_warnings.
Qed.

Lemma figure_size_and_warnings_add_up_witness :
  List.length (fig_data (snd (create_enhanced_3d_diagram
                                ex_nodes ex_members ex_ds_without_13 "BMD" 2)))
  = 6%nat.
Proof.
  assert (Hok : fst (create_enhanced_3d_diagram
                       ex_nodes ex_members ex_ds_without_13 "BMD" 2) = Ok tt)
    by (vm_compute; reflexivity).
  destruct (figure_size_and_warnings_add_up
              ex_nodes ex_members ex_ds_without_13 "BMD" 2 Hok) as (_ & _ & H & _).
  exact H.
Defined.

(** X4.  With [segments = 0] a run that returns draws no ribbon at all: the
    figure is the centerlines only, and every member is logged, those
    whose reads succeed with [ZeroDivisionError]. *)
Theorem zero_segments_draw_nothing nodes members ds result_type :
  let out := create_enhanced_3d_diagram nodes members ds result_type 0 in
  fst out = Ok tt ->
  Forall (fun t => is_scatter t = true) (fig_data (snd out)) /\
  List.length (fig_data (snd out)) = List.length members /\
  element_count (snd out) = 0%nat /\
  console (snd out)
  = map (fun m : member =>
           [PStr " Warning: Could not process element "; PInt (fst m); PStr ": ";
            PExn
              match sel ds (fst m) (fst (components result_type)) with
              | Raise e => e
              | Ok _ =>
                  match sel ds (fst m) (snd (components result_type)) with
                  | Raise e => e
                  | Ok _ => ZeroDivisionError
                  end
              end]) members.
Proof.
  intros out Hok.
  destruct (completed_tally nodes members ds result_type 0 Hok)
    as (Hc & He & Hf & Hm).
  assert (Hz : filter (drawn ds result_type 0) members = []).
  { clear. induction members as [|m l IH]; [reflexivity|]. cbn [filter].
    destruct (drawn ds result_type 0 m) eqn:E; [|exact IH].
    apply drawn_iff in E. destruct E as (_ & _ & E). now contradiction E. }
  rewrite Hz in He, Hf, Hm. cbn [List.length] in He, Hf, Hm.
  subst out. split; [|split; [|split]].
  - apply meshes_nil_scatter. now apply length_zero_iff_nil.
  - rewrite Hf. lia.
  - exact He.
  - rewrite Hc. clear. induction members as [|m l IH]; [reflexivity|].
    cbn [flat_map map]. rewrite IH. unfold warning_of, skipped, skip_reason.
    destruct (sel ds (fst m) (fst (components result_type))); [|reflexivity].
    destruct (sel ds (fst m) (snd (components result_type))); reflexivity.
Qed.

Lemma zero_segments_draw_nothing_witness :
  console (snd (create_enhanced_3d_diagram ex_nodes ex_members ex_ds "BMD" 0))
  = [[PStr " Warning: Could not process element "; PInt 13; PStr ": ";
      PExn ZeroDivisionError];
     [PStr " Warning: Could not process element "; PInt 101; PStr ": ";
      PExn ZeroDivisionError]].
Proof.
  assert (Hok : fst (create_enhanced_3d_diagram ex_nodes ex_members ex_ds "BMD" 0)
                = Ok tt) by (vm_compute; reflexivity).
  destruct (zero_segments_draw_nothing ex_nodes ex_members ex_ds "BMD" Hok)
    as (_ & _ & _ & H).
  exact H.
Defined.
End Task2Outcome.


(* ================================================================= *)
(** * 3D_task_2.py: legend and colour-bar flags *)

Module Task2Flags.
Import Task2 Task2Spec Task2More Task2Book Task2Loops Task2Buttons Task2Builder
       Task2Mesh Task2Outcome.

Lemma existsb_snoc {A} (f : A -> bool) l a :
  existsb f (l ++ [a]) = existsb f l || f a.
Proof. rewrite existsb_app. simpl. now rewrite orb_false_r. Qed.

Lemma surface_pure_flags nodes ds comp_i comp_j scale all_values segments s m :
  flags_ok s ->
  flags_ok (surface_pure nodes ds comp_i comp_j scale all_values segments s m).
Proof.
  intros (Hn & Hs & Hf). unfold surface_pure.
  destruct (element_ribbon _ _ _ _ _ _ m) as [r|e];
    [|exact (conj Hn (conj Hs Hf))].
  set (g := girder_of (fst m)).
  set (b1 := negb (existsb (String.eqb g) (shown_in_legend s))).
  set (s1 := if b1 then set_shown_in_legend (shown_in_legend s ++ [g]) s else s).
  assert (E : element_count s1 = element_count s /\ fig_data s1 = fig_data s /\
              shown_in_legend s1
              = if b1 then shown_in_legend s ++ [g] else shown_in_legend s)
    by (subst s1; destruct b1; repeat split).
  destruct E as (E1 & E2 & E3).
  destruct (pushes_other_fields
              (ribbon_traces m r scale all_values segments b1
                             (element_count s =? 0)%nat) s1)
    as (Hec & Hsh & _ & _).
  destruct (ribbon_traces_meshes m r scale all_values segments b1
              (element_count s =? 0)%nat) as (mesh & Hms & Hname & Hleg & Hbar).
  fold g in Hname.
  unfold flags_ok.
  cbn [set_element_count element_count fig_data shown_in_legend].
  rewrite Hec, Hsh, pushes_fig_data, meshes_app, Hms, E1, E2, E3.
  set (ms := meshes (fig_data s)) in *.
  split; [|split].
  - rewrite length_app. cbn [List.length]. lia.
  - intros g'. rewrite map_app, existsb_app. cbn [map existsb].
    rewrite orb_false_r, Hname, <- Hs.
    subst b1. destruct (existsb (String.eqb g) (shown_in_legend s)) eqn:Eg; cbn [negb].
    + destruct (String.eqb_spec g' g) as [->|Hne].
      * rewrite Eg. reflexivity.
      * now rewrite orb_false_r.
    + apply existsb_snoc.
  - intros i mesh' Hi.
    destruct (Nat.lt_ge_cases i (List.length ms)) as [Hlt|Hge].
    + rewrite nth_error_app1 in Hi by exact Hlt.
      rewrite firstn_app.
      replace (i - List.length ms)%nat with 0%nat by lia.
      cbn [firstn]. rewrite app_nil_r. now apply Hf.
    + rewrite nth_error_app2 in Hi by exact Hge.
      destruct (i - List.length ms)%nat as [|k] eqn:Ek;
        [|destruct k; discriminate Hi].
      injection Hi as <-.
      assert (i = List.length ms) by lia. subst i.
      rewrite firstn_app, firstn_all, Nat.sub_diag. cbn [firstn].
      rewrite app_nil_r, Hname, Hleg, Hbar, <- Hs, Hn. split; reflexivity.
Qed.

Lemma create_flags nodes members ds result_type segments :
  flags_ok (snd (create_enhanced_3d_diagram nodes members ds result_type segments)).
Proof.
  rewrite create_spec.
  assert (H0 : flags_ok (pushes (fst (centerlines nodes members)) initial)).
  { unfold flags_ok.
    destruct (pushes_other_fields (fst (centerlines nodes members)) initial)
      as (-> & -> & _ & _).
    rewrite pushes_fig_data. cbn [initial fig_data app element_count shown_in_legend].
    rewrite meshes_centerlines. split; [reflexivity | split; [reflexivity|]].
    intros [|i] mesh H; discriminate H. }
  destruct (snd (centerlines nodes members)); cbn [snd]; [exact H0|].
  unfold after_surfaces.
  apply (fold_left_ind _ (fun _ s => flags_ok s)); [exact H0|].
  intros _ m s Hs. now apply surface_pure_flags.
Qed.

(** X5.  Whatever the inputs, a mesh of the figure is shown in the legend
    exactly when no earlier mesh carries its girder name: each girder (and
    ['Other Elements']) has one legend entry, on the first of its meshes. *)
Theorem legend_entry_on_first_mesh_of_each_group
    nodes members ds result_type segments :
  let ms := meshes (fig_data (snd (create_enhanced_3d_diagram
                                     nodes members ds result_type segments))) in
  forall i mesh,
    nth_error ms i = Some mesh ->
    m_showlegend mesh
    = negb (existsb (String.eqb (m_name mesh)) (map m_name (firstn i ms))).
Proof.
  intros ms i mesh H.
  destruct (create_flags nodes members ds result_type segments) as (_ & _ & Hf).
  exact (proj1 (Hf i mesh H)).
Qed.

Lemma legend_entry_on_first_mesh_of_each_group_witness :
  map m_showlegend
      (meshes (fig_data (snd (create_enhanced_3d_diagram
                                ex_nodes [(13, (1, 11)); (22, (1, 11)); (101, (1, 2))]
                                ex_ds_three "BMD" 1))))
  = [true; false; true].
Proof.
  pose proof (legend_entry_on_first_mesh_of_each_group
                ex_nodes [(13, (1, 11)); (22, (1, 11)); (101, (1, 2))]
                ex_ds_three "BMD" 1) as H.
  cbv zeta in H.
  set (ms := meshes (fig_data (snd (create_enhanced_3d_diagram
                ex_nodes [(13, (1, 11)); (22, (1, 11)); (101, (1, 2))]
                ex_ds_three "BMD" 1)))) in *.
  destruct ms as [|m0 [|m1 [|m2 [|m3 rest]]]] eqn:E;
    try (vm_compute in E; discriminate E).
  cbn [map]. rewrite (H 0%nat m0 eq_refl), (H 1%nat m1 eq_refl), (H 2%nat m2 eq_refl).
  vm_compute in E. injection E as <- <- <-. reflexivity.
Defined.

(** X6.  Whatever the inputs, the colour bar is attached to the first mesh of
    the figure and to no other. *)
Theorem colour_bar_on_first_mesh_only nodes members ds result_type segments :
  let ms := meshes (fig_data (snd (create_enhanced_3d_diagram
                                     nodes members ds result_type segments))) in
  forall i mesh,
    nth_error ms i = Some mesh -> showscale mesh = (i =? 0)%nat.
Proof.
  intros ms i mesh H.
  destruct (create_flags nodes members ds result_type segments) as (_ & _ & Hf).
  exact (proj2 (Hf i mesh H)).
Qed.

Lemma colour_bar_on_first_mesh_only_witness :
  map showscale
      (meshes (fig_data (snd (create_enhanced_3d_diagram
                                ex_nodes ex_members ex_ds "BMD" 2))))
  = [true; false].
Proof.
  pose proof (colour_bar_on_first_mesh_only ex_nodes ex_members ex_ds "BMD" 2) as H.
  cbv zeta in H.
  set (ms := meshes (fig_data (snd (create_enhanced_3d_diagram
                ex_nodes ex_members ex_ds "BMD" 2)))) in *.
  destruct ms as [|m0 [|m1 [|m2 rest]]] eqn:E; try (vm_compute in E; discriminate E).
  cbn [map]. rewrite (H 0%nat m0 eq_refl), (H 1%nat m1 eq_refl). reflexivity.
Defined.
End Task2Flags.


(* ================================================================= *)
(** * 3D_task_2.py: where each trace comes from *)

Module Task2Traces.
Import Task2 Task2Spec Task2More Task2Book Task2Loops Task2Buttons Task2Builder
       Task2Mesh Task2Outcome.

Lemma centerlines_scatter nodes l (P : trace -> Prop) :
  (forall s, P (Scatter3d s)) -> Forall P (fst (centerlines nodes l)).
Proof.
  intros HP. induction l as [|[e [a b]] l IH]; simpl; [constructor|].
  destruct (zitem nodes a) as [[[x1 y1] z1]|]; [|constructor].
  destruct (zitem nodes b) as [[[x2 y2] z2]|]; [|constructor].
  destruct (centerlines nodes l) as [ts r]. cbn [fst] in *.
  constructor; [apply HP | exact IH].
Qed.

(** A property of the mesh of every member that is drawn holds of every
    mesh of the figure. *)
Lemma create_meshes_forall (P : mesh3d -> Prop) nodes members ds result_type segments :
  (forall m r b1 b2, In m members ->
     element_ribbon nodes ds (fst (components result_type))
                    (snd (components result_type))
                    (scale_factor members ds result_type) segments m = Ok r ->
     Forall P (meshes (ribbon_traces m r (scale_factor members ds result_type)
                                     (all_values_of members ds result_type)
                                     segments b1 b2))) ->
  forall mesh,
    In (Mesh3d mesh) (fig_data (snd (create_enhanced_3d_diagram
                                       nodes members ds result_type segments))) ->
    P mesh.
Proof.
  intros HP mesh Hin.
  assert (H : Forall (fun t => match t with
                               | Mesh3d mesh => P mesh
                               | Scatter3d _ => True
                               end)
                     (fig_data (snd (create_enhanced_3d_diagram
                                       nodes members ds result_type segments)))).
  { apply create_forall.
    - apply centerlines_scatter. intros s. exact Logic.I.
    - intros m r b1 b2 Hm Hr. specialize (HP m r b1 b2 Hm Hr).
      revert HP. generalize (ribbon_traces m r (scale_factor members ds result_type)
                               (all_values_of members ds result_type) segments b1 b2).
      intros ts. induction ts as [|[s|mesh'] ts IH]; simpl; intros H.
      + constructor.
      + constructor; [exact Logic.I | now apply IH].
      + inversion H; subst. constructor; [assumption | now apply IH]. }
  rewrite Forall_forall in H. exact (H _ Hin).
Qed.

(** X7.  Every mesh of the figure reports the member it was built from: its
    hover data are a member's id and node pair and the two end values read
    for that member, and it is named after the member's owner. *)
Theorem mesh_hover_data_are_its_members nodes members ds result_type segments :
  forall mesh,
    In (Mesh3d mesh) (fig_data (snd (create_enhanced_3d_diagram
                                       nodes members ds result_type segments))) ->
    In (hover_element mesh, hover_nodes mesh) members /\
    sel ds (hover_element mesh) (fst (components result_type))
    = Ok (fst (hover_values mesh)) /\
    sel ds (hover_element mesh) (snd (components result_type))
    = Ok (snd (hover_values mesh)) /\
    m_name mesh = owner (hover_element mesh).
Proof.
  apply create_meshes_forall. intros [eid [ni nj]] r b1 b2 Hm Hr.
  apply element_ribbon_parts in Hr. destruct Hr as (_ & _ & Hi & Hj & _).
  unfold ribbon_traces. destruct (r_c1 r) as [[x1 y1] z1], (r_c2 r) as [[x2 y2] z2].
  cbn [meshes edge]. constructor; [|constructor].
  cbn [hover_element hover_nodes hover_values m_name fst snd].
  repeat split; try assumption. apply girder_of_owner.
Qed.

Lemma mesh_hover_data_are_its_members_witness :
  exists mesh,
    mesh_at (fig_data (snd (create_enhanced_3d_diagram
                              ex_nodes ex_members ex_ds "BMD" 2))) 2 = Some mesh /\
    In (hover_element mesh, hover_nodes mesh) ex_members /\
    m_name mesh = owner (hover_element mesh).
Proof.
  destruct (mesh_at (fig_data (snd (create_enhanced_3d_diagram
                                      ex_nodes ex_members ex_ds "BMD" 2))) 2)
    as [mesh|] eqn:E; [|vm_compute in E; discriminate E].
  exists mesh. split; [reflexivity|].
  assert (Hin : In (Mesh3d mesh)
                   (fig_data (snd (create_enhanced_3d_diagram
                                     ex_nodes ex_members ex_ds "BMD" 2)))).
  { unfold mesh_at in E.
    destruct (nth_error (fig_data (snd (create_enhanced_3d_diagram
                                          ex_nodes ex_members ex_ds "BMD" 2))) 2)
      as [[s|mesh']|] eqn:En; try discriminate E.
    injection E as <-. eapply nth_error_In. exact En. }
  destruct (mesh_hover_data_are_its_members ex_nodes ex_members ex_ds "BMD" 2
              mesh Hin) as (H1 & _ & _ & H4).
  split; [exact H1 | exact H4].
Defined.

(** X8.  With a negative segment count both loops of the ribbon are empty: every
    mesh of the figure has no vertex, no intensity and no triangle. *)
Theorem negative_segments_give_empty_meshes nodes members ds result_type segments :
  segments < 0 ->
  forall mesh,
    In (Mesh3d mesh) (fig_data (snd (create_enhanced_3d_diagram
                                       nodes members ds result_type segments))) ->
    mx mesh = [] /\ my mesh = [] /\ mz mesh = [] /\ intensity mesh = [] /\
    mi mesh = [] /\ mj mesh = [] /\ mk mesh = [].
Proof.
  intros HS. apply create_meshes_forall. intros [eid [ni nj]] r b1 b2 Hm Hr.
  apply element_ribbon_parts in Hr. destruct Hr as (_ & _ & _ & _ & Ha).
  rewrite mesh_arrays_closed in Ha by lia. injection Ha as Ha.
  unfold ribbon_traces. destruct (r_c1 r) as [[x1 y1] z1], (r_c2 r) as [[x2 y2] z2].
  cbn [meshes edge]. constructor; [|constructor].
  cbn [mx my mz mi mj mk intensity]. rewrite <- Ha, triangles_closed.
  unfold ribbon_arrays, step_arrays, strip_triangles, range.
  replace (Z.to_nat (segments + 1)) with 0%nat by lia.
  replace (Z.to_nat segments) with 0%nat by lia.
  repeat split.
Qed.

Lemma negative_segments_give_empty_meshes_witness :
  option_map mx (mesh_at (fig_data (snd (create_enhanced_3d_diagram
                                           ex_nodes ex_members ex_ds "BMD" (-3)))) 2)
  = Some [].
Proof.
  assert (HS : -3 < 0) by lia.
  pose proof (negative_segments_give_empty_meshes ex_nodes ex_members ex_ds "BMD"
                (-3) HS) as H.
  unfold mesh_at.
  destruct (nth_error (fig_data (snd (create_enhanced_3d_diagram
                                        ex_nodes ex_members ex_ds "BMD" (-3)))) 2)
    as [[s|mesh]|] eqn:E; try (vm_compute in E; discriminate E).
  cbn [option_map]. f_equal.
  exact (proj1 (H mesh (nth_error_In _ _ E))).
Defined.

(** *** Centerlines *)

Lemma centerlines_nth nodes l i eid ni nj :
  snd (centerlines nodes l) = None ->
  nth_error l i = Some (eid, (ni, nj)) ->
  exists c1 c2,
    zget nodes ni = Some c1 /\ zget nodes nj = Some c2 /\
    nth_error (fst (centerlines nodes l)) i
    = Some (centerline (girder_of eid) c1 c2).
Proof.
  revert i. induction l as [|[e [a b]] l IH]; intros i Hn Hi.
  - destruct i; discriminate Hi.
  - cbn [centerlines] in *. unfold zitem in *.
    destruct (zget nodes a) as [c1|] eqn:Ea; [|discriminate].
    destruct (zget nodes b) as [c2|] eqn:Eb; [|discriminate].
    destruct (centerlines nodes l) as [ts r]. cbn [fst snd] in *.
    destruct i as [|i].
    + injection Hi as -> -> ->. exists c1, c2. now repeat split.
    + cbn [nth_error] in *. now apply IH.
Qed.

Lemma surface_fold_prefix nodes ds comp_i comp_j scale all_values segments l s0 :
  exists extra,
    fig_data (fold_left (surface_pure nodes ds comp_i comp_j scale all_values segments)
                        l s0)
    = fig_data s0 ++ extra.
Proof.
  apply (fold_left_ind _ (fun _ s => exists extra, fig_data s = fig_data s0 ++ extra)).
  - exists []. now rewrite app_nil_r.
  - intros _ m s [extra Hs]. unfold surface_pure.
    destruct (element_ribbon _ _ _ _ _ _ m) as [r|e]; [|now exists extra].
    cbn [set_element_count fig_data]. rewrite pushes_fig_data.
    destruct (negb _); cbn [set_shown_in_legend fig_data];
      eexists; rewrite Hs, <- app_assoc; reflexivity.
Qed.

(** X9.  When the builder returns, trace [i] of the figure, for [i] below the
    number of members, is the centerline of member [i]: the line between
    the coordinates of its two nodes, named after its owner.  Every member
    has one, drawn or not. *)
Theorem centerlines_lead_the_figure nodes members ds result_type segments :
  let out := create_enhanced_3d_diagram nodes members ds result_type segments in
  fst out = Ok tt ->
  forall i eid ni nj,
    nth_error members i = Some (eid, (ni, nj)) ->
    exists c1 c2,
      zget nodes ni = Some c1 /\ zget nodes nj = Some c2 /\
      nth_error (fig_data (snd out)) i = Some (centerline (owner eid) c1 c2).
Proof.
  intros out Hok i eid ni nj Hi. subst out.
  rewrite create_ok_iff in Hok.
  assert (Hnone : snd (centerlines nodes members) = None)
    by (destruct (snd (centerlines nodes members)); [discriminate | reflexivity]).
  destruct (centerlines_nth nodes members i eid ni nj Hnone Hi)
    as (c1 & c2 & H1 & H2 & Hc).
  exists c1, c2. split; [exact H1 | split; [exact H2|]].
  rewrite create_spec, Hnone. cbn [snd set_updatemenus fig_data].
  unfold after_surfaces.
  destruct (surface_fold_prefix nodes ds (fst (components result_type))
              (snd (components result_type)) (scale_factor members ds result_type)
              (all_values_of members ds result_type) segments members
              (pushes (fst (centerlines nodes members)) initial)) as [extra ->].
  rewrite pushes_fig_data. cbn [initial fig_data app].
  rewrite nth_error_app1 by (apply nth_error_Some; congruence).
  rewrite <- girder_of_owner. exact Hc.
Qed.

Lemma centerlines_lead_the_figure_witness :
  exists c1 c2,
    zget ex_nodes 1 = Some c1 /\ zget ex_nodes 2 = Some c2 /\
    nth_error (fig_data (snd (create_enhanced_3d_diagram
                                ex_nodes ex_members ex_ds_without_13 "BMD" 2))) 1
    = Some (centerline (owner 101) c1 c2).
Proof.
  assert (Hok : fst (create_enhanced_3d_diagram
                       ex_nodes ex_members ex_ds_without_13 "BMD" 2) = Ok tt)
    by (vm_compute; reflexivity).
  exact (centerlines_lead_the_figure ex_nodes ex_members ex_ds_without_13 "BMD" 2
           Hok 1%nat 101 1 2 eq_refl).
Defined.
(** X22.  The result type selects what is read and how it is scaled, and
    nothing checks it: "BMD" reads [Mz_i] and [Mz_j]; every other result
    type, known or not, reads [Vy_i] and [Vy_j]; and the factor 3.0 on the
    scale is applied for "SFD" alone.  So the hover values of every mesh
    are these two reads of its member, the collected values are their
    magnitudes, and the scale is 1.8 over the largest of them when that is
    positive, 1.0 otherwise, times 3.0 for "SFD". *)
Theorem result_type_selects_the_components nodes members ds result_type segments :
  let comp_i := if String.eqb result_type "BMD" then "Mz_i" else "Vy_i" in
  let comp_j := if String.eqb result_type "BMD" then "Mz_j" else "Vy_j" in
  let vals := all_values_of members ds result_type in
  (forall mesh,
     In (Mesh3d mesh) (fig_data (snd (create_enhanced_3d_diagram
                                        nodes members ds result_type segments))) ->
     sel ds (hover_element mesh) comp_i = Ok (fst (hover_values mesh)) /\
     sel ds (hover_element mesh) comp_j = Ok (snd (hover_values mesh))) /\
  vals = flat_map (fun m : member =>
                     match sel ds (fst m) comp_i, sel ds (fst m) comp_j with
                     | Ok v_i, Ok v_j => [abs v_i; abs v_j]
                     | _, _ => []
                     end) members /\
  scale_factor members ds result_type
  = (let base := if (0 <? max_val_of vals)%float
                 then (1.8 / max_val_of vals)%float else 1.0%float in
     if String.eqb result_type "SFD" then (base * 3.0)%float else base).
Proof.
  cbv zeta.
  assert (Ei : fst (components result_type)
               = if String.eqb result_type "BMD" then "Mz_i" else "Vy_i")
    by (unfold components; now destruct (String.eqb result_type "BMD")).
  assert (Ej : snd (components result_type)
               = if String.eqb result_type "BMD" then "Mz_j" else "Vy_j")
    by (unfold components; now destruct (String.eqb result_type "BMD")).
  rewrite <- Ei, <- Ej. split; [|split].
  - apply create_meshes_forall. intros [eid [ni nj]] r b1 b2 Hm Hr.
    apply element_ribbon_parts in Hr. destruct Hr as (_ & _ & Hi & Hj & _).
    unfold ribbon_traces. destruct (r_c1 r) as [[x1 y1] z1], (r_c2 r) as [[x2 y2] z2].
    cbn [meshes edge]. constructor; [|constructor].
    cbn [hover_element hover_values fst snd]. split; assumption.
  - unfold all_values_of. destruct (components result_type) as [ci cj].
    cbn [fst snd]. apply collect_values_flat.
  - reflexivity.
Qed.

Lemma result_type_selects_the_components_witness :
  (forall mesh,
     In (Mesh3d mesh) (fig_data (snd (create_enhanced_3d_diagram
                                        ex_nodes ex_members ex_ds_both "sfd" 2))) ->
     sel ex_ds_both (hover_element mesh) "Vy_i" = Ok (fst (hover_values mesh))) /\
  option_map hover_values
    (mesh_at (fig_data (snd (create_enhanced_3d_diagram
                               ex_nodes ex_members ex_ds_both "sfd" 2))) 2)
  = Some (2, 2)%float /\
  scale_factor ex_members ex_ds_both "sfd" = (1.8 / 2)%float /\
  scale_factor ex_members ex_ds_both "SFD" = (1.8 / 2 * 3.0)%float /\
  scale_factor ex_members ex_ds_both "BMD" = (1.8 / 10)%float.
Proof.
  destruct (result_type_selects_the_components
              ex_nodes ex_members ex_ds_both "sfd" 2) as (Hh & _ & Hs).
  destruct (result_type_selects_the_components
              ex_nodes ex_members ex_ds_both "SFD" 2) as (_ & _ & Hs').
  destruct (result_type_selects_the_components
              ex_nodes ex_members ex_ds_both "BMD" 2) as (_ & _ & Hb).
  split; [|split; [|split; [|split]]].
  - intros mesh Hin. exact (proj1 (Hh mesh Hin)).
  - vm_compute. reflexivity.
  - rewrite Hs. vm_compute. reflexivity.
  - rewrite Hs'. vm_compute. reflexivity.
  - rewrite Hb. vm_compute. reflexivity.
Defined.
End Task2Traces.


(* ================================================================= *)
(** * 3D_task_2.py: the colour range of the meshes *)

Module Task2Bounds.
Import Task2 Task2Spec Task2More Task2Book Task2Loops Task2Buttons Task2Builder
       Task2Mesh Task2Outcome Task2Traces Task2Scale Task2Ribbon.

Lemma colour_range_spec (vals : list float) :
  vals <> [] ->
  py_min vals = Ok (lowest vals) /\ py_max vals = Ok (highest vals) /\
  In (lowest vals) vals /\ In (highest vals) vals /\
  (Forall (fun v => is_nan v = false) vals ->
   forall v, In v vals ->
     (lowest vals <=? v)%float = true /\ (v <=? highest vals)%float = true).
Proof.
  destruct vals as [|a l]; [congruence|]. intros _.
  unfold lowest, highest. cbn [py_min py_max].
  split; [reflexivity|]. split; [reflexivity|].
  split; [apply Binary64.fold_fmin_in|]. split; [apply Binary64.fold_fmax_in|].
  intros Hnan v Hv. split;
    [now apply Binary64.fold_fmin_lower | now apply Binary64.fold_fmax_upper].
Qed.

(** The end values of a member that is drawn are among the collected
    values. *)
Lemma ribbon_values_collected nodes members ds result_type scale segments m r :
  In m members ->
  element_ribbon nodes ds (fst (components result_type))
                 (snd (components result_type)) scale segments m = Ok r ->
  In (abs (r_vi r)) (all_values_of members ds result_type) /\
  In (abs (r_vj r)) (all_values_of members ds result_type).
Proof.
  intros Hm Hr. destruct m as [eid [ni nj]].
  apply element_ribbon_parts in Hr. destruct Hr as (_ & _ & Hi & Hj & _).
  rewrite all_values_flat.
  split; apply in_flat_map; exists (eid, (ni, nj)); (split; [exact Hm|]);
    unfold end_values; cbn [fst]; rewrite Hi, Hj; [now left | right; now left].
Qed.

Lemma drawn_ribbon_arrays nodes ds comp_i comp_j scale segments m r :
  element_ribbon nodes ds comp_i comp_j scale segments m = Ok r ->
  segments <> 0%Z /\
  r_arrays r = ribbon_arrays (r_c1 r) (r_c2 r) (r_vi r) (r_vj r) scale segments.
Proof.
  intros Hr. destruct m as [eid [ni nj]].
  apply element_ribbon_parts in Hr. destruct Hr as (_ & _ & _ & _ & Ha).
  destruct (Z.eq_dec segments 0) as [->|HS].
  - rewrite mesh_arrays_zero in Ha. discriminate Ha.
  - split; [exact HS|]. rewrite mesh_arrays_closed in Ha by exact HS.
    now injection Ha.
Qed.

(** X11.  All meshes of the figure carry one colour range: [cmin] and
    [cmax] are what Python's [min] and [max] return on the collected
    values, so both are collected values, the same for every mesh; when
    no collected value is NaN, [cmin] is not above and [cmax] not below any
    of them. *)
Theorem meshes_share_one_colour_range nodes members ds result_type segments :
  forall mesh,
    In (Mesh3d mesh) (fig_data (snd (create_enhanced_3d_diagram
                                       nodes members ds result_type segments))) ->
    let vals := all_values_of members ds result_type in
    py_min vals = Ok (cmin mesh) /\ py_max vals = Ok (cmax mesh) /\
    In (cmin mesh) vals /\ In (cmax mesh) vals /\
    (Forall (fun v => is_nan v = false) vals ->
     forall v, In v vals ->
       (cmin mesh <=? v)%float = true /\ (v <=? cmax mesh)%float = true).
Proof.
  apply create_meshes_forall. intros m r b1 b2 Hm Hr.
  destruct (ribbon_values_collected _ _ _ _ _ _ _ _ Hm Hr) as [Hvi Hvj].
  assert (Hne : all_values_of members ds result_type <> [])
    by (intros E; rewrite E in Hvi; destruct Hvi).
  pose proof (colour_range_spec _ Hne) as Hrange.
  destruct m as [eid [ni nj]]. unfold ribbon_traces.
  destruct (r_c1 r) as [[x1 y1] z1] eqn:E1, (r_c2 r) as [[x2 y2] z2] eqn:E2.
  cbn [meshes edge]. constructor; [|constructor].
  cbn [cmin cmax]. exact Hrange.
Qed.

Lemma meshes_share_one_colour_range_witness :
  exists mesh,
    mesh_at (fig_data (snd (create_enhanced_3d_diagram
                              ex_nodes ex_members ex_ds "BMD" 2))) 6 = Some mesh /\
    cmin mesh = 1%float /\ cmax mesh = 10%float /\
    (cmin mesh <=? 10)%float = true.
Proof.
  unfold mesh_at.
  destruct (nth_error (fig_data (snd (create_enhanced_3d_diagram
                                        ex_nodes ex_members ex_ds "BMD" 2))) 6)
    as [[s|mesh]|] eqn:E; try (vm_compute in E; discriminate E).
  exists mesh. split; [reflexivity|].
  destruct (meshes_share_one_colour_range ex_nodes ex_members ex_ds "BMD" 2 mesh
              (nth_error_In _ _ E)) as (Hlo & Hhi & _ & _ & Hord).
  assert (Hnan : Forall (fun v => is_nan v = false)
                        (all_values_of ex_members ex_ds "BMD")).
  { repeat constructor. }
  assert (H10 : In 10%float (all_values_of ex_members ex_ds "BMD")) by now left.
  split; [|split].
  - vm_compute in Hlo. now injection Hlo.
  - vm_compute in Hhi. now injection Hhi.
  - exact (proj1 (Hord Hnan 10%float H10)).
Defined.
End Task2Bounds.


(* ================================================================= *)
(** * 3D_task_2.py: the buttons taken together *)

Module Task2Menu.
Import Task2 Task2Spec Task2More Task2Book Task2Loops Task2Buttons Task2Builder
       Task2Mesh Task2Outcome Task2Claims.

Lemma has_In i l : has i l = true <-> In i l.
Proof.
  unfold has. rewrite existsb_exists. split.
  - intros (x & Hx & E). apply Nat.eqb_eq in E. now subst.
  - intros H. exists i. split; [exact H | apply Nat.eqb_refl].
Qed.

Lemma NoDup_app_disjoint {A} (l1 l2 : list A) a :
  NoDup (l1 ++ l2) -> In a l1 -> ~ In a l2.
Proof.
  induction l1 as [|b l1 IH]; [intros _ []|].
  simpl. intros H [->|Hin] Ha.
  - inversion H; subst. apply H2. apply in_or_app. now right.
  - inversion H; subst. now apply IH.
Qed.

Lemma absent_everywhere i (Ls : list (list nat)) :
  ~ In i (List.concat Ls) -> filter (has i) Ls = [].
Proof.
  induction Ls as [|l Ls IH]; [reflexivity|]. simpl. intros H.
  destruct (has i l) eqn:E.
  - apply has_In in E. exfalso. apply H. apply in_or_app. now left.
  - apply IH. intros Hin. apply H. apply in_or_app. now right.
Qed.

(** An index that occurs once in the concatenation lies in one list. *)
Lemma in_exactly_one_list i (Ls : list (list nat)) :
  NoDup (List.concat Ls) -> In i (List.concat Ls) ->
  List.length (filter (has i) Ls) = 1%nat.
Proof.
  induction Ls as [|l Ls IH]; [intros _ []|].
  cbn [List.concat filter]. intros Hnd Hin.
  destruct (has i l) eqn:E.
  - apply has_In in E. cbn [List.length]. f_equal.
    rewrite absent_everywhere; [reflexivity|].
    eapply NoDup_app_disjoint; eassumption.
  - apply IH; [eapply NoDup_app_remove_l; eassumption|].
    apply in_app_or in Hin. destruct Hin as [Hin|Hin]; [|exact Hin].
    apply has_In in Hin. congruence.
Qed.

Lemma values_by_key (d : sdict (list nat)) :
  NoDup (map fst d) ->
  map snd d
  = map (fun g => match sget d g with Some l => l | None => [] end) (map fst d).
Proof.
  induction d as [|[k v] d IH]; [reflexivity|].
  cbn [map fst snd]. intros H. inversion H as [|? ? Hk Hd]; subst.
  unfold sget at 1. cbn [dict_get]. rewrite String.eqb_refl. f_equal.
  rewrite (IH Hd). apply map_ext_in. intros g Hg.
  unfold sget. cbn [dict_get].
  destruct (String.eqb_spec k g) as [->|Hne]; [contradiction | reflexivity].
Qed.

Lemma group_names_NoDup : NoDup group_names.
Proof.
  unfold group_names, girder_names, other_elements. cbn [app].
  repeat (constructor; [cbn [In]; intros H;
                        repeat (destruct H as [H|H]; [discriminate H|]); exact H|]).
  constructor.
Qed.

Lemma partitioned_lists s :
  partitioned s ->
  NoDup (List.concat (map (traces_of s) group_names)) /\
  forall i, (i < List.length (fig_data s))%nat ->
            In i (List.concat (map (traces_of s) group_names)).
Proof.
  intros (Hk & Hp & _).
  assert (E : map snd (girder_traces s) = map (traces_of s) group_names).
  { rewrite <- Hk. apply values_by_key. rewrite Hk. apply group_names_NoDup. }
  rewrite E in Hp. split.
  - eapply Permutation_NoDup; [apply Permutation_sym; exact Hp | apply seq_NoDup].
  - intros i Hi. eapply Permutation_in; [apply Permutation_sym; exact Hp|].
    apply in_seq. lia.
Qed.

Lemma shows_group_button s g i :
  (i < List.length (fig_data s))%nat ->
  shows i (group_button s g) = has i (traces_of s g).
Proof.
  intros Hi. unfold shows, group_button. cbn [visible].
  pose proof (visible_at_nth (List.length (fig_data s)) (traces_of s g) i Hi) as H.
  apply Bool.eq_true_iff_eq. rewrite H, has_In. reflexivity.
Qed.

Lemma filter_group_buttons s i names :
  (i < List.length (fig_data s))%nat ->
  List.length (filter (shows i) (map (group_button s) names))
  = List.length (filter (has i) (map (traces_of s) names)).
Proof.
  intros Hi. induction names as [|g names IH]; [reflexivity|].
  cbn [map filter]. rewrite (shows_group_button s g i Hi).
  destruct (has i (traces_of s g)); cbn [List.length]; now rewrite IH.
Qed.

Lemma filter_transverse_buttons s i :
  (i < List.length (fig_data s))%nat ->
  List.length (filter (shows i) (transverse_buttons s))
  = List.length (filter (has i) [traces_of s other_elements]).
Proof.
  intros Hi. unfold transverse_buttons.
  pose proof (shows_group_button s other_elements i Hi) as H.
  unfold group_button, shows in H. cbn [visible] in H.
  destruct (traces_of s other_elements) as [|idx rest] eqn:E; [reflexivity|].
  cbn [filter]. unfold shows at 1. cbn [visible]. rewrite H.
  destruct (has i (idx :: rest)); reflexivity.
Qed.

(** X13.  When the builder returns, the first button shows every trace, and every
    trace is shown by exactly one of the buttons after it: no trace belongs
    to two groups, and none can only be reached through "All Girders". *)
Theorem every_trace_has_one_group_button nodes members ds result_type segments :
  let out := create_enhanced_3d_diagram nodes members ds result_type segments in
  fst out = Ok tt ->
  forall i, (i < List.length (fig_data (snd out)))%nat ->
    option_map (shows i) (hd_error (updatemenus (snd out))) = Some true /\
    List.length (filter (shows i) (tl (updatemenus (snd out)))) = 1%nat.
Proof.
  intros out Hok i Hi.
  pose proof (create_partitioned nodes members ds result_type segments) as Hp.
  fold out in Hp.
  assert (Hb : updatemenus (snd out) = all_buttons (snd out)).
  { subst out. revert Hok. rewrite create_spec.
    destruct (snd (centerlines nodes members)); cbn [fst snd]; [discriminate|].
    intros _. reflexivity. }
  rewrite Hb. unfold all_buttons. cbn [hd_error tl option_map]. split.
  - unfold shows. cbn [visible]. f_equal.
    rewrite (nth_indep _ false true) by now rewrite repeat_length.
    apply nth_repeat.
  - rewrite filter_app, length_app, filter_group_buttons, filter_transverse_buttons
      by exact Hi.
    rewrite <- length_app, <- filter_app.
    change (map (traces_of (snd out)) girder_names ++ [traces_of (snd out) other_elements])
      with (map (traces_of (snd out)) group_names).
    destruct (partitioned_lists (snd out) Hp) as [Hnd Hin].
    apply in_exactly_one_list; [exact Hnd | now apply Hin].
Qed.

Lemma every_trace_has_one_group_button_witness :
  map (fun b => shows 1 b)
      (updatemenus (snd (create_enhanced_3d_diagram
                           ex_nodes ex_members ex_ds "BMD" 2)))
  = [true; false; false; false; false; false; true] /\
  List.length (filter (shows 1)
                 (tl (updatemenus (snd (create_enhanced_3d_diagram
                                          ex_nodes ex_members ex_ds "BMD" 2)))))
  = 1%nat.
Proof.
  split; [vm_compute; reflexivity|].
  assert (Hok : fst (create_enhanced_3d_diagram ex_nodes ex_members ex_ds "BMD" 2)
                = Ok tt) by (vm_compute; reflexivity).
  assert (Hi : (1 < List.length (fig_data (snd (create_enhanced_3d_diagram
                                                  ex_nodes ex_members ex_ds "BMD" 2))))%nat)
    by (vm_compute; repeat constructor).
  exact (proj2 (every_trace_has_one_group_button ex_nodes ex_members ex_ds "BMD" 2
                  Hok 1%nat Hi)).
Defined.

(** *** The two passes agree on which members count *)

Lemma length_end_values ds result_type (l : list member) segments :
  segments <> 0 ->
  List.length (flat_map (end_values ds (fst (components result_type))
                                    (snd (components result_type))) l)
  = (2 * List.length (filter (drawn ds result_type segments) l))%nat.
Proof.
  intros HS. induction l as [|m l IH]; [reflexivity|].
  cbn [flat_map filter]. rewrite length_app, IH.
  unfold end_values, drawn, skipped, skip_reason.
  destruct (sel ds (fst m) (fst (components result_type))); [|simpl; lia].
  destruct (sel ds (fst m) (snd (components result_type))); [|simpl; lia].
  destruct (Z.eqb_spec segments 0); [contradiction|]. cbn [List.length]. lia.
Qed.

(** X14.  When the builder returns and [segments] is not 0, the scale pass
    collected exactly two values for every member the surface pass drew,
    and none for any other member. *)
Theorem scale_pass_counts_the_drawn_members nodes members ds result_type segments :
  let out := create_enhanced_3d_diagram nodes members ds result_type segments in
  segments <> 0 ->
  fst out = Ok tt ->
  List.length (all_values_of members ds result_type)
  = (2 * element_count (snd out))%nat.
Proof.
  intros out HS Hok.
  destruct (completed_tally nodes members ds result_type segments Hok) as (_ & He & _).
  subst out. rewrite He, Task2Scale.all_values_flat. now apply length_end_values.
Qed.

Lemma scale_pass_counts_the_drawn_members_witness :
  List.length (all_values_of ex_members ex_ds_without_13 "BMD") = 2%nat /\
  element_count (snd (create_enhanced_3d_diagram
                        ex_nodes ex_members ex_ds_without_13 "BMD" 2)) = 1%nat.
Proof.
  assert (HS : 2 <> 0) by lia.
  assert (Hok : fst (create_enhanced_3d_diagram
                       ex_nodes ex_members ex_ds_without_13 "BMD" 2) = Ok tt)
    by (vm_compute; reflexivity).
  pose proof (scale_pass_counts_the_drawn_members
                ex_nodes ex_members ex_ds_without_13 "BMD" 2 HS Hok) as H.
  split; [reflexivity|].
  cbv zeta in H. change (List.length (all_values_of ex_members ex_ds_without_13 "BMD"))
    with 2%nat in H. lia.
Defined.
End Task2Menu.


(* ================================================================= *)
(** * 3D_task_2.py: the boundary edges *)

Module Task2Edges.
Import Task2 Task2Spec Task2More Task2Book Task2Loops Task2Buttons Task2Builder
       Task2Mesh Task2Outcome Task2Traces.

Lemma ribbon_edges nodes ds comp_i comp_j scale all_values segments m r b1 b2 :
  element_ribbon nodes ds comp_i comp_j scale segments m = Ok r ->
  exists mesh e1 e2 e3,
    ribbon_traces m r scale all_values segments b1 b2
    = [Mesh3d mesh; Scatter3d e1; Scatter3d e2; Scatter3d e3] /\
    edges_of nodes scale mesh e1 e2 e3.
Proof.
  intros Hr. destruct m as [eid [ni nj]].
  apply element_ribbon_parts in Hr. destruct Hr as (H1 & H2 & _ & _ & _).
  unfold ribbon_traces, edge.
  destruct (r_c1 r) as [[x1 y1] z1], (r_c2 r) as [[x2 y2] z2].
  do 4 eexists. split; [reflexivity|].
  unfold edges_of. cbn [hover_nodes hover_values fst snd].
  exists x1, y1, z1, x2, y2, z2.
  unfold zitem in H1, H2.
  destruct (zget nodes ni) as [c1|]; [|discriminate H1].
  destruct (zget nodes nj) as [c2|]; [|discriminate H2].
  injection H1 as ->. injection H2 as ->.
  repeat split.
Qed.

Lemma edges_follow_scatter nodes scale fig :
  Forall (fun t => is_scatter t = true) fig -> edges_follow nodes scale fig.
Proof.
  intros H k mesh Hk. rewrite Forall_forall in H.
  specialize (H _ (nth_error_In _ _ Hk)). discriminate H.
Qed.

Lemma edges_follow_snoc nodes scale fig mesh e1 e2 e3 :
  edges_follow nodes scale fig ->
  edges_of nodes scale mesh e1 e2 e3 ->
  edges_follow nodes scale
    (fig ++ [Mesh3d mesh; Scatter3d e1; Scatter3d e2; Scatter3d e3]).
Proof.
  intros Hfig Hm k mesh' Hk.
  destruct (Nat.lt_ge_cases k (List.length fig)) as [Hlt|Hge].
  - rewrite nth_error_app1 in Hk by exact Hlt.
    destruct (Hfig k mesh' Hk) as (a & b & c & Ha & Hb & Hc & Hends).
    exists a, b, c.
    rewrite !nth_error_app1 by (apply nth_error_Some; congruence).
    now repeat split.
  - rewrite nth_error_app2 in Hk by exact Hge.
    destruct (k - List.length fig)%nat as [|[|[|[|j]]]] eqn:Ek;
      cbn [nth_error] in Hk; try discriminate Hk.
    + injection Hk as <-. exists e1, e2, e3.
      rewrite !nth_error_app2 by lia.
      replace (k + 1 - List.length fig)%nat with 1%nat by lia.
      replace (k + 2 - List.length fig)%nat with 2%nat by lia.
      replace (k + 3 - List.length fig)%nat with 3%nat by lia.
      now repeat split.
    + destruct j; discriminate Hk.
Qed.

Lemma surface_pure_edges nodes ds comp_i comp_j scale all_values segments s m :
  edges_follow nodes scale (fig_data s) ->
  edges_follow nodes scale
    (fig_data (surface_pure nodes ds comp_i comp_j scale all_values segments s m)).
Proof.
  intros Hs. unfold surface_pure.
  destruct (element_ribbon _ _ _ _ _ _ m) as [r|e] eqn:Er; [|exact Hs].
  cbn [set_element_count fig_data]. rewrite pushes_fig_data.
  assert (Hfig : forall b : bool,
             fig_data (if b then set_shown_in_legend
                                   (shown_in_legend s ++ [girder_of (fst m)]) s
                       else s) = fig_data s) by (intros [|]; reflexivity).
  rewrite Hfig.
  destruct (ribbon_edges nodes ds comp_i comp_j scale all_values segments m r
              (negb (existsb (String.eqb (girder_of (fst m))) (shown_in_legend s)))
              (element_count s =? 0)%nat Er)
    as (mesh & e1 & e2 & e3 & -> & Hends).
  now apply edges_follow_snoc.
Qed.

(** X15.  Every mesh of the figure is directly followed by its three
    boundary edges: a vertical line at each node of the mesh's member,
    from the node to the node displaced along y by the end value times the
    scale factor, and the line joining the two displaced points; their
    widths are 4, 2 and 1.5 and they carry the mesh's name. *)
Theorem boundary_edges_frame_each_mesh nodes members ds result_type segments :
  forall k mesh,
    nth_error (fig_data (snd (create_enhanced_3d_diagram
                                nodes members ds result_type segments))) k
    = Some (Mesh3d mesh) ->
    exists e1 e2 e3,
      nth_error (fig_data (snd (create_enhanced_3d_diagram
                                  nodes members ds result_type segments))) (k + 1)
      = Some (Scatter3d e1) /\
      nth_error (fig_data (snd (create_enhanced_3d_diagram
                                  nodes members ds result_type segments))) (k + 2)
      = Some (Scatter3d e2) /\
      nth_error (fig_data (snd (create_enhanced_3d_diagram
                                  nodes members ds result_type segments))) (k + 3)
      = Some (Scatter3d e3) /\
      edges_of nodes (scale_factor members ds result_type) mesh e1 e2 e3.
Proof.
  change (edges_follow nodes (scale_factor members ds result_type)
            (fig_data (snd (create_enhanced_3d_diagram
                              nodes members ds result_type segments)))).
  rewrite create_spec.
  assert (H0 : edges_follow nodes (scale_factor members ds result_type)
                 (fig_data (pushes (fst (centerlines nodes members)) initial))).
  { apply edges_follow_scatter. rewrite pushes_fig_data. cbn [initial fig_data app].
    apply centerlines_scatter. reflexivity. }
  destruct (snd (centerlines nodes members)); cbn [snd]; [exact H0|].
  cbn [set_updatemenus fig_data]. unfold after_surfaces.
  apply (fold_left_ind _ (fun _ s => edges_follow nodes
                                       (scale_factor members ds result_type)
                                       (fig_data s))); [exact H0|].
  intros _ m s Hs. now apply surface_pure_edges.
Qed.

Lemma boundary_edges_frame_each_mesh_witness :
  exists mesh e1 e2 e3,
    nth_error (fig_data (snd (create_enhanced_3d_diagram
                                ex_nodes ex_members ex_ds "BMD" 2))) 2
    = Some (Mesh3d mesh) /\
    nth_error (fig_data (snd (create_enhanced_3d_diagram
                                ex_nodes ex_members ex_ds "BMD" 2))) 5
    = Some (Scatter3d e3) /\
    edges_of ex_nodes (scale_factor ex_members ex_ds "BMD") mesh e1 e2 e3.
Proof.
  destruct (nth_error (fig_data (snd (create_enhanced_3d_diagram
                                        ex_nodes ex_members ex_ds "BMD" 2))) 2)
    as [[s|mesh]|] eqn:E; try (vm_compute in E; discriminate E).
  destruct (boundary_edges_frame_each_mesh ex_nodes ex_members ex_ds "BMD" 2
              2%nat mesh E) as (e1 & e2 & e3 & _ & _ & H3 & Hends).
  exists mesh, e1, e2, e3. split; [reflexivity | split; [exact H3 | exact Hends]].
Defined.
End Task2Edges.


(* ================================================================= *)
(** * 3D_task_2.py: [main] *)

Module Task2MainFacts.
Import Task2 Task2Spec Task2More Task2Main Task2Book Task2Loops Task2Buttons
       Task2Builder Task2Outcome.

Lemma call_builder_ok nodes members ds result_type segments ms :
  forallb (nodes_resolve nodes) members = true ->
  call_builder nodes members ds result_type segments ms
  = (Ok (fig_data (snd (create_enhanced_3d_diagram
                          nodes members ds result_type segments)),
         updatemenus (snd (create_enhanced_3d_diagram
                             nodes members ds result_type segments))),
     {| main_console :=
          main_console ms
          ++ console (snd (create_enhanced_3d_diagram
                             nodes members ds result_type segments));
        written := written ms |}).
Proof.
  intros H. unfold call_builder, bind, main_print, modify. cbn [fst snd].
  rewrite create_ok_iff, (proj1 (centerlines_complete nodes members H)).
  reflexivity.
Qed.

Lemma call_builder_raises nodes members ds result_type segments ms :
  forallb (nodes_resolve nodes) members = false ->
  exists k,
    call_builder nodes members ds result_type segments ms
    = (Raise (KeyError k), ms).
Proof.
  intros H. unfold call_builder, bind, main_print, modify. cbn [fst snd].
  rewrite create_spec.
  destruct (centerlines nodes members) as [ts r] eqn:E. cbn [fst snd].
  destruct r as [e|].
  - cbn [fst snd].
    destruct (pushes_other_fields ts initial) as (_ & _ & -> & _).
    cbn [initial console]. rewrite app_nil_r.
    assert (He : exists k, e = KeyError k).
    { clear H. revert ts E. induction members as [|[eid [ni nj]] l IH]; intros ts E.
      - discriminate E.
      - cbn [centerlines] in E. unfold zitem in E.
        destruct (zget nodes ni); [|injection E as _ <-; eauto].
        destruct (zget nodes nj); [|injection E as _ <-; eauto].
        destruct (centerlines nodes l) as [ts' r']. injection E as _ ->.
        now apply (IH ts'). }
    destruct He as [k ->]. exists k. destruct ms. reflexivity.
  - pose proof (centerlines_resolved nodes members) as R.
    rewrite E in R. specialize (R eq_refl). congruence.
Qed.

(** X16.  [main] writes both documents or none.  If one of the three input
    files is missing it reports the first missing one and returns without
    building anything.  Otherwise, when every member's nodes resolve, it
    writes the bending-moment document and then the shear-force document,
    each holding the figure of its builder run; when some node reference
    is bad, the first builder run raises and nothing is written. *)
Theorem main_writes_both_documents_or_none file_exists nodes members ds :
  let out := main file_exists nodes members ds main_initial in
  let missing :=
    find (fun f => negb (file_exists f))
         ["./screening_task.nc"; "./node.py"; "./element.py"] in
  let figure_of result_type :=
    let built := snd (create_enhanced_3d_diagram nodes members ds result_type 50) in
    (fig_data built, updatemenus built) in
  let console_of result_type :=
    console (snd (create_enhanced_3d_diagram nodes members ds result_type 50)) in
  (forall f, missing = Some f ->
     out = (Ok tt, {| main_console := [[PStr " Error: File not found: "; PStr f]];
                      written := [] |})) /\
  (missing = None -> forallb (nodes_resolve nodes) members = true ->
     out = (Ok tt,
            {| main_console := console_of "BMD" ++ console_of "SFD";
               written := [("Enhanced_BMD_3D.html", figure_of "BMD");
                           ("Enhanced_SFD_3D.html", figure_of "SFD")] |})) /\
  (missing = None -> forallb (nodes_resolve nodes) members = false ->
     exists k, out = (Raise (KeyError k), main_initial)).
Proof.
  cbv zeta.
  change ["./screening_task.nc"; "./node.py"; "./element.py"]
    with [nc_file; node_file; element_file].
  split; [|split].
  - intros f Hf. unfold main. rewrite Hf. reflexivity.
  - intros Hnone Hres. unfold main. rewrite Hnone.
    unfold bind at 1. rewrite (call_builder_ok _ _ _ _ _ _ Hres).
    unfold bind at 1, write_html at 1, modify.
    unfold bind at 1. rewrite (call_builder_ok _ _ _ _ _ _ Hres).
    unfold write_html, modify. cbn [main_initial main_console written app].
    reflexivity.
  - intros Hnone Hres. unfold main. rewrite Hnone.
    destruct (call_builder_raises nodes members ds "BMD" 50 main_initial Hres)
      as [k Hk].
    exists k. unfold bind at 1. now rewrite Hk.
Qed.

Lemma main_writes_both_documents_or_none_witness :
  map fst (written (snd (main (fun _ => true) ex_nodes ex_members ex_ds main_initial)))
  = ["Enhanced_BMD_3D.html"; "Enhanced_SFD_3D.html"] /\
  main (fun f => negb (String.eqb f node_file)) ex_nodes ex_members ex_ds main_initial
  = (Ok tt, {| main_console := [[PStr " Error: File not found: "; PStr "./node.py"]];
               written := [] |}).
Proof.
  destruct (main_writes_both_documents_or_none (fun _ => true)
              ex_nodes ex_members ex_ds) as (_ & H & _).
  destruct (main_writes_both_documents_or_none
              (fun f => negb (String.eqb f node_file))
              ex_nodes ex_members ex_ds) as (H' & _ & _).
  split.
  - rewrite (H eq_refl eq_refl). reflexivity.
  - exact (H' node_file eq_refl).
Defined.
End Task2MainFacts.


(* ================================================================= *)
(** * TASK_1.py: further behaviour of the script *)

Module Task1Edge.
Import Task1 Task1Spec Task1More Task1Facts Task1Extraction Task1Frame.

(** The check over the first elements of a longer chain. *)
Lemma check_steps members (done : list link) p (todo tail : list link) s :
  Forall (in_members members) (p :: todo) ->
  for_each (check_body members (map fst (done ++ p :: todo ++ tail)))
           (combine (seq (Datatypes.S (List.length done)) (List.length (map fst todo)))
                    (map fst todo)) s
  = (Ok tt, log (map connectivity_warning (mismatches (p :: todo))) s).
Proof.
  revert done p s. induction todo as [|r todo IH]; intros done p s H.
  - simpl. now rewrite log_nil.
  - inversion H as [|? ? Hp H']; subst. inversion H' as [|? ? Hr H'']; subst.
    cbn [map List.length seq combine for_each app].
    erewrite bind_ok by (apply check_body_next; assumption).
    specialize (IH (done ++ [p]) r).
    rewrite <- app_assoc in IH. simpl app in IH.
    rewrite length_app in IH. simpl List.length in IH.
    replace (List.length done + 1)%nat with (Datatypes.S (List.length done)) in IH by lia.
    rewrite IH by assumption.
    rewrite log_log, <- map_app. reflexivity.
Qed.

Lemma check_prefix members (pre : list link) (tail : list Z) s :
  Forall (in_members members) pre ->
  for_each (check_body members (map fst pre ++ tail)) (enumerate (map fst pre)) s
  = (Ok tt, log (map connectivity_warning (mismatches pre)) s).
Proof.
  intros H. unfold enumerate. destruct pre as [|p todo].
  - simpl. now rewrite log_nil.
  - cbn [map List.length seq combine for_each].
    inversion H; subst.
    erewrite bind_ok by (apply check_body_first; assumption).
    pose proof (check_steps members [] p todo
                  (map (fun z => (z, (0, 0))) tail) s H) as E.
    cbn [app List.length] in E.
    rewrite map_cons, map_app, map_map in E. cbn [fst] in E.
    rewrite map_id in E. rewrite <- app_comm_cons. exact E.
Qed.

Lemma check_stops members (pre : list link) e post s :
  Forall (in_members members) pre ->
  zget members e = None ->
  continuity_check members (map fst pre ++ e :: post) s
  = (Raise (KeyError (KInt e)), log (map connectivity_warning (mismatches pre)) s).
Proof.
  intros Hpre He. unfold continuity_check.
  unfold enumerate at 1. rewrite enumerate_app.
  erewrite for_each_app by (apply check_prefix; exact Hpre).
  cbn [List.length seq combine for_each Nat.add].
  apply bind_raise. unfold check_body.
  apply bind_raise. unfold lift, zitem. now rewrite He.
Qed.

(** X17.  An element of the chain that the member table lacks stops the script
    in the continuity check with the [KeyError] of that element, after the
    warnings for the elements before it; nothing has been extracted. *)
Theorem unknown_element_stops_the_check nodes members ds
    (pre : list link) (e : Z) (post : list Z) :
  Forall (in_members members) pre ->
  zget members e = None ->
  let out := run nodes members ds (map fst pre ++ e :: post) in
  fst out = Raise (KeyError (KInt e)) /\
  console (snd out)
  = map (fun ele => [PStr "Warning: element connectivity issue at element";
                     PInt ele])
        (mismatches pre) /\
  outputs (snd out) = ([], [], []).
Proof.
  intros Hpre He out. subst out. unfold run.
  erewrite bind_raise by (apply check_stops; eassumption).
  repeat split.
Qed.

Lemma unknown_element_stops_the_check_witness :
  fst (run chain_nodes chain_members chain_ds [15; 33; 99; 42])
  = Raise (KeyError (KInt 99)) /\
  console (snd (run chain_nodes chain_members chain_ds [15; 33; 99; 42]))
  = [[PStr "Warning: element connectivity issue at element"; PInt 33]].
Proof.
  assert (Hpre : Forall (in_members chain_members) [(15, (3, 13)); (33, (18, 23))]).
  { repeat constructor. }
  destruct (unknown_element_stops_the_check chain_nodes chain_members chain_ds
              [(15, (3, 13)); (33, (18, 23))] 99 [42] Hpre eq_refl)
    as (Hr & Hc & _).
  split; [exact Hr | exact Hc].
Defined.

Lemma extract_body_no_node nodes members ds (l : link) n idx s :
  in_members members l ->
  node_missing nodes l = Some n ->
  extract_body nodes members ds (idx, fst l) s = (Raise (KeyError (KInt n)), s).
Proof.
  intros Hm Hn. unfold extract_body. rewrite (zitem_in _ _ Hm).
  unfold node_missing in Hn.
  unfold bind at 1, lift at 1. unfold bind at 1, lift at 1.
  unfold zitem.
  destruct (zget nodes (fst (snd l))) as [ci|].
  - unfold bind at 1, lift at 1.
    destruct (zget nodes (snd (snd l))) as [cj|]; [discriminate|].
    injection Hn as <-. reflexivity.
  - injection Hn as <-. reflexivity.
Qed.

(** X18.  A node id that the node table lacks stops the extraction with the
    [KeyError] of that node: the lookup is outside the [try], so neither
    the element nor the component names are reported.  The console holds
    the continuity warnings only, and the profile holds the points of the
    earlier elements. *)
Theorem unknown_node_stops_without_report nodes members ds
    (pre : list row) (l : link) (n : Z) (post : list link) :
  Forall (resolves nodes members ds) pre ->
  in_members members l ->
  node_missing nodes l = Some n ->
  Forall (in_members members) post ->
  let out := run nodes members ds (map eid pre ++ fst l :: map fst post) in
  fst out = Raise (KeyError (KInt n)) /\
  console (snd out)
  = map (fun ele => [PStr "Warning: element connectivity issue at element";
                     PInt ele])
        (mismatches (map link_of pre ++ l :: post)) /\
  outputs (snd out)
  = (profile pos_i pos_j pre, profile mz_i mz_j pre, profile vy_i vy_j pre).
Proof.
  intros Hpre Hm Hn Hpost out.
  set (links := map link_of pre ++ l :: post).
  assert (Hlinks : Forall (in_members members) links).
  { apply Forall_app. split; [eapply links_in_members; eassumption|].
    constructor; assumption. }
  assert (Hchain : map eid pre ++ fst l :: map fst post = map fst links).
  { subst links. rewrite map_app, map_fst_link_of. reflexivity. }
  assert (E : extraction nodes members ds (map eid pre ++ fst l :: map fst post) initial
              = (Raise (KeyError (KInt n)),
                 emit (profile pos_i pos_j pre) (profile mz_i mz_j pre)
                      (profile vy_i vy_j pre) initial)).
  { unfold extraction, enumerate.
    rewrite enumerate_app.
    erewrite for_each_app by (apply extraction_ok; eassumption).
    cbn [List.length seq combine for_each Nat.add map].
    apply bind_raise. now apply extract_body_no_node. }
  subst out. rewrite Hchain, run_after_check by assumption.
  rewrite <- Hchain, E. unfold outputs. simpl. rewrite app_nil_r.
  repeat split; reflexivity.
Qed.

Lemma unknown_node_stops_without_report_witness :
  run chain_nodes dangling_members chain_ds [15; 24]
  = (Raise (KeyError (KInt 99)),
     {| positions := map float_of_Z [0; 5];
        bending_moments := map float_of_Z [15; 15];
        shear_forces := map float_of_Z [15; 15];
        console := [] |}).
Proof.
  assert (Hpre : Forall (resolves chain_nodes dangling_members chain_ds)
                   [chain_row 15 3 13 0 5]).
  { repeat constructor. }
  assert (Hm : in_members dangling_members (24, (13, 99))) by reflexivity.
  destruct (unknown_node_stops_without_report chain_nodes dangling_members chain_ds
              [chain_row 15 3 13 0 5] (24, (13, 99)) 99 [] Hpre Hm eq_refl
              (Forall_nil _)) as (Hr & Hc & Ho).
  cbn [map eid chain_row fst app] in Hr, Hc, Ho.
  destruct (run chain_nodes dangling_members chain_ds [15; 24]) as [res st].
  destruct st as [ps bs vs c]. unfold outputs in Ho.
  cbn [fst snd positions bending_moments shear_forces console] in Hr, Hc, Ho.
  injection Ho as -> -> ->. rewrite Hr, Hc. reflexivity.
Defined.

Lemma mismatches_nil_iff (links : list link) :
  mismatches links = [] <-> connected links.
Proof.
  induction links as [|p rest IH]; [simpl; tauto|].
  cbn [mismatches connected]. destruct rest as [|r rest'].
  - simpl. tauto.
  - destruct (Z.eqb_spec (snd (snd p)) (fst (snd r))) as [E|E].
    + cbn [app]. rewrite IH. tauto.
    + split; [discriminate|]. intros [H _]. contradiction.
Qed.

(** X19.  When the chain's elements are all in the member table, the
    continuity check prints nothing exactly when every element starts at
    the node where the one before it ends. *)
Theorem check_is_silent_iff_chain_is_connected members (links : list link) :
  Forall (in_members members) links ->
  (snd (continuity_check members (map fst links) initial) = initial
   <-> connected links).
Proof.
  intros H. rewrite continuity_check_spec by assumption. cbn [snd].
  rewrite <- mismatches_nil_iff. split.
  - intros E. apply (f_equal console) in E. cbn [log console initial app] in E.
    now apply map_eq_nil in E.
  - intros ->. apply log_nil.
Qed.

Lemma check_is_silent_iff_chain_is_connected_witness :
  snd (continuity_check chain_members chain_ids initial) = initial /\
  snd (continuity_check broken_members [15; 24] initial) <> initial.
Proof.
  assert (H : Forall (in_members chain_members) (map link_of chain_rows)).
  { repeat constructor. }
  assert (H' : Forall (in_members broken_members) broken_links).
  { repeat constructor. }
  split.
  - apply (proj2 (check_is_silent_iff_chain_is_connected _ _ H)).
    repeat split.
  - intros E.
    apply (proj1 (check_is_silent_iff_chain_is_connected _ _ H')) in E.
    destruct E as [E _]. discriminate E.
Defined.

Lemma run_resolved nodes members ds rows :
  Forall (resolves nodes members ds) rows ->
  run nodes members ds (map eid rows)
  = (Ok tt,
     log_front (map connectivity_warning (mismatches (map link_of rows)))
       (emit (profile pos_i pos_j rows) (profile mz_i mz_j rows)
             (profile vy_i vy_j rows) initial)).
Proof.
  intros H. rewrite <- map_fst_link_of.
  rewrite run_after_check by (eapply links_in_members; eassumption).
  rewrite map_fst_link_of, extraction_ok by assumption. reflexivity.
Qed.

Lemma shared_node nodes members ds rows k r :
  Forall (resolves nodes members ds) rows ->
  connected (map link_of rows) ->
  nth_error rows (Datatypes.S k) = Some r ->
  exists prev, nth_error rows k = Some prev /\ pos_j prev = pos_i r.
Proof.
  revert k. induction rows as [|a rows IH]; intros k H C Hk; [discriminate|].
  inversion H as [|? ? Ha H']; subst.
  cbn [map connected] in C. destruct C as [C0 C].
  destruct k as [|k].
  - destruct rows as [|b rows]; [discriminate|].
    injection Hk as ->. exists a. split; [reflexivity|].
    inversion H' as [|? ? Hr _]; subst.
    cbn [map link_of snd fst] in C0.
    destruct Ha as [(_ & _ & Hj) _]. destruct Hr as [(_ & Hi & _) _].
    unfold pos_j, pos_i. rewrite C0 in Hj. congruence.
  - cbn [nth_error] in Hk |- *. now apply IH.
Qed.

(** X20.  For a chain whose elements all resolve and follow one another, the
    element at place [k] of the chain lies between the positions at
    places [k] and [k + 1] of the extracted profile. *)
Theorem element_lies_between_its_two_positions nodes members ds
    (rows : list row) (k : nat) (r : row) :
  Forall (resolves nodes members ds) rows ->
  connected (map link_of rows) ->
  nth_error rows k = Some r ->
  let xs := positions (snd (run nodes members ds (map eid rows))) in
  nth_error xs k = Some (pos_i r) /\
  nth_error xs (Datatypes.S k) = Some (pos_j r).
Proof.
  intros H C Hk xs. subst xs. rewrite run_resolved by assumption.
  cbn [snd log_front emit positions initial app].
  destruct rows as [|a rows]; [destruct k; discriminate|].
  cbn [profile]. split.
  - destruct k as [|k].
    + injection Hk as ->. reflexivity.
    + destruct (shared_node _ _ _ _ _ _ H C Hk) as (prev & Hp & E).
      cbn [nth_error]. change (pos_j a :: map pos_j rows) with (map pos_j (a :: rows)).
      rewrite nth_error_map, Hp. cbn. now rewrite E.
  - cbn [nth_error]. change (pos_j a :: map pos_j rows) with (map pos_j (a :: rows)).
    rewrite nth_error_map, Hk. reflexivity.
Qed.

Lemma element_lies_between_its_two_positions_witness :
  nth_error (positions (snd (run chain_nodes chain_members chain_ds chain_ids))) 2
  = Some (float_of_Z 10) /\
  nth_error (positions (snd (run chain_nodes chain_members chain_ds chain_ids))) 3
  = Some (float_of_Z 15).
Proof.
  assert (H : Forall (resolves chain_nodes chain_members chain_ds) chain_rows).
  { repeat constructor. }
  assert (C : connected (map link_of chain_rows)) by (repeat split).
  exact (element_lies_between_its_two_positions chain_nodes chain_members chain_ds
           chain_rows 2 (chain_row 33 18 23 10 15) H C eq_refl).
Defined.

Lemma same_geometry nodes members ds ds' rows rows' :
  Forall (resolves nodes members ds) rows ->
  Forall (resolves nodes members ds') rows' ->
  map eid rows = map eid rows' ->
  map pos_j rows = map pos_j rows' /\
  option_map pos_i (hd_error rows) = option_map pos_i (hd_error rows').
Proof.
  intros H H' E.
  assert (P : forall r r', resolves nodes members ds r ->
                           resolves nodes members ds' r' -> eid r = eid r' ->
                           pos_i r = pos_i r' /\ pos_j r = pos_j r').
  { intros r r' [(Hm & Hi & Hj) _] [(Hm' & Hi' & Hj') _] Ee.
    rewrite Ee, Hm' in Hm. injection Hm as Ei Ej.
    rewrite <- Ei, Hi' in Hi. rewrite <- Ej, Hj' in Hj.
    injection Hi as Ei'. injection Hj as Ej'.
    unfold pos_i, pos_j. now rewrite Ei', Ej'. }
  split.
  - revert rows' H' E. induction H as [|r rows Hr H IH]; intros rows' H' E.
    + destruct rows'; [reflexivity|discriminate].
    + destruct rows' as [|r' rows']; [discriminate|].
      inversion H'; subst. injection E as E0 E.
      cbn [map]. f_equal; [now apply (P r r')|now apply IH].
  - destruct rows as [|r rows], rows' as [|r' rows']; try discriminate; [reflexivity|].
    inversion H; inversion H'; subst. injection E as E0 _.
    cbn. f_equal. now apply (P r r').
Qed.

Lemma profile_eq (f g f' g' : row -> float) rows rows' :
  map g rows = map g' rows' ->
  option_map f (hd_error rows) = option_map f' (hd_error rows') ->
  profile f g rows = profile f' g' rows'.
Proof.
  destruct rows as [|r rows], rows' as [|r' rows']; try discriminate; [reflexivity|].
  cbn. intros E E0. injection E as -> ->. injection E0 as ->. reflexivity.
Qed.

(** X21.  The first-end values [Mz_i] and [Vy_i] of every element after the
    first are read but never reach the profile: two result sets that agree
    on all second-end values and on the first element's first-end values
    give the same three sequences over the same chain. *)
Theorem later_first_end_values_are_unused nodes members ds ds'
    (rows rows' : list row) :
  Forall (resolves nodes members ds) rows ->
  Forall (resolves nodes members ds') rows' ->
  map eid rows = map eid rows' ->
  map mz_j rows = map mz_j rows' ->
  map vy_j rows = map vy_j rows' ->
  option_map mz_i (hd_error rows) = option_map mz_i (hd_error rows') ->
  option_map vy_i (hd_error rows) = option_map vy_i (hd_error rows') ->
  fst (run nodes members ds (map eid rows)) = Ok tt /\
  fst (run nodes members ds' (map eid rows)) = Ok tt /\
  outputs (snd (run nodes members ds (map eid rows)))
  = outputs (snd (run nodes members ds' (map eid rows))).
Proof.
  intros H H' E Em Ev Em0 Ev0.
  destruct (same_geometry _ _ _ _ _ _ H H' E) as [Ep Ep0].
  rewrite run_resolved by assumption.
  rewrite E, run_resolved by assumption.
  unfold outputs. cbn [fst snd log_front emit positions bending_moments
                         shear_forces initial app].
  rewrite (profile_eq pos_i pos_j pos_i pos_j rows rows' Ep Ep0).
  rewrite (profile_eq mz_i mz_j mz_i mz_j rows rows' Em Em0).
  rewrite (profile_eq vy_i vy_j vy_i vy_j rows rows' Ev Ev0).
  repeat split.
Qed.

Lemma later_first_end_values_are_unused_witness :
  sel chain_ds 24 "Mz_i" <> sel chain_ds_other_i 24 "Mz_i" /\
  outputs (snd (run chain_nodes chain_members chain_ds chain_ids))
  = outputs (snd (run chain_nodes chain_members chain_ds_other_i chain_ids)).
Proof.
  assert (H : Forall (resolves chain_nodes chain_members chain_ds) chain_rows).
  { repeat constructor. }
  assert (H' : Forall (resolves chain_nodes chain_members chain_ds_other_i)
                 (map other_i chain_rows)).
  { repeat constructor. }
  split.
  - intros E.
    apply (f_equal (fun r => match r with
                             | Ok v => (v =? 24)%float
                             | Raise _ => false
                             end)) in E.
    vm_compute in E. discriminate E.
  - exact (proj2 (proj2 (later_first_end_values_are_unused
             chain_nodes chain_members chain_ds chain_ds_other_i
             chain_rows (map other_i chain_rows) H H'
             eq_refl eq_refl eq_refl eq_refl eq_refl))).
Defined.
End Task1Edge.
